(** * TRMNL Home Assistant add-on: navigation and page-readiness commands

    A shallow embedding of
    - [lib/browser/navigation-commands.ts] (NavigateToPage, WaitForPageLoad,
      WaitForPageStable, WaitForNetworkIdle, WaitForLoadingComplete), and
    - [html/shared/screenshot-target.ts] (resolveScreenshotTarget),
    together with the properties the specification states about them;
    and of
    - the page script of WaitForLoadingComplete ([checkShadowRoot]),
    - [lib/scheduler/params-builder.ts] (buildParams),
    - [ui.ts] (the dashboards list of fetchHomeAssistantData),
    - [scripts/release.js] (bumpVersion, the sorting of commits,
      cleanCommitMessage, formatChangelogEntries, updateChangelog), and
    - [html/js] (parseIntOrDefault),
    with properties read off the code.

    The browser (Puppeteer [Page], the CDP session, [Date.now()]) is the
    environment of the code.  It is modelled by explicit oracles: what
    [page.goto] answers for a URL, what the n-th [Date.now()] returns, what
    the k-th [page.evaluate] returns, which network events are delivered
    during the k-th sleep.  The commands themselves are written as the
    TypeScript source has them. *)

From Stdlib Require Import ZArith List String Ascii Bool Lia Arith DecimalString
  DecimalN.
Import ListNotations.

Local Open Scope string_scope.
Local Open Scope Z_scope.

(* ------------------------------------------------------------------ *)
(** ** JavaScript values shared by the commands *)

Module Js.

(** Exceptions that can leave a command.  [CannotOpenPageError] is the
    class of [error.js]; the source constructs it with a status, the page
    URL and, for transport failures only, the message of the cause. *)
Inductive Exception : Type :=
| CannotOpenPageError (status : Z) (pageUrl : string) (networkError : option string)
| TypeError (message : string)
| Error (message : string).

(** How an [async] call settles: its promise resolves with a value or
    rejects with an exception. *)
Inductive Completion (A : Type) : Type :=
| Returned (a : A)
| Threw (e : Exception).

Arguments Returned {A} a.
Arguments Threw {A} e.

(** Truthiness of an optional string: [undefined] and [''] are falsy. *)
Definition truthy (s : option string) : option string :=
  match s with
  | Some EmptyString => None
  | Some u => Some u
  | None => None
  end.

(** [String.prototype.startsWith]. *)
Definition startsWith (s searchString : string) : bool :=
  String.prefix searchString s.

End Js.

(* ------------------------------------------------------------------ *)
(** ** URLs *)

Module Url.

(** A model of the platform's [URL] class (WHATWG URL Standard) on the
    fragment of URLs the commands are used with: scheme [http] or
    [https] in lower case, a host that the platform keeps as it is
    written ([is_plain_host]), an optional decimal port, and a path of
    unreserved characters without dot segments, query or fragment.  On
    this fragment parsing only (a) drops a port that is the scheme's
    default and (b) turns an empty path into [/].  Outside the fragment
    the functions answer [None], whether the platform would throw or
    not; the general properties of the commands therefore take the
    resolver as a parameter, and this model serves the concrete runs and
    the properties stated for URLs of the fragment. *)

Record t : Type := mk {
  scheme : string;
  host : string;
  port : option N;
  pathname : string
}.

Definition in_range (lo hi : nat) (c : ascii) : bool :=
  let n := nat_of_ascii c in (lo <=? n)%nat && (n <=? hi)%nat.

Definition is_digit (c : ascii) : bool := in_range 48 57 c.
Definition is_lower (c : ascii) : bool := in_range 97 122 c.
Definition is_upper (c : ascii) : bool := in_range 65 90 c.

Definition is_host_char (c : ascii) : bool :=
  is_lower c || is_digit c || Ascii.eqb c "-" || Ascii.eqb c ".".

Definition is_label_char (c : ascii) : bool :=
  is_lower c || is_digit c || Ascii.eqb c "-".

Definition is_path_char (c : ascii) : bool :=
  is_lower c || is_upper c || is_digit c
  || Ascii.eqb c "/" || Ascii.eqb c "-" || Ascii.eqb c "_" || Ascii.eqb c "~".

(** Longest prefix whose characters satisfy [f], and the rest. *)
Fixpoint span (f : ascii -> bool) (s : string) : string * string :=
  match s with
  | EmptyString => (EmptyString, EmptyString)
  | String c r =>
      if f c then let (a, b) := span f r in (String c a, b)
      else (EmptyString, s)
  end.

Fixpoint all_chars (f : ascii -> bool) (s : string) : bool :=
  match s with
  | EmptyString => true
  | String c r => f c && all_chars f r
  end.

Definition strip_prefix (p s : string) : option string :=
  if String.prefix p s
  then Some (substring (String.length p) (String.length s - String.length p) s)
  else None.

Definition digit_value (c : ascii) : N := N.of_nat (nat_of_ascii c - 48).

Fixpoint number_of_digits (acc : N) (s : string) : N :=
  match s with
  | EmptyString => acc
  | String c r => number_of_digits (10 * acc + digit_value c)%N r
  end.

(** The labels of a host: the parts between its dots. *)
Fixpoint labels (h : string) : list string :=
  match h with
  | EmptyString => [EmptyString]
  | String c r =>
      if Ascii.eqb c "." then EmptyString :: labels r
      else
        match labels r with
        | [] => [String c EmptyString]
        | l :: rest => String c l :: rest
        end
  end.

Fixpoint no_double_hyphen (l : string) : bool :=
  match l with
  | EmptyString => true
  | String c r =>
      match r with
      | EmptyString => true
      | String d _ =>
          if Ascii.eqb c "-" && Ascii.eqb d "-" then false
          else no_double_hyphen r
      end
  end.

(** A label the platform's domain processing leaves alone: not empty,
    lower-case letters, digits and [-], without two hyphens in a row (a
    label that starts [xn--] is decoded). *)
Definition is_name_label (l : string) : bool :=
  negb (String.eqb l "") && all_chars is_label_char l && no_double_hyphen l.

Definition starts_with_letter (l : string) : bool :=
  match l with
  | EmptyString => false
  | String c _ => is_lower c
  end.

(** One part of an IPv4 address in the form the platform writes it: a
    decimal number up to 255 without leading zero. *)
Definition is_decimal_octet (l : string) : bool :=
  negb (String.eqb l "") && all_chars is_digit l
  && (String.length l <=? 3)%nat
  && (String.eqb l "0" || negb (String.prefix "0" l))
  && (number_of_digits 0%N l <=? 255)%N.

(** The hosts of the fragment.  A host whose last label is a number is
    read by the platform as an IPv4 address and is rewritten
    ([192.168.1] becomes [192.168.0.1]) or rejected ([ha.1]); such a host
    is in the fragment only when it is an address of four decimal parts
    as the platform writes it.  Every other host of the fragment is a
    name whose last label starts with a letter. *)
Definition is_plain_host (h : string) : bool :=
  let ls := labels h in
  (forallb is_name_label ls && starts_with_letter (last ls EmptyString))
  || ((List.length ls =? 4)%nat && forallb is_decimal_octet ls).

Definition default_port (scheme : string) : N :=
  if String.eqb scheme "http" then 80%N else 443%N.

Definition split_scheme (s : string) : option (string * string) :=
  match strip_prefix "http://" s with
  | Some rest => Some ("http", rest)
  | None =>
      match strip_prefix "https://" s with
      | Some rest => Some ("https", rest)
      | None => None
      end
  end.

(** The path that follows the authority: empty becomes [/]; anything else
    must be an absolute path of plain characters. *)
Definition parse_path (s : string) : option string :=
  match s with
  | EmptyString => Some "/"
  | String "/" _ => if all_chars is_path_char s then Some s else None
  | _ => None
  end.

Definition parse (s : string) : option t :=
  match split_scheme s with
  | None => None
  | Some (sch, rest) =>
      let (h, rest1) := span is_host_char rest in
      if negb (is_plain_host h) then None else
      match rest1 with
      | String ":" r =>
          let (digits, rest2) := span is_digit r in
          let p := number_of_digits 0%N digits in
          if (String.length digits <=? 5)%nat && (p <=? 65535)%N then
            match parse_path rest2 with
            | Some pa =>
                Some (mk sch h
                        (if String.eqb digits "" then None
                         else if (p =? default_port sch)%N then None
                         else Some p)
                        pa)
            | None => None
            end
          else None
      | _ =>
          match parse_path rest1 with
          | Some pa => Some (mk sch h None pa)
          | None => None
          end
      end
  end.

Definition port_suffix (p : option N) : string :=
  match p with
  | None => ""
  | Some n => ":" ++ NilEmpty.string_of_uint (N.to_uint n)
  end.

(** [url.origin] *)
Definition origin (u : t) : string :=
  scheme u ++ "://" ++ host u ++ port_suffix (port u).

(** [url.toString()], also [url.href] *)
Definition toString (u : t) : string :=
  origin u ++ pathname u.

(** [new URL(input).origin] *)
Definition origin_of (input : string) : option string :=
  option_map origin (parse input).

(** A reference that is an absolute path ([/a/b], not [//host]). *)
Definition is_absolute_path (ref : string) : bool :=
  match ref with
  | String "/" (String "/" _) => false
  | String "/" _ => all_chars is_path_char ref
  | _ => false
  end.

(** [new URL(ref, base).toString()] for an absolute-path reference: the
    base's scheme, host and port with the reference as path. *)
Definition resolve (ref base : string) : option string :=
  match parse base with
  | None => None
  | Some b =>
      if is_absolute_path ref
      then Some (toString (mk (scheme b) (host b) (port b) ref))
      else None
  end.

(** Two URLs have the same origin: scheme, host and port agree, a default
    port counting as no port. *)
Definition same_origin (a b : string) : bool :=
  match origin_of a, origin_of b with
  | Some x, Some y => String.eqb x y
  | _, _ => false
  end.

End Url.

(* ------------------------------------------------------------------ *)
(** ** html/shared/screenshot-target.ts *)

Module ScreenshotTarget.

(** The fields of [Schedule] (types/domain.js) that the resolver reads.
    [ha_mode] and [target_url] are optional properties; [dashboard_path]
    is read under [||], so a missing one is provided for as well. *)
Record Schedule : Type := {
  ha_mode : option bool;
  dashboard_path : option string;
  target_url : option string
}.

Record ScreenshotTarget : Type := {
  path : string;
  fullUrl : option string;
  isHAMode : bool
}.

Definition DEFAULT_DASHBOARD_PATH : string := "/lovelace/0".

Definition resolveScreenshotTarget (schedule : Schedule) : ScreenshotTarget :=
  let isHAMode :=
    match ha_mode schedule with Some b => b | None => true end in
  if isHAMode then
    {| path :=
         match Js.truthy (dashboard_path schedule) with
         | Some p => p
         | None => DEFAULT_DASHBOARD_PATH
         end;
       fullUrl := None;
       isHAMode := true |}
  else
    {| path := "/";
       fullUrl := target_url schedule;
       isHAMode := false |}.

End ScreenshotTarget.

(* ------------------------------------------------------------------ *)
(** ** NavigateToPage *)

Module Navigation.
Import Js.

(** [Record<string, string>], in [Object.entries] order. *)
Definition AuthStorage : Type := list (string * string).

Record NavigationResult : Type := { waitTime : Z }.

(** *** The page *)

(** Calls a command makes on the page, in order (the unit tests count
    them the same way through a mock page). *)
Inductive PageCall : Type :=
| CallEvaluateOnNewDocument (storage : AuthStorage)
| CallRemoveScriptToEvaluateOnNewDocument (identifier : nat)
| CallGoto (url : string)
| CallEvaluate (path : string).

(** The state of a Puppeteer page as far as navigation touches it: the
    URL of the current document, the scripts registered to run before
    the scripts of every new document (most recent first, each under the
    identifier the browser gave it), the next identifier, and the log of
    calls.  The browser numbers the scripts of a page; the identifier,
    which the source holds as the decimal string of that number, is kept
    as the number. *)
Record Page : Type := {
  url : string;
  newDocumentScripts : list (nat * AuthStorage);
  nextIdentifier : nat;
  calls : list PageCall
}.

Record HTTPResponse : Type := {
  ok : bool;
  status : Z;
  landedOn : string     (* URL of the document the browser ends on *)
}.

(** What [page.goto(url)] does: reject (DNS failure, refused connection,
    timeout), resolve with [null], or resolve with a response. *)
Inductive GotoOutcome : Type :=
| GotoThrows (message : string)
| GotoNull
| GotoResponse (r : HTTPResponse).

(** The browser behind the page. *)
Record Browser : Type := {
  gotoOutcome : string -> GotoOutcome;
  (** [Some message]: [page.evaluateOnNewDocument] rejects *)
  evaluateOnNewDocumentFails : option string;
  (** [Some message]: [page.evaluate] of the router script rejects *)
  evaluateFails : option string;
  (** the URL of a document at [current] after
      [history.replaceState(state, '', path)] *)
  afterReplaceState : string -> string -> string
}.

Definition logCall (c : PageCall) (p : Page) : Page :=
  {| url := url p;
     newDocumentScripts := newDocumentScripts p;
     nextIdentifier := nextIdentifier p;
     calls := calls p ++ [c] |}.

(** Removes the first script registered under [identifier]. *)
Fixpoint removeScript (identifier : nat) (l : list (nat * AuthStorage))
  : list (nat * AuthStorage) :=
  match l with
  | [] => []
  | (i, s) :: r =>
      if Nat.eqb i identifier then r else (i, s) :: removeScript identifier r
  end.

Definition page_evaluateOnNewDocument (b : Browser) (storage : AuthStorage)
    (p : Page) : Completion nat * Page :=
  let p := logCall (CallEvaluateOnNewDocument storage) p in
  match evaluateOnNewDocumentFails b with
  | Some message => (Threw (Error message), p)
  | None =>
      (Returned (nextIdentifier p),
       {| url := url p;
          newDocumentScripts := (nextIdentifier p, storage) :: newDocumentScripts p;
          nextIdentifier := S (nextIdentifier p);
          calls := calls p |})
  end.

Definition page_removeScriptToEvaluateOnNewDocument (identifier : nat)
    (p : Page) : Page :=
  let p := logCall (CallRemoveScriptToEvaluateOnNewDocument identifier) p in
  {| url := url p;
     newDocumentScripts := removeScript identifier (newDocumentScripts p);
     nextIdentifier := nextIdentifier p;
     calls := calls p |}.

Definition page_goto (b : Browser) (pageUrl : string) (p : Page)
  : GotoOutcome * Page :=
  let p := logCall (CallGoto pageUrl) p in
  match gotoOutcome b pageUrl with
  | GotoResponse r =>
      (GotoResponse r,
       {| url := landedOn r;
          newDocumentScripts := newDocumentScripts p;
          nextIdentifier := nextIdentifier p;
          calls := calls p |})
  | o => (o, p)
  end.

Definition page_evaluate (b : Browser) (path : string) (p : Page)
  : Completion unit * Page :=
  let p := logCall (CallEvaluate path) p in
  match evaluateFails b with
  | Some message => (Threw (Error message), p)
  | None =>
      (Returned tt,
       {| url := afterReplaceState b (url p) path;
          newDocumentScripts := newDocumentScripts p;
          nextIdentifier := nextIdentifier p;
          calls := calls p |})
  end.

(** *** Counting calls *)

Definition isEvaluateOnNewDocument (c : PageCall) : bool :=
  match c with CallEvaluateOnNewDocument _ => true | _ => false end.
Definition isRemoveScript (c : PageCall) : bool :=
  match c with CallRemoveScriptToEvaluateOnNewDocument _ => true | _ => false end.
Definition isGoto (c : PageCall) : bool :=
  match c with CallGoto _ => true | _ => false end.
Definition isEvaluate (c : PageCall) : bool :=
  match c with CallEvaluate _ => true | _ => false end.

Definition count (f : PageCall -> bool) (p : Page) : nat :=
  List.length (List.filter f (calls p)).

(** *** The command *)

Section Command.

(** const.js *)
Variable DEFAULT_WAIT_TIME : Z.
Variable COLD_START_EXTRA_WAIT : Z.
Variable isAddOn : bool.

(** [new URL(path, base).toString()]; [None] when the constructor
    throws its [TypeError]. *)
Variable URL_toString : string -> string -> option string.

Variable browser : Browser.

(** The private fields [#authStorage] and [#homeAssistantUrl]; the
    field [#page] is the [Page] threaded through the calls. *)
Record NavigateToPage : Type := {
  authStorage : AuthStorage;
  homeAssistantUrl : string
}.

Variable self : NavigateToPage.

Definition shouldInjectAuth (pageUrl : string) : bool :=
  startsWith pageUrl (homeAssistantUrl self).

(** [targetUrl || new URL(pagePath, this.#homeAssistantUrl).toString()] *)
Definition resolvePageUrl (pagePath : string) (targetUrl : option string)
  : option string :=
  match truthy targetUrl with
  | Some u => Some u
  | None => URL_toString pagePath (homeAssistantUrl self)
  end.

Definition removeIfRegistered (evaluateId : option nat) (p : Page) : Page :=
  match evaluateId with
  | Some identifier => page_removeScriptToEvaluateOnNewDocument identifier p
  | None => p
  end.

(** The part of [#firstNavigation] from [page.goto] on. *)
Definition firstNavigationLoad (pageUrl : string) (evaluateId : option nat)
    (p : Page) : Completion NavigationResult * Page :=
  match page_goto browser pageUrl p with
  | (GotoThrows message, p) =>
      let p := removeIfRegistered evaluateId p in
      (Threw (CannotOpenPageError 0 pageUrl (Some message)), p)
  | (GotoNull, p) =>
      let p := removeIfRegistered evaluateId p in
      (Threw (CannotOpenPageError 0 pageUrl None), p)
  | (GotoResponse response, p) =>
      if negb (ok response) then
        let p := removeIfRegistered evaluateId p in
        (Threw (CannotOpenPageError (status response) pageUrl None), p)
      else
        let p := removeIfRegistered evaluateId p in
        (Returned
           {| waitTime :=
                DEFAULT_WAIT_TIME
                + (if isAddOn then COLD_START_EXTRA_WAIT else 0) |},
         p)
  end.

Definition firstNavigation (pagePath : string) (targetUrl : option string)
    (p : Page) : Completion NavigationResult * Page :=
  match resolvePageUrl pagePath targetUrl with
  | None => (Threw (TypeError "Invalid URL"), p)
  | Some pageUrl =>
      let injectAuth := shouldInjectAuth pageUrl in
      if injectAuth then
        match page_evaluateOnNewDocument browser (authStorage self) p with
        | (Threw e, p) => (Threw e, p)
        | (Returned identifier, p) =>
            firstNavigationLoad pageUrl (Some identifier) p
        end
      else firstNavigationLoad pageUrl None p
  end.

Definition subsequentNavigation (pagePath : string)
    (targetUrl : option string) (p : Page)
  : Completion NavigationResult * Page :=
  let isGenericUrl :=
    match truthy targetUrl with Some _ => true | None => false end in
  let isCurrentlyOnHA := startsWith (url p) (homeAssistantUrl self) in
  if isGenericUrl || negb isCurrentlyOnHA then
    match resolvePageUrl pagePath targetUrl with
    | None => (Threw (TypeError "Invalid URL"), p)
    | Some pageUrl =>
        match page_goto browser pageUrl p with
        | (GotoThrows message, p) =>
            (Threw (CannotOpenPageError 0 pageUrl (Some message)), p)
        | (GotoNull, p) =>
            (Threw (CannotOpenPageError 0 pageUrl None), p)
        | (GotoResponse response, p) =>
            if negb (ok response) then
              (Threw (CannotOpenPageError (status response) pageUrl None), p)
            else (Returned {| waitTime := DEFAULT_WAIT_TIME |}, p)
        end
    end
  else
    match URL_toString pagePath (homeAssistantUrl self) with
    | None => (Threw (TypeError "Invalid URL"), p)
    | Some _haUrl =>
        match page_evaluate browser pagePath p with
        | (Threw e, p) => (Threw e, p)
        | (Returned _, p) =>
            (Returned {| waitTime := DEFAULT_WAIT_TIME |}, p)
        end
    end.

Definition call (pagePath : string) (isFirstNavigation : bool)
    (targetUrl : option string) (p : Page)
  : Completion NavigationResult * Page :=
  if isFirstNavigation then firstNavigation pagePath targetUrl p
  else subsequentNavigation pagePath targetUrl p.

End Command.

(** Calls made since [before], given that the log only grows. *)
Definition newCalls (before after : Page) : list PageCall :=
  skipn (List.length (calls before)) (calls after).

End Navigation.

(* ------------------------------------------------------------------ *)
(** ** The readiness detectors *)

Module Detectors.
Import Js.

(** The lines the detectors write to the navigation logger. *)
Inductive LogLine : Type :=
| LogTimeoutWaitingForHA
| LogPageStable (actualWait stableChecks : Z)
| LogPageStabilityTimeout (actualWait : Z)
| LogNetworkIdle (actualWait : Z)
| LogNetworkIdleTimeout (actualWait pending : Z)
| LogNetworkIdleUnavailable (message : string)
| LogLoadingCleared (actualWait : Z)
| LogLoadingTimeout (actualWait : Z).

(** How a detector's [call()] settles and what it logged on the way. *)
Record Outcome (A : Type) : Type := {
  result : Completion A;
  logged : list LogLine
}.

Arguments result {A} o.
Arguments logged {A} o.

(** A [while] loop whose body either goes round again with a new state
    or leaves the function.  [fuel] bounds the number of rounds; the
    answer carries the state in which the last round started. *)
Fixpoint iterate {State Leave : Type} (step : State -> State + Leave)
    (fuel : nat) (s : State) : option (State * Leave) :=
  match fuel with
  | O => None
  | S fuel' =>
      match step s with
      | inl s' => iterate step fuel' s'
      | inr r => Some (s, r)
      end
  end.

(** *** WaitForPageLoad *)


(** *** WaitForPageStable *)

Record StabilityMetrics : Type := {
  height : Z;
  contentHash : Z
}.

(** The local variables of [WaitForPageStable.call], with the number of
    [Date.now()] reads and of [page.evaluate] calls made so far. *)
Record StableState : Type := {
  lastHeight : Z;
  lastContent : Z;
  stableChecks : Z;
  stableReads : nat;
  stablePolls : nat
}.

Definition requiredStableChecks : Z := 3.

Section WaitForPageStable.

(** [now n]: what the n-th [Date.now()] of the run returns. *)
Variable now : nat -> Z.
(** [evaluate k]: how the k-th [page.evaluate] of the run settles. *)
Variable evaluate : nat -> Completion StabilityMetrics.
(** [#timeout] *)
Variable timeout : Z.

(** One round of the [while] loop, from its condition to the sleep. *)
Definition stableStep (start : Z) (s : StableState)
  : StableState + Outcome Z :=
  if now (stableReads s) - start <? timeout then
    match evaluate (stablePolls s) with
    | Threw e => inr {| result := Threw e; logged := [] |}
    | Returned metrics =>
        if (height metrics =? lastHeight s)
           && (contentHash metrics =? lastContent s)
        then
          let stableChecks' := stableChecks s + 1 in
          if stableChecks' >=? requiredStableChecks then
            let actualWait := now (S (stableReads s)) - start in
            inr {| result := Returned actualWait;
                   logged := [LogPageStable actualWait stableChecks'] |}
          else
            inl {| lastHeight := height metrics;
                   lastContent := contentHash metrics;
                   stableChecks := stableChecks';
                   stableReads := S (stableReads s);
                   stablePolls := S (stablePolls s) |}
        else
          inl {| lastHeight := height metrics;
                 lastContent := contentHash metrics;
                 stableChecks := 0;
                 stableReads := S (stableReads s);
                 stablePolls := S (stablePolls s) |}
    end
  else
    let actualWait := now (S (stableReads s)) - start in
    inr {| result := Returned actualWait;
           logged := [LogPageStabilityTimeout actualWait] |}.

Definition stableInit : StableState :=
  {| lastHeight := 0; lastContent := 0; stableChecks := 0;
     stableReads := 1; stablePolls := 0 |}.

Definition WaitForPageStable_call (fuel : nat)
  : option (StableState * Outcome Z) :=
  let start := now 0 in
  iterate (stableStep start) fuel stableInit.

(** What the k-th check compares its sample with: the values that
    [lastHeight] and [lastContent] hold then, which are the initial 0
    and 0 at the first check and the sample before at every later one. *)
Definition comparedWith (k : nat) : Completion StabilityMetrics :=
  match k with
  | O => Returned {| height := 0; contentHash := 0 |}
  | S j => evaluate j
  end.

(** The k-th check passes: the sample was taken and both metrics equal
    the values it is compared with. *)
Definition checkPasses (k : nat) : Prop :=
  exists m m',
    evaluate k = Returned m /\ comparedWith k = Returned m'
    /\ height m = height m' /\ contentHash m = contentHash m'.

(** Samples [j] and [k] were both taken and agree in both metrics. *)
Definition sameSample (j k : nat) : Prop :=
  exists m m',
    evaluate j = Returned m /\ evaluate k = Returned m'
    /\ height m = height m' /\ contentHash m = contentHash m'.

(** What holds of the local variables at the head of every round: the
    counter is the length of the run of passed checks that ends with the
    last sample taken. *)
Definition StableInv (s : StableState) : Prop :=
  stableReads s = S (stablePolls s)
  /\ 0 <= stableChecks s <= Z.of_nat (stablePolls s)
  /\ comparedWith (stablePolls s)
     = Returned {| height := lastHeight s; contentHash := lastContent s |}
  /\ forall k : nat,
       (k < stablePolls s)%nat ->
       Z.of_nat (stablePolls s) - stableChecks s <= Z.of_nat k ->
       checkPasses k.

End WaitForPageStable.

(** *** WaitForNetworkIdle *)

Inductive NetworkEvent : Type :=
| RequestWillBeSent
| LoadingFinished
| LoadingFailed.

(** The variables the event handlers close over, with the number of
    [Date.now()] reads and of sleeps so far. *)
Record NetState : Type := {
  pendingRequests : Z;
  lastActivityTime : Z;
  netReads : nat;
  netSleeps : nat
}.

Section WaitForNetworkIdle.

Variable now : nat -> Z.
(** [Some message]: [createCDPSession] or [Network.enable] rejects. *)
Variable attachFails : option string.
(** The events the session delivers while the k-th wait of the run is
    pending, counted from the registration of the handlers: the sleeps
    of the loop and, after the last of them, [client.detach()]. *)
Variable inbox : nat -> list NetworkEvent.
(** [Some message]: [client.detach()] rejects. *)
Variable detachFails : option string.
(** [#timeout], [#idleTime] *)
Variable timeout : Z.
Variable idleTime : Z.

Definition onRequestWillBeSent (s : NetState) : NetState :=
  {| pendingRequests := pendingRequests s + 1;
     lastActivityTime := now (netReads s);
     netReads := S (netReads s);
     netSleeps := netSleeps s |}.

Definition onLoadingFinished (s : NetState) : NetState :=
  {| pendingRequests := Z.max 0 (pendingRequests s - 1);
     lastActivityTime := now (netReads s);
     netReads := S (netReads s);
     netSleeps := netSleeps s |}.

Definition onLoadingFailed (s : NetState) : NetState :=
  {| pendingRequests := Z.max 0 (pendingRequests s - 1);
     lastActivityTime := now (netReads s);
     netReads := S (netReads s);
     netSleeps := netSleeps s |}.

Definition dispatch (s : NetState) (e : NetworkEvent) : NetState :=
  match e with
  | RequestWillBeSent => onRequestWillBeSent s
  | LoadingFinished => onLoadingFinished s
  | LoadingFailed => onLoadingFailed s
  end.

(** The handlers run one after the other, in delivery order. *)
Definition deliver (events : list NetworkEvent) (s : NetState) : NetState :=
  fold_left dispatch events s.

(** [await client.detach()] after [reads] clock reads of the round: the
    handlers are still registered, so the events delivered meanwhile
    reach them. *)
Definition detaching (reads : nat) (s : NetState) : NetState :=
  deliver (inbox (netSleeps s))
    {| pendingRequests := pendingRequests s;
       lastActivityTime := lastActivityTime s;
       netReads := (reads + netReads s)%nat;
       netSleeps := netSleeps s |}.

(** One round of the [while] loop, and what follows the loop when its
    condition fails. *)
Definition netStep (start : Z) (s : NetState) : NetState + Outcome Z :=
  if now (netReads s) - start <? timeout then
    let timeSinceLastActivity := now (S (netReads s)) - lastActivityTime s in
    let isIdle :=
      (pendingRequests s =? 0) && (timeSinceLastActivity >=? idleTime) in
    if isIdle then
      let actualWait := now (S (S (netReads s))) - start in
      match detachFails with
      | None =>
          inr {| result := Returned actualWait;
                 logged := [LogNetworkIdle actualWait] |}
      | Some message =>
          let detached := detaching 3 s in
          inr {| result := Returned (now (netReads detached) - start);
                 logged := [LogNetworkIdle actualWait;
                            LogNetworkIdleUnavailable message] |}
      end
    else
      inl (deliver (inbox (netSleeps s))
             {| pendingRequests := pendingRequests s;
                lastActivityTime := lastActivityTime s;
                netReads := S (S (netReads s));
                netSleeps := S (netSleeps s) |})
  else
    let detached := detaching 1 s in
    match detachFails with
    | None =>
        let actualWait := now (netReads detached) - start in
        inr {| result := Returned actualWait;
               logged := [LogNetworkIdleTimeout actualWait
                            (pendingRequests detached)] |}
    | Some message =>
        inr {| result := Returned (now (netReads detached) - start);
               logged := [LogNetworkIdleUnavailable message] |}
    end.

Definition netInit : NetState :=
  {| pendingRequests := 0; lastActivityTime := now 1;
     netReads := 2; netSleeps := 0 |}.

(** The answer carries, when the loop ran, the state in which its
    last round started. *)
Definition WaitForNetworkIdle_call (fuel : nat)
  : option (option NetState * Outcome Z) :=
  let start := now 0 in
  match attachFails with
  | Some message =>
      Some (None,
            {| result := Returned (now 1 - start);
               logged := [LogNetworkIdleUnavailable message] |})
  | None =>
      match iterate (netStep start) fuel netInit with
      | Some (s, o) => Some (Some s, o)
      | None => None
      end
  end.

(** What holds of the handlers' variables at the head of every round:
    the counter is not negative and the last activity time is an earlier
    reading of the clock. *)
Definition NetInv (s : NetState) : Prop :=
  0 <= pendingRequests s
  /\ exists i : nat, (i < netReads s)%nat /\ lastActivityTime s = now i.

End WaitForNetworkIdle.

(** *** WaitForLoadingComplete *)

Record LoadingState : Type := {
  loadingReads : nat;
  loadingPolls : nat
}.

Section WaitForLoadingComplete.

Variable now : nat -> Z.
(** How the k-th [page.evaluate] settles: [hasLoadingIndicators]. *)
Variable evaluate : nat -> Completion bool.
Variable timeout : Z.

Definition loadingStep (start : Z) (s : LoadingState)
  : LoadingState + Outcome Z :=
  if now (loadingReads s) - start <? timeout then
    match evaluate (loadingPolls s) with
    | Threw e => inr {| result := Threw e; logged := [] |}
    | Returned hasLoadingIndicators =>
        if negb hasLoadingIndicators then
          let actualWait := now (S (loadingReads s)) - start in
          inr {| result := Returned actualWait;
                 logged := [LogLoadingCleared actualWait] |}
        else
          inl {| loadingReads := S (loadingReads s);
                 loadingPolls := S (loadingPolls s) |}
    end
  else
    let actualWait := now (S (loadingReads s)) - start in
    inr {| result := Returned actualWait;
           logged := [LogLoadingTimeout actualWait] |}.

Definition loadingInit : LoadingState :=
  {| loadingReads := 1; loadingPolls := 0 |}.

Definition WaitForLoadingComplete_call (fuel : nat)
  : option (LoadingState * Outcome Z) :=
  let start := now 0 in
  iterate (loadingStep start) fuel loadingInit.

End WaitForLoadingComplete.

(** A clock that never runs backwards. *)
Definition monotone (now : nat -> Z) : Prop :=
  forall i j : nat, (i <= j)%nat -> now i <= now j.

(** From the N-th read on, the clock is at or past the deadline. *)
Definition reachesDeadline (now : nat -> Z) (timeout : Z) (N : nat) : Prop :=
  forall n : nat, (N <= n)%nat -> timeout <= now n - now 0%nat.

End Detectors.

(* ------------------------------------------------------------------ *)
(** ** Concrete environments *)

Module Scenarios.
Import Js Navigation Detectors.

(** As with the mock page of tests/unit/navigation-commands.test.ts,
    every [goto] answers 200 and the page starts on [about:blank]; as in
    a browser, the page then is on the URL it was sent to. *)
Definition STUB_AUTH : AuthStorage := [("hassTokens", "{}")].

(** A path given to [history.replaceState] is resolved against the
    document's URL. *)
Definition replaceStateUrl (current path : string) : string :=
  match Url.resolve path current with
  | Some u => u
  | None => current
  end.

Definition mockBrowser : Browser :=
  {| gotoOutcome := fun u =>
       GotoResponse {| ok := true; status := 200; landedOn := u |};
     evaluateOnNewDocumentFails := None;
     evaluateFails := None;
     afterReplaceState := replaceStateUrl |}.

Definition mockPage : Page :=
  {| url := "about:blank"; newDocumentScripts := [];
     nextIdentifier := 1; calls := [] |}.

(** A browser that cannot connect, and one whose server answers 404. *)
Definition refusedBrowser : Browser :=
  {| gotoOutcome := fun _ => GotoThrows "net::ERR_CONNECTION_REFUSED";
     evaluateOnNewDocumentFails := None;
     evaluateFails := None;
     afterReplaceState := replaceStateUrl |}.

Definition notFoundBrowser : Browser :=
  {| gotoOutcome := fun u =>
       GotoResponse {| ok := false; status := 404; landedOn := u |};
     evaluateOnNewDocumentFails := None;
     evaluateFails := None;
     afterReplaceState := replaceStateUrl |}.

Definition navigator (homeAssistantUrl : string) : NavigateToPage :=
  {| authStorage := STUB_AUTH; homeAssistantUrl := homeAssistantUrl |}.

(** Clocks.  Reads 0 to 3 happen before the first sleep of
    WaitForNetworkIdle, reads 4 and 5 in the handlers of two events
    delivered 50 ms into that sleep, and every later round makes two
    reads; a sleep lasts [period] ms. *)
Definition T0 : Z := 1700000000000.

Definition pollingClock (period : Z) (n : nat) : Z :=
  if (n <? 4)%nat then T0
  else if (n <? 6)%nat then T0 + 50
  else T0 + period * Z.of_nat ((n - 4) / 2).

(** Two requests start during the first sleep and never complete. *)
Definition twoRequests (k : nat) : list NetworkEvent :=
  match k with
  | O => [RequestWillBeSent; RequestWillBeSent]
  | S _ => []
  end.


(** A clock that advances 100 ms with every read. *)
Definition steadyClock (n : nat) : Z := T0 + 100 * Z.of_nat n.

(** A page without a [home-assistant] element: every sample is 0/0. *)
Definition blankSamples (k : nat) : Completion StabilityMetrics :=
  Returned {| height := 0; contentHash := 0 |}.

(** A page that grows for its first three samples and then keeps its
    size. *)
Definition settlingSamples (k : nat) : Completion StabilityMetrics :=
  Returned {| height := 480 + 20 * Z.of_nat (Nat.min k 2);
              contentHash := 1000 |}.

(** A page that grows by one line with every sample. *)
Definition growingSamples (k : nat) : Completion StabilityMetrics :=
  Returned {| height := 480 + 20 * Z.of_nat k; contentHash := 1000 |}.


End Scenarios.

(* ------------------------------------------------------------------ *)
(** ** Notions used to state further properties of the detectors *)

Module DetectorSpecs.
Import Js Detectors.

(** What holds at the head of every round of WaitForLoadingComplete:
    every poll so far found a visible loading indicator. *)
Definition LoadingInv (evaluate : nat -> Completion bool) (s : LoadingState)
  : Prop :=
  loadingReads s = S (loadingPolls s)
  /\ forall j : nat, (j < loadingPolls s)%nat -> evaluate j = Returned true.

(** Requests started and requests completed (finished or failed) among
    the events of a list. *)
Definition started (events : list NetworkEvent) : Z :=
  Z.of_nat (List.length
              (filter (fun e => match e with
                                | RequestWillBeSent => true
                                | _ => false
                                end) events)).

Definition completed (events : list NetworkEvent) : Z :=
  Z.of_nat (List.length
              (filter (fun e => match e with
                                | RequestWillBeSent => false
                                | _ => true
                                end) events)).

(** No completion arrives while the counter, starting from [c], is at
    0: every completion matches a request counted before it. *)
Fixpoint matched (c : Z) (events : list NetworkEvent) : bool :=
  match events with
  | [] => true
  | RequestWillBeSent :: rest => matched (c + 1) rest
  | _ :: rest => (0 <? c) && matched (c - 1) rest
  end.

End DetectorSpecs.

(* ------------------------------------------------------------------ *)
(** ** The page script of WaitForLoadingComplete *)

Module Dom.

(** An element as the script of WaitForLoadingComplete sees it: its
    local name, classes and attribute names (what the selectors test),
    the [display] and [visibility] of its computed style, its child
    elements, and the child elements of its open shadow root if it has
    one. *)
#[local] Unset Elimination Schemes.
Inductive Element : Type :=
| mkElement (localName : string) (classList : list string)
    (attributeNames : list string) (display visibility : string)
    (children : list Element) (shadowRoot : option (list Element)).
#[local] Set Elimination Schemes.

Definition localName (e : Element) : string :=
  match e with mkElement n _ _ _ _ _ _ => n end.
Definition classList (e : Element) : list string :=
  match e with mkElement _ c _ _ _ _ _ => c end.
Definition attributeNames (e : Element) : list string :=
  match e with mkElement _ _ a _ _ _ _ => a end.
Definition display (e : Element) : string :=
  match e with mkElement _ _ _ d _ _ _ => d end.
Definition visibility (e : Element) : string :=
  match e with mkElement _ _ _ _ v _ _ => v end.
Definition children (e : Element) : list Element :=
  match e with mkElement _ _ _ _ _ c _ => c end.
Definition shadowRoot (e : Element) : option (list Element) :=
  match e with mkElement _ _ _ _ _ _ s => s end.

(** An element and its descendants, in document order; shadow roots
    are not entered. *)
Fixpoint subtree (e : Element) : list Element :=
  match e with
  | mkElement _ _ _ _ _ ch _ => e :: flat_map subtree ch
  end.

(** [root.querySelectorAll('*')] for a root with the given child
    elements. *)
Definition querySelectorAll_any (root : list Element) : list Element :=
  flat_map subtree root.

(** The selector list
    ['ha-circular-progress, .loading, .spinner, [loading], hui-card-preview']. *)
Definition matchesLoadingSelectors (e : Element) : bool :=
  String.eqb (localName e) "ha-circular-progress"
  || existsb (String.eqb "loading") (classList e)
  || existsb (String.eqb "spinner") (classList e)
  || existsb (String.eqb "loading") (attributeNames e)
  || String.eqb (localName e) "hui-card-preview".

(** [root.querySelectorAll(selectors)] *)
Definition querySelectorAll_loading (root : list Element) : list Element :=
  filter matchesLoadingSelectors (querySelectorAll_any root).

(** [style.display !== 'none' && style.visibility !== 'hidden'] *)
Definition isVisible (e : Element) : bool :=
  negb (String.eqb (display e) "none")
  && negb (String.eqb (visibility e) "hidden").

(** [checkShadowRoot]; [fuel] bounds the depth of the recursion into
    nested shadow roots, [None] is fuel run out. *)
Fixpoint checkShadowRoot (fuel : nat) (root : list Element) : option bool :=
  match fuel with
  | O => None
  | S fuel' =>
      let indicators := querySelectorAll_loading root in
      if existsb isVisible indicators then Some true
      else
        let elementsWithShadow := querySelectorAll_any root in
        (fix each (els : list Element) : option bool :=
           match els with
           | [] => Some false
           | el :: rest =>
               match shadowRoot el with
               | Some sr =>
                   match checkShadowRoot fuel' sr with
                   | None => None
                   | Some true => Some true
                   | Some false => each rest
                   end
               | None => each rest
               end
           end) elementsWithShadow
  end.

(** The script itself; [haEl] is what
    [document.querySelector('home-assistant')] finds. *)
Definition hasLoadingIndicators (fuel : nat) (haEl : option Element)
  : option bool :=
  match haEl with
  | None => Some false
  | Some el =>
      match shadowRoot el with
      | None => Some false
      | Some sr => checkShadowRoot fuel sr
      end
  end.

(** An element is inside a root when it is one of the root's
    descendants, or inside the shadow root of one of them. *)
Inductive Inside (root : list Element) : Element -> Prop :=
| inside_here (e : Element) :
    In e (querySelectorAll_any root) -> Inside root e
| inside_shadow (host : Element) (sr : list Element) (e : Element) :
    In host (querySelectorAll_any root) ->
    shadowRoot host = Some sr ->
    Inside sr e ->
    Inside root e.

(** How deep shadow roots nest below an element, and below a root. *)
Fixpoint shadowDepth (e : Element) : nat :=
  match e with
  | mkElement _ _ _ _ _ ch sr =>
      Nat.max (list_max (map shadowDepth ch))
        match sr with
        | Some l => S (list_max (map shadowDepth l))
        | None => 0
        end
  end.

Definition rootDepth (root : list Element) : nat :=
  list_max (map shadowDepth root).

End Dom.

(** A page as WaitForLoadingComplete meets it: under the shadow root of
    [home-assistant], a view whose card keeps a spinner in its own
    shadow root. *)
Module DomScenarios.
Import Dom.

Definition spinner : Element :=
  mkElement "ha-circular-progress" [] ["indeterminate"] "inline-block"
    "visible" [] None.

Definition hiddenSpinner : Element :=
  mkElement "ha-circular-progress" [] [] "none" "visible" [] None.

Definition card (content : Element) : Element :=
  mkElement "hui-card" [] [] "block" "visible" []
    (Some [mkElement "div" ["content"] [] "block" "visible" [content] None]).

Definition view (content : Element) : Element :=
  mkElement "hui-view" [] [] "block" "visible" [card content] None.

Definition homeAssistant (content : Element) : Element :=
  mkElement "home-assistant" [] [] "block" "visible" []
    (Some [mkElement "home-assistant-main" [] [] "block" "visible" []
             (Some [view content])]).

End DomScenarios.

(* ------------------------------------------------------------------ *)
(** ** lib/scheduler/params-builder.ts *)

Module ParamsBuilder.

(** A property that can be missing ([undefined]), [null] or present. *)
Inductive Optional (A : Type) : Type :=
| Undefined
| Null
| Value (a : A).

Arguments Undefined {A}.
Arguments Null {A}.
Arguments Value {A} a.

(** [x ?? d] *)
Definition orElse {A : Type} (x : Optional A) (d : A) : A :=
  match x with Value a => a | _ => d end.

(** [x ?? undefined] *)
Definition orUndefined {A : Type} (x : Optional A) : Optional A :=
  match x with Value a => Value a | _ => Undefined end.

Module Viewport.
Record t : Type := { width : Z; height : Z }.
End Viewport.

Module CropRegion.
Record t : Type := { enabled : bool; x : Z; y : Z; width : Z; height : Z }.
End CropRegion.

Module DitheringConfig.
Record t : Type := {
  enabled : bool;
  method : string;
  palette : string;
  gammaCorrection : bool;
  blackLevel : Z;
  whiteLevel : Z;
  normalize : bool;
  saturationBoost : bool
}.
End DitheringConfig.

(** The fields of [Schedule] that [buildParams] reads.  [Num] is the
    type of JavaScript numbers that are not known to be integers (the
    zoom factor); [buildParams] only passes them on.  [target] holds the
    three fields that [resolveScreenshotTarget] reads. *)
Module Schedule.
Record t (Num : Type) : Type := {
  target : ScreenshotTarget.Schedule;
  format : Optional string;
  viewport : Optional Viewport.t;
  crop : Optional CropRegion.t;
  dithering : Optional DitheringConfig.t;
  wait : Optional Z;
  zoom : Optional Num;
  invert : Optional bool;
  dark : Optional bool;
  rotate : Optional Z;
  lang : Optional string;
  theme : Optional string
}.
Arguments target {Num} t.
Arguments format {Num} t.
Arguments viewport {Num} t.
Arguments crop {Num} t.
Arguments dithering {Num} t.
Arguments wait {Num} t.
Arguments zoom {Num} t.
Arguments invert {Num} t.
Arguments dark {Num} t.
Arguments rotate {Num} t.
Arguments lang {Num} t.
Arguments theme {Num} t.
End Schedule.

Module ScreenshotParams.
Record t (Num : Type) : Type := {
  pagePath : string;
  targetUrl : option string;
  format : string;
  viewport : Viewport.t;
  crop : Optional CropRegion.t;
  dithering : Optional DitheringConfig.t;
  extraWait : Optional Z;
  zoom : Num;
  invert : bool;
  dark : bool;
  rotate : Optional Z;
  lang : Optional string;
  theme : Optional string
}.
Arguments pagePath {Num} t.
Arguments targetUrl {Num} t.
Arguments format {Num} t.
Arguments viewport {Num} t.
Arguments crop {Num} t.
Arguments dithering {Num} t.
Arguments extraWait {Num} t.
Arguments zoom {Num} t.
Arguments invert {Num} t.
Arguments dark {Num} t.
Arguments rotate {Num} t.
Arguments lang {Num} t.
Arguments theme {Num} t.
End ScreenshotParams.

Section BuildParams.

Variable Num : Type.
(** the number 1 *)
Variable one : Num.

(** [DEFAULTS]; [extraWait] is [undefined]. *)
Definition DEFAULTS_viewport : Viewport.t :=
  {| Viewport.width := 758; Viewport.height := 1024 |}.
Definition DEFAULTS_invert : bool := false.
Definition DEFAULTS_zoom : Num := one.
Definition DEFAULTS_format : string := "png".
Definition DEFAULTS_dark : bool := false.

Definition buildParams (schedule : Schedule.t Num) : ScreenshotParams.t Num :=
  let target :=
    ScreenshotTarget.resolveScreenshotTarget (Schedule.target schedule) in
  {| ScreenshotParams.pagePath := ScreenshotTarget.path target;
     ScreenshotParams.targetUrl := ScreenshotTarget.fullUrl target;
     ScreenshotParams.format :=
       match Schedule.format schedule with
       | Value EmptyString => DEFAULTS_format
       | Value f => f
       | _ => DEFAULTS_format
       end;
     ScreenshotParams.viewport :=
       orElse (Schedule.viewport schedule) DEFAULTS_viewport;
     ScreenshotParams.crop :=
       match Schedule.crop schedule with
       | Value c => if CropRegion.enabled c then Value c else Null
       | _ => Null
       end;
     ScreenshotParams.dithering :=
       match Schedule.dithering schedule with
       | Value d => if DitheringConfig.enabled d then Value d else Undefined
       | _ => Undefined
       end;
     ScreenshotParams.extraWait := orUndefined (Schedule.wait schedule);
     ScreenshotParams.zoom := orElse (Schedule.zoom schedule) DEFAULTS_zoom;
     ScreenshotParams.invert :=
       orElse (Schedule.invert schedule) DEFAULTS_invert;
     ScreenshotParams.dark := orElse (Schedule.dark schedule) DEFAULTS_dark;
     ScreenshotParams.rotate := orUndefined (Schedule.rotate schedule);
     ScreenshotParams.lang := orUndefined (Schedule.lang schedule);
     ScreenshotParams.theme := orUndefined (Schedule.theme schedule) |}.

End BuildParams.

Arguments buildParams {Num} one schedule.

End ParamsBuilder.

(* ------------------------------------------------------------------ *)
(** ** ui.ts: the dashboards offered by the configuration page *)

Module Dashboards.

Record DashboardInfo : Type := {
  url_path : string;
  title : option string;
  mode : option string
}.

(** The paths the list starts from. *)
Definition defaultDashboards : list string :=
  ["/lovelace/0"; "/home"; "/map"; "/energy"; "/history"; "/logbook";
   "/config"].

(** The four paths pushed for a dashboard. *)
Definition variants (d : DashboardInfo) : list string :=
  ["/lovelace/" ++ url_path d;
   "/" ++ url_path d;
   "/" ++ url_path d ++ "/0";
   "/lovelace/" ++ url_path d ++ "/0"].

(** The body of [dashboardsResult.forEach]. *)
Definition pushDashboard (dashboards : list string) (d : DashboardInfo)
  : list string :=
  if String.eqb (url_path d) "" then dashboards
  else (dashboards ++ variants d)%list.

(** [[...new Set(dashboards)]]: the first occurrence of each path, in
    order. *)
Definition addToSet (set : list string) (value : string) : list string :=
  if existsb (String.eqb value) set then set else (set ++ [value])%list.

Definition unique (dashboards : list string) : list string :=
  fold_left addToSet dashboards [].

(** The [dashboards] that [fetchHomeAssistantData] returns once the
    connection is up; [dashboardsResult] is [None] when the request for
    the list of dashboards failed. *)
Definition dashboardList (dashboardsResult : option (list DashboardInfo))
  : list string :=
  match dashboardsResult with
  | Some result => unique (fold_left pushDashboard result defaultDashboards)
  | None => defaultDashboards
  end.

End Dashboards.

(* ------------------------------------------------------------------ *)
(** ** scripts/release.js *)

Module Release.
Import Js.

(** *** Strings *)

(** Strings are read as sequences of ASCII characters; the functions
    below that depend on the character set ([trim], [toUpperCase], [\s])
    answer [None] for a string with a character outside ASCII. *)
Definition isAsciiChar (c : ascii) : bool := (nat_of_ascii c <? 128)%nat.

Fixpoint isAscii (s : string) : bool :=
  match s with
  | EmptyString => true
  | String c r => isAsciiChar c && isAscii r
  end.

Definition LF : ascii := ascii_of_nat 10.
Definition CR : ascii := ascii_of_nat 13.

(** White space and line terminators below 128. *)
Definition isWhiteSpace (c : ascii) : bool :=
  let n := nat_of_ascii c in
  ((9 <=? n) && (n <=? 13) || (n =? 32))%nat.

Definition toLowerChar (c : ascii) : ascii :=
  let n := nat_of_ascii c in
  if ((65 <=? n) && (n <=? 90))%nat then ascii_of_nat (n + 32) else c.

Definition toUpperChar (c : ascii) : ascii :=
  let n := nat_of_ascii c in
  if ((97 <=? n) && (n <=? 122))%nat then ascii_of_nat (n - 32) else c.


(** [s.split(sep)] for a separator of one character. *)
Fixpoint split (sep : ascii) (s : string) : list string :=
  match s with
  | EmptyString => [EmptyString]
  | String c r =>
      if Ascii.eqb c sep then EmptyString :: split sep r
      else
        match split sep r with
        | [] => [String c EmptyString]
        | h :: t => String c h :: t
        end
  end.

(** Whether [c] occurs in [s]. *)
Fixpoint hasChar (c : ascii) (s : string) : bool :=
  match s with
  | EmptyString => false
  | String x r => Ascii.eqb x c || hasChar c r
  end.

(** [l.join(sep)] *)
Fixpoint join (sep : string) (l : list string) : string :=
  match l with
  | [] => EmptyString
  | [x] => x
  | x :: rest => x ++ sep ++ join sep rest
  end.

Fixpoint dropWhile (f : ascii -> bool) (s : string) : string :=
  match s with
  | EmptyString => EmptyString
  | String c r => if f c then dropWhile f r else s
  end.

(** *** bumpVersion *)

(** The numbers [bumpVersion] computes with: [NaN] and the integers
    that a double holds exactly. *)
Inductive JsNumber : Type :=
| NaN
| Int (n : N).

Definition MAX_SAFE_INTEGER : N := 9007199254740991.

(** [Number(s)] for a string of decimal digits (the empty string is 0)
    that denotes a safe integer; [None] for other strings, whatever
    JavaScript makes of them. *)
Definition toNumber (s : string) : option JsNumber :=
  match NilEmpty.uint_of_string s with
  | Some d =>
      let n := N.of_uint d in
      if (n <=? MAX_SAFE_INTEGER)%N then Some (Int n) else None
  | None => None
  end.

(** An element of the destructured array: missing ([undefined]) or the
    number made of the part. *)
Inductive Part : Type :=
| Missing
| Parsed (x : JsNumber).

(** [x + 1]; [undefined + 1] is [NaN]. *)
Definition plusOne (p : Part) : JsNumber :=
  match p with
  | Missing => NaN
  | Parsed NaN => NaN
  | Parsed (Int n) => Int (n + 1)
  end.

Definition showNumber (x : JsNumber) : string :=
  match x with
  | NaN => "NaN"
  | Int n => NilEmpty.string_of_uint (N.to_uint n)
  end.

(** A value inside a template literal. *)
Definition showPart (p : Part) : string :=
  match p with
  | Missing => "undefined"
  | Parsed x => showNumber x
  end.

(** The i-th element of [version.split('.').map(Number)]. *)
Definition partAt (parts : list string) (i : nat) : option Part :=
  match nth_error parts i with
  | None => Some Missing
  | Some s => option_map Parsed (toNumber s)
  end.

(** [None]: a part that the result depends on is outside the strings
    [toNumber] covers. *)
Definition bumpVersion (version type : string) : option (Completion string) :=
  let parts := split "." version in
  if String.eqb type "major" then
    match partAt parts 0 with
    | Some major => Some (Returned (showNumber (plusOne major) ++ ".0.0"))
    | None => None
    end
  else if String.eqb type "minor" then
    match partAt parts 0, partAt parts 1 with
    | Some major, Some minor =>
        Some (Returned (showPart major ++ "." ++ showNumber (plusOne minor)
                        ++ ".0"))
    | _, _ => None
    end
  else if String.eqb type "patch" then
    match partAt parts 0, partAt parts 1, partAt parts 2 with
    | Some major, Some minor, Some patch =>
        Some (Returned (showPart major ++ "." ++ showPart minor ++ "."
                        ++ showNumber (plusOne patch)))
    | _, _, _ => None
    end
  else
    Some (Threw (Error ("Invalid bump type: " ++ type
                        ++ ". Use patch, minor, or major"))).

(** The version string of three numbers. *)
Definition versionString (major minor patch : N) : string :=
  showNumber (Int major) ++ "." ++ showNumber (Int minor) ++ "."
  ++ showNumber (Int patch).

(** *** cleanCommitMessage *)

(** The pattern
    [/^(feat|fix|change|refactor|update|add|improve)(\([^)]+\))?:\s*/i],
    piece by piece; each piece answers what is left of the string after
    it matched. *)
Definition prefixWords : list string :=
  ["feat"; "fix"; "change"; "refactor"; "update"; "add"; "improve"].

(** A word, letters compared without regard to case. *)
Fixpoint matchWord (word s : string) : option string :=
  match word with
  | EmptyString => Some s
  | String w word' =>
      match s with
      | String c s' =>
          if Ascii.eqb (toLowerChar c) (toLowerChar w)
          then matchWord word' s'
          else None
      | EmptyString => None
      end
  end.

(** [\([^)]+\)] *)
Definition matchScope (s : string) : option string :=
  match s with
  | String "(" r =>
      let (inner, rest) := Url.span (fun c => negb (Ascii.eqb c ")")) r in
      match inner, rest with
      | String _ _, String ")" rest' => Some rest'
      | _, _ => None
      end
  | _ => None
  end.

(** [:\s*] *)
Definition matchColon (s : string) : option string :=
  match s with
  | String ":" r => Some (dropWhile isWhiteSpace r)
  | _ => None
  end.

(** [(\([^)]+\))?:\s*]: with the scope first, without it if that fails. *)
Definition matchTail (s : string) : option string :=
  match matchScope s with
  | Some r =>
      match matchColon r with
      | Some rest => Some rest
      | None => matchColon s
      end
  | None => matchColon s
  end.

(** The alternatives in order, the next one tried when the rest of the
    pattern fails after a word. *)
Fixpoint matchPrefix (words : list string) (s : string) : option string :=
  match words with
  | [] => None
  | word :: others =>
      match matchWord word s with
      | Some r =>
          match matchTail r with
          | Some rest => Some rest
          | None => matchPrefix others s
          end
      | None => matchPrefix others s
      end
  end.

Definition removePrefix (message : string) : string :=
  match matchPrefix prefixWords message with
  | Some rest => rest
  | None => message
  end.

(** [.replace(/^./, (c) => c.toUpperCase())]; [.] matches no line
    terminator. *)
Definition capitalize (s : string) : string :=
  match s with
  | EmptyString => EmptyString
  | String c r =>
      if Ascii.eqb c LF || Ascii.eqb c CR then s
      else String (toUpperChar c) r
  end.

(** [.replace(/\.$/, '')] *)
Fixpoint dropTrailingPeriod (s : string) : string :=
  match s with
  | EmptyString => EmptyString
  | String c EmptyString => if Ascii.eqb c "." then EmptyString else s
  | String c r => String c (dropTrailingPeriod r)
  end.

Definition cleanCommitMessage (message : string) : option string :=
  if isAscii message
  then Some (dropTrailingPeriod (capitalize (removePrefix message)))
  else None.

(** *** getCommitsSinceLastTag *)

Record Categories : Type := {
  added : list string;
  changed : list string;
  fixed : list string;
  other : list string
}.

Definition noCategories : Categories :=
  {| added := []; changed := []; fixed := []; other := [] |}.













(** *** formatChangelogEntries *)

Definition bullets (entries : list string) : string :=
  join (String LF "") (map (fun c => "- " ++ c) entries).

Definition heading (title : string) : string :=
  "### " ++ title ++ String LF (String LF "").

Definition section (title : string) (entries : list string) : string :=
  heading title ++ bullets entries.

Definition formatChangelogEntries (categories : Categories) : string :=
  let sections1 : list string :=
    match added categories with
    | [] => []
    | _ => [section "Added" (added categories)]
    end in
  let sections2 : list string :=
    match changed categories, other categories with
    | [], [] => sections1
    | _, _ =>
        let allChanged := (changed categories ++ other categories)%list in
        (sections1 ++ [section "Changed" allChanged])%list
    end in
  let sections3 : list string :=
    match fixed categories with
    | [] => sections2
    | _ => (sections2 ++ [section "Fixed" (fixed categories)])%list
    end in
  join (String LF (String LF "")) sections3.

(** *** updateChangelog *)

Definition GITHUB_REPO : string := "usetrmnl/trmnl-home-assistant".

(** [s.indexOf(needle)]; [None] is -1. *)
Fixpoint indexOf (needle s : string) : option nat :=
  if String.prefix needle s then Some 0%nat
  else
    match s with
    | EmptyString => None
    | String _ r => option_map S (indexOf needle r)
    end.

(** [s.lastIndexOf(needle)]; [None] is -1. *)
Fixpoint lastIndexOf (needle s : string) : option nat :=
  match s with
  | EmptyString => if String.prefix needle s then Some 0%nat else None
  | String _ r =>
      match lastIndexOf needle r with
      | Some i => Some (S i)
      | None => if String.prefix needle s then Some 0%nat else None
      end
  end.

(** [s.slice(0, n)] *)
Fixpoint sliceTo (n : nat) (s : string) : string :=
  match n, s with
  | O, _ => EmptyString
  | S _, EmptyString => EmptyString
  | S n', String c r => String c (sliceTo n' r)
  end.

(** [s.slice(n)] *)
Fixpoint sliceFrom (n : nat) (s : string) : string :=
  match n, s with
  | O, _ => s
  | S _, EmptyString => EmptyString
  | S n', String _ r => sliceFrom n' r
  end.

(** [needle] occurs in [s] at position [i]. *)
Definition occursAt (needle s : string) (i : nat) : Prop :=
  (i <= String.length s)%nat
  /\ String.prefix needle (sliceFrom i s) = true.

(** The heading of the new version's section, with its entries. *)
Definition newSection (newVersion today entries : string) : string :=
  "## [" ++ newVersion ++ "] - " ++ today
  ++ String LF (String LF "") ++ entries.

(** The comparison link of the new version. *)
Definition newLink (newVersion previousVersion : string) : string :=
  "[" ++ newVersion ++ "]: https://github.com/" ++ GITHUB_REPO
  ++ "/compare/v" ++ previousVersion ++ "...v" ++ newVersion.

Definition versionHeading : string := String LF "## [".
Definition linkLine : string := String LF "[".

(** [content] is what [readFileSync] returned and [today] the date part
    of [new Date().toISOString()].  The answer is what [writeFileSync]
    is given; [None]: the function returns without writing.  Positions
    count the characters of the Rocq string; the two needles are ASCII,
    so the pieces cut are those the script cuts. *)
Definition updateChangelog (content today : string)
    (newVersion previousVersion entries : string) : option string :=
  match entries with
  | EmptyString => None
  | String _ _ =>
      match indexOf versionHeading content with
      | None => None
      | Some headerEnd =>
          let header := sliceTo headerEnd content in
          let rest := sliceFrom headerEnd content in
          let link := newLink newVersion previousVersion in
          let updatedRest :=
            match lastIndexOf linkLine rest with
            | Some linksStart =>
                sliceTo (linksStart + 1) rest ++ link
                ++ sliceFrom linksStart rest
            | None => rest ++ String LF "" ++ link ++ String LF ""
            end in
          Some (header ++ String LF ""
                ++ newSection newVersion today entries ++ updatedRest)
      end
  end.

End Release.

(** A changelog of two versions before and after the release of
    0.6.3. *)
Module ReleaseScenarios.
Import Release.

Definition lines (l : list string) : string := join (String LF "") l.

Definition changelogBefore : string :=
  lines
    ["# Changelog";
     "";
     "## [0.6.2] - 2025-01-01";
     "";
     "### Fixed";
     "";
     "- Origins";
     "";
     "## [0.6.1] - 2024-12-01";
     "";
     "### Added";
     "";
     "- Crop modal";
     "";
     "[0.6.2]: https://github.com/usetrmnl/trmnl-home-assistant/compare/v0.6.1...v0.6.2";
     "[0.6.1]: https://github.com/usetrmnl/trmnl-home-assistant/compare/v0.6.0...v0.6.1";
     ""].

Definition entriesOfRelease : string :=
  lines ["### Fixed"; ""; "- Ports"].

Definition changelogAfter : string :=
  lines
    ["# Changelog";
     "";
     "## [0.6.3] - 2025-02-01";
     "";
     "### Fixed";
     "";
     "- Ports";
     "## [0.6.2] - 2025-01-01";
     "";
     "### Fixed";
     "";
     "- Origins";
     "";
     "## [0.6.1] - 2024-12-01";
     "";
     "### Added";
     "";
     "- Crop modal";
     "";
     "[0.6.2]: https://github.com/usetrmnl/trmnl-home-assistant/compare/v0.6.1...v0.6.2";
     "[0.6.3]: https://github.com/usetrmnl/trmnl-home-assistant/compare/v0.6.2...v0.6.3";
     "[0.6.1]: https://github.com/usetrmnl/trmnl-home-assistant/compare/v0.6.0...v0.6.1";
     ""].

End ReleaseScenarios.

(* ------------------------------------------------------------------ *)
(** ** Form parsing helpers (html/js, the schedule form)

    [parseIntOrDefault] reads a text input of the schedule form. *)

Module FormParsing.

(** What [parseInt] returns here: [NaN] or an integer that a double
    holds exactly. *)
Inductive ParsedInt : Type :=
| NotANumber
| Integer (z : Z).

(** [value.trim() === ''] for a string of ASCII characters. *)
Definition isBlank (s : string) : bool :=
  match Release.dropWhile Release.isWhiteSpace s with
  | EmptyString => true
  | String _ _ => false
  end.

(** [parseInt(s, 10)]: leading white space is skipped, one sign is read,
    then the longest run of decimal digits; what follows the digits is
    ignored.  [None] for the strings left out: a character outside ASCII
    (it may be white space), digits beyond the safe integers, and a
    negative zero. *)
Definition parseInt10 (s : string) : option ParsedInt :=
  if negb (Release.isAscii s) then None
  else
    let s1 := Release.dropWhile Release.isWhiteSpace s in
    let (negative, s2) :=
      match s1 with
      | String "-" r => (true, r)
      | String "+" r => (false, r)
      | _ => (false, s1)
      end in
    let (digits, _) := Url.span Url.is_digit s2 in
    match digits with
    | EmptyString => Some NotANumber
    | String _ _ =>
        match NilEmpty.uint_of_string digits with
        | Some d =>
            let n := N.of_uint d in
            if (Release.MAX_SAFE_INTEGER <? n)%N then None
            else if negative then
              if (n =? 0)%N then None else Some (Integer (- Z.of_N n))
            else Some (Integer (Z.of_N n))
        | None => None
        end
    end.

(** [value] is [None] for [undefined]; the default is one of the
    integers the form passes. *)
Definition parseIntOrDefault (value : option string) (defaultValue : Z)
  : option Z :=
  match value with
  | None => Some defaultValue
  | Some EmptyString => Some defaultValue
  | Some v =>
      if negb (Release.isAscii v) then None
      else if isBlank v then Some defaultValue
      else
        match parseInt10 v with
        | Some NotANumber => Some defaultValue
        | Some (Integer z) => Some z
        | None => None
        end
  end.


(** Whether [s] begins with a character that [f] accepts. *)
Definition beginsWith (f : ascii -> bool) (s : string) : bool :=
  match s with
  | EmptyString => false
  | String c _ => f c
  end.

Definition isSign (c : ascii) : bool :=
  Ascii.eqb c "-" || Ascii.eqb c "+".


End FormParsing.

(* ------------------------------------------------------------------ *)
(** ** Properties of NavigateToPage *)

Module NavigationFacts.
Import Js Navigation.
Local Open Scope list_scope.

Lemma newCalls_app (p p' : Page) (l : list PageCall) :
  calls p' = calls p ++ l -> newCalls p p' = l.
Proof.
  intros H. unfold newCalls. rewrite H.
  rewrite skipn_app, skipn_all, Nat.sub_diag. reflexivity.
Qed.

Lemma count_app (f : PageCall -> bool) (p p' : Page) (l : list PageCall) :
  calls p' = calls p ++ l ->
  count f p' = (count f p + List.length (filter f l))%nat.
Proof.
  intros H. unfold count. rewrite H, filter_app, length_app. reflexivity.
Qed.

Lemma removeScript_head (i : nat) (s : AuthStorage) (l : list (nat * AuthStorage)) :
  removeScript i ((i, s) :: l) = l.
Proof. simpl. rewrite Nat.eqb_refl. reflexivity. Qed.

(** Unfolds the page primitives and splits on everything the
    environment decides. *)
Ltac page_ops :=
  unfold firstNavigationLoad, removeIfRegistered, page_goto,
    page_evaluateOnNewDocument, page_removeScriptToEvaluateOnNewDocument,
    page_evaluate, logCall in *; simpl in *.

Ltac split_env :=
  repeat match goal with
    | |- context [match gotoOutcome ?b ?u with _ => _ end] =>
        destruct (gotoOutcome b u) eqn:?; simpl
    | |- context [if negb (ok ?r) then _ else _] =>
        destruct (ok r) eqn:?; simpl
    | |- context [match evaluateOnNewDocumentFails ?b with _ => _ end] =>
        destruct (evaluateOnNewDocumentFails b) eqn:?; simpl
    | |- context [match evaluateFails ?b with _ => _ end] =>
        destruct (evaluateFails b) eqn:?; simpl
    end.

Section Facts.

Variables (DEFAULT_WAIT_TIME COLD_START_EXTRA_WAIT : Z) (isAddOn : bool).
Variable URL_toString : string -> string -> option string.
Variable browser : Browser.
Variable self : NavigateToPage.

(** The load of a first navigation: one [goto], then the removal of
    the hook when there is one, whatever [goto] answered. *)
Lemma firstNavigationLoad_calls pageUrl evaluateId p :
  calls (snd (firstNavigationLoad DEFAULT_WAIT_TIME COLD_START_EXTRA_WAIT
                isAddOn browser pageUrl evaluateId p))
  = calls p ++ CallGoto pageUrl ::
      match evaluateId with
      | Some i => [CallRemoveScriptToEvaluateOnNewDocument i]
      | None => []
      end.
Proof.
  page_ops. split_env; destruct evaluateId; simpl;
    rewrite <- ?app_assoc; reflexivity.
Qed.

Lemma firstNavigationLoad_scripts pageUrl evaluateId p :
  newDocumentScripts
    (snd (firstNavigationLoad DEFAULT_WAIT_TIME COLD_START_EXTRA_WAIT
            isAddOn browser pageUrl evaluateId p))
  = match evaluateId with
    | Some i => removeScript i (newDocumentScripts p)
    | None => newDocumentScripts p
    end.
Proof.
  page_ops. split_env; destruct evaluateId; reflexivity.
Qed.

(** What the load answers, by what [goto] answered. *)
Lemma firstNavigationLoad_result pageUrl evaluateId p :
  fst (firstNavigationLoad DEFAULT_WAIT_TIME COLD_START_EXTRA_WAIT
         isAddOn browser pageUrl evaluateId p)
  = match gotoOutcome browser pageUrl with
    | GotoThrows message =>
        Threw (CannotOpenPageError 0 pageUrl (Some message))
    | GotoNull => Threw (CannotOpenPageError 0 pageUrl None)
    | GotoResponse response =>
        if ok response then
          Returned {| waitTime := DEFAULT_WAIT_TIME
                        + (if isAddOn then COLD_START_EXTRA_WAIT else 0) |}
        else Threw (CannotOpenPageError (status response) pageUrl None)
    end.
Proof.
  page_ops. split_env; reflexivity.
Qed.

(** The calls of a first navigation, case by case. *)
Lemma firstNavigation_calls pagePath targetUrl p :
  calls (snd (firstNavigation DEFAULT_WAIT_TIME COLD_START_EXTRA_WAIT isAddOn
                URL_toString browser self pagePath targetUrl p))
  = calls p ++
      match resolvePageUrl URL_toString self pagePath targetUrl with
      | None => []
      | Some pageUrl =>
          if shouldInjectAuth self pageUrl then
            CallEvaluateOnNewDocument (authStorage self) ::
              match evaluateOnNewDocumentFails browser with
              | Some _ => []
              | None =>
                  [CallGoto pageUrl;
                   CallRemoveScriptToEvaluateOnNewDocument (nextIdentifier p)]
              end
          else [CallGoto pageUrl]
      end.
Proof.
  unfold firstNavigation.
  destruct (resolvePageUrl _ _ _ _) as [pageUrl|]; simpl.
  2: now rewrite app_nil_r.
  destruct (shouldInjectAuth self pageUrl).
  - unfold page_evaluateOnNewDocument.
    destruct (evaluateOnNewDocumentFails browser); simpl; [reflexivity|].
    rewrite firstNavigationLoad_calls. simpl.
    rewrite <- app_assoc. reflexivity.
  - rewrite firstNavigationLoad_calls. reflexivity.
Qed.

(** The calls of a subsequent navigation, case by case. *)
Lemma subsequentNavigation_calls pagePath targetUrl p :
  calls (snd (subsequentNavigation DEFAULT_WAIT_TIME URL_toString browser self
                pagePath targetUrl p))
  = calls p ++
      if match truthy targetUrl with Some _ => true | None => false end
         || negb (startsWith (url p) (homeAssistantUrl self))
      then
        match resolvePageUrl URL_toString self pagePath targetUrl with
        | None => []
        | Some pageUrl => [CallGoto pageUrl]
        end
      else
        match URL_toString pagePath (homeAssistantUrl self) with
        | None => []
        | Some _ => [CallEvaluate pagePath]
        end.
Proof.
  unfold subsequentNavigation.
  destruct (_ || _).
  - destruct (resolvePageUrl _ _ _ _) as [pageUrl|]; simpl.
    2: now rewrite app_nil_r.
    page_ops. split_env; reflexivity.
  - destruct (URL_toString _ _); simpl.
    2: now rewrite app_nil_r.
    page_ops. split_env; reflexivity.
Qed.

(** A subsequent navigation leaves the registered scripts alone. *)
Lemma subsequentNavigation_scripts pagePath targetUrl p :
  newDocumentScripts (snd (subsequentNavigation DEFAULT_WAIT_TIME URL_toString browser self
                pagePath targetUrl p))
  = newDocumentScripts p.
Proof.
  unfold subsequentNavigation.
  destruct (_ || _).
  - destruct (resolvePageUrl _ _ _ _) as [pageUrl|]; simpl; [|reflexivity].
    page_ops. split_env; reflexivity.
  - destruct (URL_toString _ _); simpl; [|reflexivity].
    page_ops. split_env; reflexivity.
Qed.

End Facts.

Section Results.

Variables (DEFAULT_WAIT_TIME COLD_START_EXTRA_WAIT : Z) (isAddOn : bool).
Variable URL_toString : string -> string -> option string.
Variable browser : Browser.
Variable self : NavigateToPage.

(** A first navigation raises [CannotOpenPageError] only out of its
    [goto], with the status and URL of that attempt. *)
Lemma firstNavigation_result pagePath targetUrl p :
  fst (firstNavigation DEFAULT_WAIT_TIME COLD_START_EXTRA_WAIT isAddOn
         URL_toString browser self pagePath targetUrl p)
  = match resolvePageUrl URL_toString self pagePath targetUrl with
    | None => Threw (TypeError "Invalid URL")
    | Some pageUrl =>
        match (if shouldInjectAuth self pageUrl
               then evaluateOnNewDocumentFails browser else None) with
        | Some message => Threw (Error message)
        | None =>
            match gotoOutcome browser pageUrl with
            | GotoThrows message =>
                Threw (CannotOpenPageError 0 pageUrl (Some message))
            | GotoNull => Threw (CannotOpenPageError 0 pageUrl None)
            | GotoResponse response =>
                if ok response then
                  Returned {| waitTime := DEFAULT_WAIT_TIME
                                + (if isAddOn then COLD_START_EXTRA_WAIT else 0) |}
                else Threw (CannotOpenPageError (status response) pageUrl None)
            end
        end
    end.
Proof.
  unfold firstNavigation.
  destruct (resolvePageUrl _ _ _ _) as [pageUrl|]; [|reflexivity].
  destruct (shouldInjectAuth self pageUrl).
  - unfold page_evaluateOnNewDocument.
    destruct (evaluateOnNewDocumentFails browser); [reflexivity|].
    apply firstNavigationLoad_result.
  - apply firstNavigationLoad_result.
Qed.

Lemma subsequentNavigation_result pagePath targetUrl p :
  fst (subsequentNavigation DEFAULT_WAIT_TIME URL_toString browser self
         pagePath targetUrl p)
  = if match truthy targetUrl with Some _ => true | None => false end
       || negb (startsWith (url p) (homeAssistantUrl self))
    then
      match resolvePageUrl URL_toString self pagePath targetUrl with
      | None => Threw (TypeError "Invalid URL")
      | Some pageUrl =>
          match gotoOutcome browser pageUrl with
          | GotoThrows message =>
              Threw (CannotOpenPageError 0 pageUrl (Some message))
          | GotoNull => Threw (CannotOpenPageError 0 pageUrl None)
          | GotoResponse response =>
              if ok response
              then Returned {| waitTime := DEFAULT_WAIT_TIME |}
              else Threw (CannotOpenPageError (status response) pageUrl None)
          end
      end
    else
      match URL_toString pagePath (homeAssistantUrl self) with
      | None => Threw (TypeError "Invalid URL")
      | Some _ =>
          match evaluateFails browser with
          | Some message => Threw (Error message)
          | None => Returned {| waitTime := DEFAULT_WAIT_TIME |}
          end
      end.
Proof.
  unfold subsequentNavigation.
  destruct (_ || _).
  - destruct (resolvePageUrl _ _ _ _) as [pageUrl|]; [|reflexivity].
    page_ops. split_env; reflexivity.
  - destruct (URL_toString _ _); [|reflexivity].
    page_ops. split_env; reflexivity.
Qed.

Lemma firstNavigation_newCalls pagePath targetUrl p :
  newCalls p
    (snd (firstNavigation DEFAULT_WAIT_TIME COLD_START_EXTRA_WAIT isAddOn
            URL_toString browser self pagePath targetUrl p))
  = match resolvePageUrl URL_toString self pagePath targetUrl with
    | None => []
    | Some pageUrl =>
        if shouldInjectAuth self pageUrl then
          CallEvaluateOnNewDocument (authStorage self) ::
            match evaluateOnNewDocumentFails browser with
            | Some _ => []
            | None =>
                [CallGoto pageUrl;
                 CallRemoveScriptToEvaluateOnNewDocument (nextIdentifier p)]
            end
        else [CallGoto pageUrl]
    end.
Proof. apply newCalls_app, firstNavigation_calls. Qed.

Lemma subsequentNavigation_newCalls pagePath targetUrl p :
  newCalls p
    (snd (subsequentNavigation DEFAULT_WAIT_TIME URL_toString browser self
            pagePath targetUrl p))
  = if match truthy targetUrl with Some _ => true | None => false end
       || negb (startsWith (url p) (homeAssistantUrl self))
    then
      match resolvePageUrl URL_toString self pagePath targetUrl with
      | None => []
      | Some pageUrl => [CallGoto pageUrl]
      end
    else
      match URL_toString pagePath (homeAssistantUrl self) with
      | None => []
      | Some _ => [CallEvaluate pagePath]
      end.
Proof. apply newCalls_app, subsequentNavigation_calls. Qed.

End Results.

Import Scenarios.

(** The prefix test, for the record: a first navigation registers the
    hook exactly when the destination URL, as a string, starts with the
    configured URL. *)
Lemma firstNavigation_registers_iff_prefix :
  forall (D C : Z) (a : bool) (U : string -> string -> option string)
         (b : Browser) (self : NavigateToPage)
         (pagePath : string) (targetUrl : option string) (p : Page)
         (pageUrl : string),
    resolvePageUrl U self pagePath targetUrl = Some pageUrl ->
    List.length
      (filter isEvaluateOnNewDocument
         (newCalls p (snd (firstNavigation D C a U b self pagePath targetUrl p))))
    = if startsWith pageUrl (homeAssistantUrl self) then 1%nat else 0%nat.
Proof.
  intros D C a U b self pagePath targetUrl p pageUrl Hres.
  rewrite firstNavigation_newCalls, Hres.
  unfold shouldInjectAuth.
  destruct (startsWith pageUrl (homeAssistantUrl self)); simpl; [|reflexivity].
  destruct (evaluateOnNewDocumentFails b); reflexivity.
Qed.

(** C1, evaluated on the code.  The claim: on first navigation the
    auth-injection hook is registered exactly once if and only if the
    origin of the destination equals the configured origin, default ports
    (80 for http, 443 for https) counting as no port.  With the
    configured URL [http://homeassistant:80] and the path [/lovelace/0]
    (and likewise [https://ha.example.com:443]) the destination is on the
    configured origin, yet [#shouldInjectAuth] answers false and the
    navigation registers nothing: the only call is the [goto]. *)
Theorem firstNavigation_default_port_not_injected :
  forall (D C : Z) (a : bool),
    let nav := navigator "http://homeassistant:80" in
    let nav' := navigator "https://ha.example.com:443" in
    let after :=
      snd (call D C a Url.resolve mockBrowser nav "/lovelace/0" true None mockPage) in
    let after' :=
      snd (call D C a Url.resolve mockBrowser nav' "/lovelace/0" true None mockPage) in
    resolvePageUrl Url.resolve nav "/lovelace/0" None
      = Some "http://homeassistant/lovelace/0"
    /\ Url.same_origin "http://homeassistant/lovelace/0" (homeAssistantUrl nav) = true
    /\ shouldInjectAuth nav "http://homeassistant/lovelace/0" = false
    /\ count isEvaluateOnNewDocument after = 0%nat
    /\ calls after = [CallGoto "http://homeassistant/lovelace/0"]
    /\ Url.same_origin "https://ha.example.com/lovelace/0" (homeAssistantUrl nav') = true
    /\ count isEvaluateOnNewDocument after' = 0%nat
    /\ calls after' = [CallGoto "https://ha.example.com/lovelace/0"].
Proof.
  intros D C a. cbv zeta. repeat split; vm_compute; reflexivity.
Qed.

(** The other direction of the same prefix test: an explicit target on
    another host whose URL merely begins with the configured URL gets
    the hook registered, although its origin differs. *)
Lemma firstNavigation_other_host_injected :
  forall (D C : Z) (a : bool),
    let nav := navigator "http://homeassistant" in
    let target := "http://homeassistant.example.com/page" in
    let after :=
      snd (call D C a Url.resolve mockBrowser nav "/unused" true (Some target) mockPage) in
    Url.same_origin target (homeAssistantUrl nav) = false
    /\ count isEvaluateOnNewDocument after = 1%nat.
Proof.
  intros D C a. cbv zeta. split; vm_compute; reflexivity.
Qed.

(** C2.  For every first navigation in which the auth-injection hook was
    registered, the hook is removed exactly once, after the [goto], on
    every exit path (whatever [goto] answers: a response that is ok, one
    that is not, no response, or a transport error); the scripts
    registered on the page are afterwards what they were before, so the
    hook does not persist into a later navigation. *)
Theorem firstNavigation_removes_hook :
  forall (D C : Z) (a : bool) (U : string -> string -> option string)
         (b : Browser) (self : NavigateToPage)
         (pagePath : string) (targetUrl : option string) (p : Page)
         (pageUrl : string),
    resolvePageUrl U self pagePath targetUrl = Some pageUrl ->
    shouldInjectAuth self pageUrl = true ->
    evaluateOnNewDocumentFails b = None ->
    let after := snd (call D C a U b self pagePath true targetUrl p) in
    newCalls p after
      = [CallEvaluateOnNewDocument (authStorage self);
         CallGoto pageUrl;
         CallRemoveScriptToEvaluateOnNewDocument (nextIdentifier p)]
    /\ count isRemoveScript after = S (count isRemoveScript p)
    /\ newDocumentScripts after = newDocumentScripts p.
Proof.
  intros D C a U b self pagePath targetUrl p pageUrl Hres Hinj Hreg after.
  subst after. unfold call.
  pose proof (firstNavigation_calls D C a U b self pagePath targetUrl p) as Hcalls.
  rewrite Hres, Hinj, Hreg in Hcalls.
  split; [exact (newCalls_app _ _ _ Hcalls)|].
  split.
  - rewrite (count_app isRemoveScript _ _ _ Hcalls). simpl. lia.
  - unfold firstNavigation. rewrite Hres, Hinj.
    unfold page_evaluateOnNewDocument. rewrite Hreg.
    rewrite firstNavigationLoad_scripts. simpl.
    apply removeScript_head.
Qed.

(** A connection refused on the way to the configured instance: the
    hook is registered, the load fails, the hook is gone. *)
Lemma firstNavigation_removes_hook_witness :
  let nav := navigator "http://homeassistant:8123" in
  let pageUrl := "http://homeassistant:8123/lovelace/0" in
  let after :=
    snd (call 2000 5000 true Url.resolve refusedBrowser nav "/lovelace/0"
           true None mockPage) in
  (resolvePageUrl Url.resolve nav "/lovelace/0" None = Some pageUrl
   /\ shouldInjectAuth nav pageUrl = true
   /\ evaluateOnNewDocumentFails refusedBrowser = None)
  /\ newCalls mockPage after
      = [CallEvaluateOnNewDocument STUB_AUTH;
         CallGoto pageUrl;
         CallRemoveScriptToEvaluateOnNewDocument 1]
  /\ count isRemoveScript after = 1%nat
  /\ newDocumentScripts after = [].
Proof.
  split.
  - repeat split; reflexivity.
  - exact (firstNavigation_removes_hook 2000 5000 true Url.resolve
             refusedBrowser (navigator "http://homeassistant:8123")
             "/lovelace/0" None mockPage
             "http://homeassistant:8123/lovelace/0"
             eq_refl eq_refl eq_refl).
Defined.

(** A subsequent navigation never registers a hook. *)
Lemma subsequentNavigation_never_injects :
  forall (D : Z) (U : string -> string -> option string) (b : Browser)
         (self : NavigateToPage) (pagePath : string)
         (targetUrl : option string) (p : Page),
    let after := snd (subsequentNavigation D U b self pagePath targetUrl p) in
    filter isEvaluateOnNewDocument (newCalls p after) = []
    /\ newDocumentScripts after = newDocumentScripts p.
Proof.
  intros D U b self pagePath targetUrl p after. subst after. split.
  - rewrite subsequentNavigation_newCalls.
    destruct (_ || _).
    + destruct (resolvePageUrl _ _ _ _); reflexivity.
    + destruct (U _ _); reflexivity.
  - apply subsequentNavigation_scripts.
Qed.

(** The choice between the two kinds of subsequent navigation, as the
    code makes it: by the prefix test on the current document's URL. *)
Lemma subsequentNavigation_dispatch :
  forall (D : Z) (U : string -> string -> option string) (b : Browser)
         (self : NavigateToPage) (pagePath : string)
         (targetUrl : option string) (p : Page) (pageUrl : string),
    resolvePageUrl U self pagePath targetUrl = Some pageUrl ->
    let made :=
      newCalls p (snd (subsequentNavigation D U b self pagePath targetUrl p)) in
    (truthy targetUrl = None ->
     startsWith (url p) (homeAssistantUrl self) = true ->
     made = [CallEvaluate pagePath])
    /\ (truthy targetUrl <> None
        \/ startsWith (url p) (homeAssistantUrl self) = false ->
        made = [CallGoto pageUrl]).
Proof.
  intros D U b self pagePath targetUrl p pageUrl Hres made. subst made.
  rewrite subsequentNavigation_newCalls, Hres. split.
  - intros Ht Hon. rewrite Ht, Hon. simpl.
    unfold resolvePageUrl in Hres. rewrite Ht in Hres. rewrite Hres.
    reflexivity.
  - intros [Ht | Hoff].
    + destruct (truthy targetUrl); [reflexivity | congruence].
    + rewrite Hoff. simpl. rewrite orb_true_r. reflexivity.
Qed.

(** C3, evaluated on the code.  The claim: a subsequent navigation
    without explicit target, in a session whose current document is on
    the configured origin, is an in-app transition with zero full page
    loads.  With the configured URL [http://homeassistant:80], the
    session that the first navigation to [/lovelace/0] leaves behind is
    on [http://homeassistant/lovelace/0], which is on the configured
    origin; the next call, without explicit target, still issues one
    full page load and no in-app transition. *)
Theorem subsequentNavigation_default_port_reloads :
  forall (D C : Z) (a : bool),
    let nav := navigator "http://homeassistant:80" in
    let session :=
      snd (call D C a Url.resolve mockBrowser nav "/lovelace/0" true None mockPage) in
    let after :=
      snd (call D C a Url.resolve mockBrowser nav "/lovelace/1" false None session) in
    url session = "http://homeassistant/lovelace/0"
    /\ Url.same_origin (url session) (homeAssistantUrl nav) = true
    /\ newCalls session after = [CallGoto "http://homeassistant/lovelace/1"]
    /\ List.length (filter isGoto (newCalls session after)) = 1%nat
    /\ List.length (filter isEvaluate (newCalls session after)) = 0%nat.
Proof.
  intros D C a. cbv zeta. repeat split; vm_compute; reflexivity.
Qed.

(** C4.  Whenever a full page load is attempted and fails, [call]
    raises [CannotOpenPageError] with the resolved destination URL and
    with status 0 when [goto] threw, the response's status when a
    response came that is not ok; the error is raised only when a full
    page load was attempted, and the client-side path raises none. *)
Theorem call_raises_navigation_failure :
  forall (D C : Z) (a : bool) (U : string -> string -> option string)
         (b : Browser) (self : NavigateToPage)
         (pagePath : string) (isFirstNavigation : bool)
         (targetUrl : option string) (p : Page),
    let run := call D C a U b self pagePath isFirstNavigation targetUrl p in
    let made := newCalls p (snd run) in
    (forall pageUrl : string,
        In (CallGoto pageUrl) made ->
        resolvePageUrl U self pagePath targetUrl = Some pageUrl
        /\ (forall message : string,
               gotoOutcome b pageUrl = GotoThrows message ->
               fst run = Threw (CannotOpenPageError 0 pageUrl (Some message)))
        /\ (forall response : HTTPResponse,
               gotoOutcome b pageUrl = GotoResponse response ->
               ok response = false ->
               fst run
               = Threw (CannotOpenPageError (status response) pageUrl None)))
    /\ (forall (st : Z) (u : string) (m : option string),
           fst run = Threw (CannotOpenPageError st u m) ->
           In (CallGoto u) made)
    /\ (In (CallEvaluate pagePath) made ->
        forall (st : Z) (u : string) (m : option string),
          fst run <> Threw (CannotOpenPageError st u m)).
Proof.
  intros D C a U b self pagePath isFirstNavigation targetUrl p run made.
  subst made run. unfold call. destruct isFirstNavigation.
  - rewrite firstNavigation_newCalls, firstNavigation_result.
    destruct (resolvePageUrl U self pagePath targetUrl) as [pageUrl|].
    2: { split; [|split]; simpl; intros; try contradiction; discriminate. }
    destruct (shouldInjectAuth self pageUrl);
      [destruct (evaluateOnNewDocumentFails b)|].
    + split; [|split]; simpl; intros;
        repeat match goal with
          | H : _ \/ _ |- _ => destruct H
          | H : False |- _ => destruct H
          end; discriminate.
    + split; [|split].
      * intros u [Hu | [Hu | [Hu | []]]]; try discriminate.
        injection Hu as <-. split; [reflexivity|].
        split; intros ? Ho; rewrite Ho; [reflexivity|].
        intros ->. reflexivity.
      * intros st u m.
        destruct (gotoOutcome b pageUrl) as [msg| |r];
          [| |destruct (ok r)]; intros He; try discriminate;
          injection He as <- <- <-; simpl; auto.
      * intros [Hu | [Hu | [Hu | []]]]; discriminate.
    + split; [|split].
      * intros u [Hu | []].
        injection Hu as <-. split; [reflexivity|].
        split; intros ? Ho; rewrite Ho; [reflexivity|].
        intros ->. reflexivity.
      * intros st u m.
        destruct (gotoOutcome b pageUrl) as [msg| |r];
          [| |destruct (ok r)]; intros He; try discriminate;
          injection He as <- <- <-; simpl; auto.
      * intros [Hu | []]; discriminate.
  - rewrite subsequentNavigation_newCalls, subsequentNavigation_result.
    destruct (_ || _).
    + destruct (resolvePageUrl U self pagePath targetUrl) as [pageUrl|].
      2: { split; [|split]; simpl; intros; try contradiction; discriminate. }
      split; [|split].
      * intros u [Hu | []].
        injection Hu as <-. split; [reflexivity|].
        split; intros ? Ho; rewrite Ho; [reflexivity|].
        intros ->. reflexivity.
      * intros st u m.
        destruct (gotoOutcome b pageUrl) as [msg| |r];
          [| |destruct (ok r)]; intros He; try discriminate;
          injection He as <- <- <-; simpl; auto.
      * intros [Hu | []]; discriminate.
    + destruct (U pagePath (homeAssistantUrl self)).
      2: { split; [|split]; simpl; intros; try contradiction; discriminate. }
      split; [|split].
      * intros u [Hu | []]; discriminate.
      * intros st u m. destruct (evaluateFails b); discriminate.
      * intros _ st u m. destruct (evaluateFails b); discriminate.
Qed.

(** A 404 on an explicit target during a subsequent navigation, and a
    refused connection on a first one. *)
Lemma call_raises_navigation_failure_witness :
  let nav := navigator "http://homeassistant:8123" in
  let target := "http://other-server.com/page" in
  let run :=
    call 2000 5000 false Url.resolve notFoundBrowser nav "/unused" false
      (Some target) mockPage in
  In (CallGoto target) (newCalls mockPage (snd run))
  /\ gotoOutcome notFoundBrowser target
     = GotoResponse {| ok := false; status := 404; landedOn := target |}
  /\ fst run = Threw (CannotOpenPageError 404 target None).
Proof.
  cbv zeta.
  assert (Hin : In (CallGoto "http://other-server.com/page")
                  (newCalls mockPage
                     (snd (call 2000 5000 false Url.resolve notFoundBrowser
                             (navigator "http://homeassistant:8123") "/unused"
                             false (Some "http://other-server.com/page")
                             mockPage)))).
  { left. reflexivity. }
  split; [exact Hin|]. split; [reflexivity|].
  destruct (call_raises_navigation_failure 2000 5000 false Url.resolve
              notFoundBrowser (navigator "http://homeassistant:8123")
              "/unused" false (Some "http://other-server.com/page") mockPage)
    as [Hload _].
  destruct (Hload "http://other-server.com/page" Hin) as [_ [_ Hstatus]].
  exact (Hstatus {| ok := false; status := 404;
                    landedOn := "http://other-server.com/page" |}
           eq_refl eq_refl).
Defined.

End NavigationFacts.

(* ------------------------------------------------------------------ *)
(** ** Properties of resolveScreenshotTarget *)

Module ScreenshotTargetFacts.
Import ScreenshotTarget.

Lemma truthy_some (p : string) :
  p <> "" -> Js.truthy (Some p) = Some p.
Proof. destruct p; [congruence | reflexivity]. Qed.

(** C10.  For every schedule: in HA mode ([ha_mode] true or absent) the
    target has no [fullUrl] and its path is [dashboard_path], or
    [/lovelace/0] when [dashboard_path] is absent or empty; in generic
    mode ([ha_mode] false) the path is [/] and [fullUrl] is
    [target_url].  So a target in HA mode never has a [fullUrl]. *)
Theorem resolveScreenshotTarget_by_mode :
  forall schedule : Schedule,
    let target := resolveScreenshotTarget schedule in
    (ha_mode schedule = Some true \/ ha_mode schedule = None ->
     isHAMode target = true
     /\ fullUrl target = None
     /\ (forall p : string,
            dashboard_path schedule = Some p -> p <> "" -> path target = p)
     /\ (dashboard_path schedule = None \/ dashboard_path schedule = Some "" ->
         path target = "/lovelace/0"))
    /\ (ha_mode schedule = Some false ->
        isHAMode target = false
        /\ path target = "/"
        /\ fullUrl target = target_url schedule)
    /\ (isHAMode target = true -> fullUrl target = None).
Proof.
  intros [mode dash tgt] target. subst target.
  unfold resolveScreenshotTarget. simpl.
  split; [|split].
  - intros Hmode.
    assert (Hb : match mode with Some b => b | None => true end = true)
      by (destruct Hmode as [-> | ->]; reflexivity).
    rewrite Hb. simpl. repeat split.
    + intros p -> Hp. rewrite (truthy_some p Hp). reflexivity.
    + intros [-> | ->]; reflexivity.
  - intros ->. simpl. repeat split.
  - destruct (match mode with Some b => b | None => true end); simpl;
      [reflexivity | discriminate].
Qed.

(** The schedules of tests/unit/screenshot-target.test.ts. *)
Lemma resolveScreenshotTarget_by_mode_witness :
  (let ha :=
     {| ha_mode := Some true; dashboard_path := Some "/lovelace/home";
        target_url := Some "https://example.com" |} in
   path (resolveScreenshotTarget ha) = "/lovelace/home"
   /\ fullUrl (resolveScreenshotTarget ha) = None)
  /\ (let generic :=
        {| ha_mode := Some false; dashboard_path := Some "/lovelace/ignored";
           target_url := Some "https://google.com" |} in
      path (resolveScreenshotTarget generic) = "/"
      /\ fullUrl (resolveScreenshotTarget generic) = Some "https://google.com").
Proof.
  split; cbv zeta.
  - destruct (resolveScreenshotTarget_by_mode
                {| ha_mode := Some true; dashboard_path := Some "/lovelace/home";
                   target_url := Some "https://example.com" |})
      as [Hha _].
    destruct (Hha (or_introl eq_refl)) as [_ [Hfull [Hpath _]]].
    split; [|exact Hfull].
    apply Hpath; [reflexivity | discriminate].
  - destruct (resolveScreenshotTarget_by_mode
                {| ha_mode := Some false; dashboard_path := Some "/lovelace/ignored";
                   target_url := Some "https://google.com" |})
      as [_ [Hgeneric _]].
    destruct (Hgeneric eq_refl) as [_ [Hpath Hfull]].
    split; [exact Hpath | exact Hfull].
Defined.

End ScreenshotTargetFacts.

(* ------------------------------------------------------------------ *)
(** ** Properties of the readiness detectors *)

Module DetectorFacts.
Import Js Detectors Scenarios.
Local Open Scope list_scope.

(** *** Loops *)

Section Iterate.

Context {State Leave : Type}.
Variable step : State -> State + Leave.

(** The state in which the loop stops is one in which the body leaves. *)
Lemma iterate_stops (fuel : nat) :
  forall (s last : State) (r : Leave),
    iterate step fuel s = Some (last, r) -> step last = inr r.
Proof.
  induction fuel as [|fuel IH]; intros s last r H; simpl in H.
  - discriminate.
  - destruct (step s) as [s'|r'] eqn:Hstep.
    + exact (IH _ _ _ H).
    + injection H as <- <-. exact Hstep.
Qed.

(** What every round preserves holds when the loop stops. *)
Lemma iterate_invariant (Inv : State -> Prop) :
  (forall s s', Inv s -> step s = inl s' -> Inv s') ->
  forall (fuel : nat) (s last : State) (r : Leave),
    Inv s -> iterate step fuel s = Some (last, r) -> Inv last.
Proof.
  intros Hpres. induction fuel as [|fuel IH]; intros s last r Hs H; simpl in H.
  - discriminate.
  - destruct (step s) as [s'|r'] eqn:Hstep.
    + exact (IH _ _ _ (Hpres _ _ Hs Hstep) H).
    + injection H as <- <-. exact Hs.
Qed.

(** A loop whose rounds decrease a measure stops within that many
    rounds. *)
Lemma iterate_terminates (measure : State -> nat) :
  (forall s s', step s = inl s' -> (measure s' < measure s)%nat) ->
  forall (fuel : nat) (s : State),
    (measure s < fuel)%nat -> exists x, iterate step fuel s = Some x.
Proof.
  intros Hdec. induction fuel as [|fuel IH]; intros s Hlt.
  - lia.
  - simpl. destruct (step s) as [s'|r] eqn:Hstep.
    + apply IH. specialize (Hdec _ _ Hstep). lia.
    + eexists. reflexivity.
Qed.

End Iterate.

(** *** WaitForPageStable *)

Section PageStable.

Variable now : nat -> Z.
Variable evaluate : nat -> Completion StabilityMetrics.
Variable timeout : Z.

Lemma StableInv_init : StableInv evaluate stableInit.
Proof.
  unfold StableInv, stableInit; simpl.
  repeat split; intros; lia.
Qed.

Lemma metrics_eta (m : StabilityMetrics) :
  {| height := height m; contentHash := contentHash m |} = m.
Proof. destruct m; reflexivity. Qed.

Lemma StableInv_step (start : Z) (s s' : StableState) :
  StableInv evaluate s ->
  stableStep now evaluate timeout start s = inl s' ->
  StableInv evaluate s'.
Proof.
  intros (Hreads & Hchecks & Hprev & Hrun) Hstep.
  unfold stableStep in Hstep.
  destruct (now (stableReads s) - start <? timeout); [|discriminate].
  destruct (evaluate (stablePolls s)) as [m|e] eqn:Hm; [|discriminate].
  destruct ((height m =? lastHeight s) && (contentHash m =? lastContent s))
    eqn:Hsame.
  - destruct (stableChecks s + 1 >=? requiredStableChecks); [discriminate|].
    injection Hstep as <-. unfold StableInv.
    cbn [stableReads stablePolls stableChecks lastHeight lastContent comparedWith].
    apply andb_true_iff in Hsame as [Hh Hc].
    apply Z.eqb_eq in Hh, Hc.
    repeat split; try lia.
    + rewrite Hm, metrics_eta. reflexivity.
    + intros k Hk Hge.
      destruct (Nat.eq_dec k (stablePolls s)) as [->|Hne].
      * exists m, {| height := lastHeight s; contentHash := lastContent s |}.
        cbn [height contentHash]. auto.
      * apply Hrun; lia.
  - injection Hstep as <-. unfold StableInv.
    cbn [stableReads stablePolls stableChecks lastHeight lastContent comparedWith].
    repeat split; try lia.
    rewrite Hm, metrics_eta. reflexivity.
Qed.

End PageStable.

(** A round of WaitForPageStable leaves with an exception only when its
    [page.evaluate] rejected, and then with that exception. *)
Lemma stableStep_throws (now : nat -> Z)
    (evaluate : nat -> Completion StabilityMetrics) (timeout start : Z)
    (s : StableState) (o : Outcome Z) (e : Exception) :
  stableStep now evaluate timeout start s = inr o ->
  result o = Threw e ->
  evaluate (stablePolls s) = Threw e.
Proof.
  unfold stableStep. intros Hstep Hres.
  destruct (now (stableReads s) - start <? timeout).
  - destruct (evaluate (stablePolls s)) as [m|e'].
    + destruct (_ && _); [destruct (_ >=? _)|]; try discriminate.
      injection Hstep as <-. discriminate.
    + injection Hstep as <-. simpl in Hres. injection Hres as ->. reflexivity.
  - injection Hstep as <-. discriminate.
Qed.

Lemma stableStep_reads (now : nat -> Z)
    (evaluate : nat -> Completion StabilityMetrics) (timeout start : Z)
    (s s' : StableState) :
  stableStep now evaluate timeout start s = inl s' ->
  now (stableReads s) - start < timeout
  /\ stableReads s' = S (stableReads s).
Proof.
  unfold stableStep. intros Hstep.
  destruct (now (stableReads s) - start <? timeout) eqn:Hguard; [|discriminate].
  apply Z.ltb_lt in Hguard. split; [exact Hguard|].
  destruct (evaluate (stablePolls s)) as [m|e]; [|discriminate].
  destruct (_ && _); [destruct (_ >=? _)|]; try discriminate;
    injection Hstep as <-; reflexivity.
Qed.

Lemma metrics_ext (m m' : StabilityMetrics) :
  height m = height m' -> contentHash m = contentHash m' -> m = m'.
Proof. destruct m, m'; cbn. intros -> ->. reflexivity. Qed.

(** C6, as the code has it.  WaitForPageStable declares the page stable
    only after 3 consecutive checks that pass, where a check compares a
    sample with the sample before it and the first sample with the
    initial 0 and 0.  So when it declares the page stable at least three
    samples were taken, the last three have the same height and content
    size, and so has the sample before them; when there is none, the
    three are 0 and 0.  A sample that differs in either metric from the
    values it is compared with resets the counter of stable checks to 0;
    and when the timeout is reached the call returns the elapsed time
    and does not raise: a run whose clock reaches the deadline ends, and
    it ends with a number unless a [page.evaluate] rejected before the
    deadline. *)
Theorem WaitForPageStable_stable_after_three_samples :
  forall (now : nat -> Z) (evaluate : nat -> Completion StabilityMetrics)
         (timeout : Z),
    (forall (fuel : nat) (s : StableState) (o : Outcome Z)
            (actualWait checks : Z),
        WaitForPageStable_call now evaluate timeout fuel = Some (s, o) ->
        In (LogPageStable actualWait checks) (logged o) ->
        exists (k : nat) (m : StabilityMetrics),
          stablePolls s = S (S k)
          /\ evaluate k = Returned m
          /\ evaluate (S k) = Returned m
          /\ evaluate (S (S k)) = Returned m
          /\ match k with
             | O => m = {| height := 0; contentHash := 0 |}
             | S j => evaluate j = Returned m
             end
          /\ 3 <= checks
          /\ result o = Returned actualWait)
    /\ (forall (start : Z) (s : StableState) (m : StabilityMetrics),
          now (stableReads s) - start < timeout ->
          evaluate (stablePolls s) = Returned m ->
          height m <> lastHeight s \/ contentHash m <> lastContent s ->
          exists s' : StableState,
            stableStep now evaluate timeout start s = inl s'
            /\ stableChecks s' = 0)
    /\ (forall (fuel : nat) (s : StableState) (o : Outcome Z) (actualWait : Z),
          WaitForPageStable_call now evaluate timeout fuel = Some (s, o) ->
          In (LogPageStabilityTimeout actualWait) (logged o) ->
          timeout <= now (stableReads s) - now 0%nat
          /\ actualWait = now (S (stableReads s)) - now 0%nat
          /\ result o = Returned actualWait)
    /\ (forall N : nat,
          reachesDeadline now timeout N ->
          exists (s : StableState) (o : Outcome Z),
            WaitForPageStable_call now evaluate timeout (S N) = Some (s, o)
            /\ (forall e : Exception,
                   result o = Threw e -> evaluate (stablePolls s) = Threw e)).
Proof.
  intros now evaluate timeout. split; [|split; [|split]].
  - intros fuel s o actualWait checks Hrun Hlog.
    unfold WaitForPageStable_call in Hrun.
    pose proof (iterate_invariant _ (StableInv evaluate)
                  (StableInv_step now evaluate timeout (now 0%nat))
                  fuel _ _ _ (StableInv_init evaluate) Hrun)
      as (Hreads & Hchecks & Hprev & Hlast).
    apply iterate_stops in Hrun. unfold stableStep in Hrun.
    destruct (now (stableReads s) - now 0%nat <? timeout).
    2: { injection Hrun as <-. destruct Hlog as [Hlog | []]. discriminate. }
    destruct (evaluate (stablePolls s)) as [m|e] eqn:Hm.
    2: { injection Hrun as <-. destruct Hlog. }
    destruct ((height m =? lastHeight s) && (contentHash m =? lastContent s))
      eqn:Hsame; [|discriminate].
    destruct (stableChecks s + 1 >=? requiredStableChecks) eqn:Hthree;
      [|discriminate].
    injection Hrun as <-. destruct Hlog as [Hlog | []].
    injection Hlog as <- <-.
    unfold requiredStableChecks in Hthree.
    apply Z.geb_le in Hthree.
    apply andb_true_iff in Hsame as [Hh Hc]. apply Z.eqb_eq in Hh, Hc.
    destruct (stablePolls s) as [|[|k]] eqn:Hpolls; try lia.
    cbn [comparedWith] in Hprev.
    assert (Hk1 : evaluate (S k) = Returned m).
    { rewrite Hprev. f_equal. symmetry. apply metrics_ext; assumption. }
    destruct (Hlast (S k) ltac:(lia) ltac:(lia))
      as (m1 & m0 & Hm1 & Hm0 & Hh1 & Hc1).
    cbn [comparedWith] in Hm0.
    rewrite Hk1 in Hm1. injection Hm1 as <-.
    assert (Hk0 : evaluate k = Returned m).
    { rewrite Hm0. f_equal. symmetry. apply metrics_ext; assumption. }
    destruct (Hlast k ltac:(lia) ltac:(lia))
      as (m2 & m3 & Hm2 & Hm3 & Hh2 & Hc2).
    rewrite Hk0 in Hm2. injection Hm2 as <-.
    exists k, m. split; [reflexivity|].
    split; [exact Hk0|]. split; [exact Hk1|]. split; [exact Hm|].
    split; [|split; [lia | reflexivity]].
    destruct k as [|j]; cbn [comparedWith] in Hm3.
    + injection Hm3 as <-. apply metrics_ext; assumption.
    + rewrite Hm3. f_equal. symmetry. apply metrics_ext; assumption.
  - intros start s m Hguard Hm Hdiff.
    unfold stableStep. apply Z.ltb_lt in Hguard. rewrite Hguard, Hm.
    assert (Hsame : (height m =? lastHeight s)
                    && (contentHash m =? lastContent s) = false).
    { apply andb_false_iff.
      destruct Hdiff as [Hd | Hd]; [left | right]; apply Z.eqb_neq; exact Hd. }
    rewrite Hsame. eexists. split; reflexivity.
  - intros fuel s o actualWait Hrun Hlog.
    unfold WaitForPageStable_call in Hrun.
    apply iterate_stops in Hrun. unfold stableStep in Hrun.
    destruct (now (stableReads s) - now 0%nat <? timeout) eqn:Hguard.
    + destruct (evaluate (stablePolls s)) as [m|e].
      * destruct (_ && _); [destruct (_ >=? _)|]; try discriminate.
        injection Hrun as <-. destruct Hlog as [Hlog | []]. discriminate.
      * injection Hrun as <-. destruct Hlog.
    + injection Hrun as <-. destruct Hlog as [Hlog | []].
      injection Hlog as <-. apply Z.ltb_ge in Hguard.
      split; [exact Hguard | split; reflexivity].
  - intros N Hdeadline.
    destruct (iterate_terminates (stableStep now evaluate timeout (now 0%nat))
                (fun s => (N - stableReads s)%nat)) with (fuel := S N)
                                                         (s := stableInit)
      as [[s o] Hrun].
    + intros s s' Hstep. apply stableStep_reads in Hstep as [Hguard Hreads].
      assert (stableReads s < N)%nat.
      { destruct (Nat.lt_ge_cases (stableReads s) N) as [Hlt | Hge];
          [exact Hlt|].
        specialize (Hdeadline _ Hge). lia. }
      lia.
    + cbn [stableInit stableReads]. lia.
    + exists s, o. split; [exact Hrun|].
      intros e He. apply iterate_stops in Hrun.
      exact (stableStep_throws _ _ _ _ _ _ _ Hrun He).
Qed.

(** C6 as stated fails on the code.  On a page without a
    [home-assistant] element every sample is 0 and 0: the first sample
    passes its check against the initial 0 and 0, and the page is
    declared stable at the third sample.  Three samples were taken, so
    only two of them have a sample before them to be unchanged from. *)
Lemma WaitForPageStable_blank_page_stable_at_third_sample :
  WaitForPageStable_call steadyClock blankSamples 5000 10
  = Some ({| lastHeight := 0; lastContent := 0; stableChecks := 2;
             stableReads := 3; stablePolls := 2 |},
          {| result := Returned 400; logged := [LogPageStable 400 3] |})
  /\ ~ (forall (now : nat -> Z) (evaluate : nat -> Completion StabilityMetrics)
               (timeout : Z) (fuel : nat) (s : StableState) (o : Outcome Z)
               (actualWait checks : Z),
          WaitForPageStable_call now evaluate timeout fuel = Some (s, o) ->
          In (LogPageStable actualWait checks) (logged o) ->
          exists k : nat,
            (S (S (S k)) <= stablePolls s)%nat
            /\ sameSample evaluate k (S k)
            /\ sameSample evaluate (S k) (S (S k))
            /\ sameSample evaluate (S (S k)) (S (S (S k)))).
Proof.
  assert (Hrun : WaitForPageStable_call steadyClock blankSamples 5000 10
                 = Some ({| lastHeight := 0; lastContent := 0;
                            stableChecks := 2; stableReads := 3;
                            stablePolls := 2 |},
                         {| result := Returned 400;
                            logged := [LogPageStable 400 3] |}))
    by reflexivity.
  split; [exact Hrun|].
  intros Hthree.
  destruct (Hthree _ _ _ _ _ _ 400 3 Hrun (or_introl eq_refl))
    as (k & Hk & _).
  cbn [stablePolls] in Hk. lia.
Qed.

(** *** WaitForNetworkIdle *)

Section NetworkIdle.

Variable now : nat -> Z.
Variable attachFails : option string.
Variable inbox : nat -> list NetworkEvent.
Variable detachFails : option string.
Variable timeout : Z.
Variable idleTime : Z.

Lemma dispatch_pending (s : NetState) (e : NetworkEvent) :
  0 <= pendingRequests s -> 0 <= pendingRequests (dispatch now s e).
Proof.
  intros H. destruct e; cbn [dispatch onRequestWillBeSent onLoadingFinished
                               onLoadingFailed pendingRequests]; lia.
Qed.

Lemma dispatch_NetInv (s : NetState) (e : NetworkEvent) :
  NetInv now s -> NetInv now (dispatch now s e).
Proof.
  intros [Hpending _]. split; [apply dispatch_pending; exact Hpending|].
  exists (netReads s). destruct e; split; cbn; try lia; reflexivity.
Qed.

Lemma dispatch_reads (s : NetState) (e : NetworkEvent) :
  netReads (dispatch now s e) = S (netReads s).
Proof. destruct e; reflexivity. Qed.

Lemma deliver_pending (events : list NetworkEvent) :
  forall s : NetState,
    0 <= pendingRequests s -> 0 <= pendingRequests (deliver now events s).
Proof.
  unfold deliver. induction events as [|e events IH]; intros s H; simpl.
  - exact H.
  - apply IH, dispatch_pending, H.
Qed.

Lemma deliver_NetInv (events : list NetworkEvent) :
  forall s : NetState, NetInv now s -> NetInv now (deliver now events s).
Proof.
  unfold deliver. induction events as [|e events IH]; intros s H; simpl.
  - exact H.
  - apply IH, dispatch_NetInv, H.
Qed.

Lemma deliver_reads (events : list NetworkEvent) :
  forall s : NetState,
    netReads (deliver now events s) = (List.length events + netReads s)%nat.
Proof.
  unfold deliver. induction events as [|e events IH]; intros s; simpl.
  - reflexivity.
  - rewrite IH, dispatch_reads. lia.
Qed.

Lemma detaching_reads (reads : nat) (s : NetState) :
  netReads (detaching now inbox reads s)
  = (List.length (inbox (netSleeps s)) + (reads + netReads s))%nat.
Proof. unfold detaching. rewrite deliver_reads. reflexivity. Qed.

Lemma detaching_pending (reads : nat) (s : NetState) :
  0 <= pendingRequests s ->
  0 <= pendingRequests (detaching now inbox reads s).
Proof. intros H. unfold detaching. apply deliver_pending. exact H. Qed.

Lemma NetInv_init : NetInv now (netInit now).
Proof.
  split; cbn; [lia|]. exists 1%nat. split; [lia | reflexivity].
Qed.

Lemma NetInv_step (start : Z) (s s' : NetState) :
  NetInv now s ->
  netStep now inbox detachFails timeout idleTime start s = inl s' ->
  NetInv now s'.
Proof.
  intros [Hpending [i [Hi Hlast]]] Hstep. unfold netStep in Hstep.
  destruct (now (netReads s) - start <? timeout).
  - destruct (_ && _).
    + destruct detachFails; discriminate.
    + injection Hstep as <-. apply deliver_NetInv.
      split; cbn; [exact Hpending|]. exists i. split; [lia | exact Hlast].
  - destruct detachFails; discriminate.
Qed.


(** How a round can leave the loop. *)
Lemma netStep_leaves (start : Z) (s : NetState) (o : Outcome Z) :
  netStep now inbox detachFails timeout idleTime start s = inr o ->
  (now (netReads s) - start < timeout
   /\ pendingRequests s = 0
   /\ idleTime <= now (S (netReads s)) - lastActivityTime s
   /\ (logged o = [LogNetworkIdle (now (S (S (netReads s))) - start)]
       \/ exists message : string,
            logged o = [LogNetworkIdle (now (S (S (netReads s))) - start);
                        LogNetworkIdleUnavailable message])
   /\ exists k : nat,
        (S (netReads s) < k)%nat /\ result o = Returned (now k - start))
  \/ (timeout <= now (netReads s) - start
      /\ result o
         = Returned (now (netReads (detaching now inbox 1 s)) - start)
      /\ (logged o
          = [LogNetworkIdleTimeout
               (now (netReads (detaching now inbox 1 s)) - start)
               (pendingRequests (detaching now inbox 1 s))]
          \/ exists message : string,
               logged o = [LogNetworkIdleUnavailable message])).
Proof.
  unfold netStep. intros Hstep.
  destruct (now (netReads s) - start <? timeout) eqn:Hguard.
  - apply Z.ltb_lt in Hguard.
    destruct ((pendingRequests s =? 0)
              && (now (S (netReads s)) - lastActivityTime s >=? idleTime))
      eqn:Hidle; [|discriminate].
    apply andb_true_iff in Hidle as [Hzero Hquiet].
    apply Z.eqb_eq in Hzero. apply Z.geb_le in Hquiet.
    left. repeat split; try assumption.
    + destruct detachFails as [message|]; injection Hstep as <-.
      * right. exists message. reflexivity.
      * left. reflexivity.
    + destruct detachFails; injection Hstep as <-.
      * exists (netReads (detaching now inbox 3 s)).
        split; [rewrite detaching_reads; lia | reflexivity].
      * exists (S (S (netReads s))). split; [lia | reflexivity].
  - apply Z.ltb_ge in Hguard. right. split; [exact Hguard|].
    destruct detachFails as [message|]; injection Hstep as <-.
    + split; [reflexivity|]. right. exists message. reflexivity.
    + split; [reflexivity|]. left. reflexivity.
Qed.

End NetworkIdle.

(** A completed call either found the channel unavailable at once, or
    ran the loop from its initial state. *)
Lemma WaitForNetworkIdle_call_inv (now : nat -> Z) (attachFails : option string)
    (inbox : nat -> list NetworkEvent) (detachFails : option string)
    (timeout idleTime : Z) (fuel : nat) (fs : option NetState) (o : Outcome Z) :
  WaitForNetworkIdle_call now attachFails inbox detachFails timeout idleTime fuel
  = Some (fs, o) ->
  (exists message : string,
      attachFails = Some message /\ fs = None
      /\ o = {| result := Returned (now 1%nat - now 0%nat);
                logged := [LogNetworkIdleUnavailable message] |})
  \/ (exists s : NetState,
         fs = Some s /\ NetInv now s
         /\ netStep now inbox detachFails timeout idleTime (now 0%nat) s = inr o).
Proof.
  unfold WaitForNetworkIdle_call. intros H.
  destruct attachFails as [message|].
  - injection H as <- <-. left. exists message. auto.
  - destruct (iterate _ fuel (netInit now)) as [[s o']|] eqn:Hrun;
      [|discriminate].
    injection H as <- <-. right. exists s. split; [reflexivity|]. split.
    + exact (iterate_invariant _ (NetInv now)
               (NetInv_step now inbox detachFails timeout idleTime (now 0%nat))
               fuel _ _ _ (NetInv_init now) Hrun).
    + exact (iterate_stops _ fuel _ _ _ Hrun).
Qed.


(** C9.  The counter of in-flight requests is never negative: whatever
    events the handlers receive, in whatever order, a counter that is not
    negative stays so; a completion event sets it to [max(0, n - 1)], so a
    completion without a matching start leaves a counter at 0 at 0; and
    the counter seen by any round of the loop, or logged on timeout, is
    not negative. *)
Theorem pendingRequests_never_negative :
  forall now : nat -> Z,
    (forall (events : list NetworkEvent) (s : NetState),
        0 <= pendingRequests s ->
        0 <= pendingRequests (deliver now events s))
    /\ (forall events : list NetworkEvent,
          0 <= pendingRequests (deliver now events (netInit now)))
    /\ (forall s : NetState,
          pendingRequests (onLoadingFinished now s)
          = Z.max 0 (pendingRequests s - 1)
          /\ pendingRequests (onLoadingFailed now s)
             = Z.max 0 (pendingRequests s - 1))
    /\ (forall s : NetState,
          pendingRequests s = 0 ->
          pendingRequests (onLoadingFinished now s) = 0
          /\ pendingRequests (onLoadingFailed now s) = 0)
    /\ (forall (attachFails : option string) (inbox : nat -> list NetworkEvent)
               (detachFails : option string) (timeout idleTime : Z)
               (fuel : nat) (s : NetState) (o : Outcome Z),
          WaitForNetworkIdle_call now attachFails inbox detachFails timeout
            idleTime fuel = Some (Some s, o) ->
          0 <= pendingRequests s
          /\ forall actualWait pending : Z,
               In (LogNetworkIdleTimeout actualWait pending) (logged o) ->
               0 <= pending).
Proof.
  intros now. split; [|split; [|split; [|split]]].
  - intros events s. apply deliver_pending.
  - intros events. apply deliver_pending. cbn. lia.
  - intros s. split; reflexivity.
  - intros s Hzero. cbn [onLoadingFinished onLoadingFailed pendingRequests].
    rewrite Hzero. split; reflexivity.
  - intros attachFails inbox detachFails timeout idleTime fuel s o Hcall.
    destruct (WaitForNetworkIdle_call_inv _ _ _ _ _ _ _ _ _ Hcall)
      as [(message & _ & Hnone & _) | (s' & Hs & [Hpending _] & Hstep)].
    + discriminate.
    + injection Hs as <-. split; [exact Hpending|].
      intros w pending Hin. apply netStep_leaves in Hstep.
      destruct Hstep as [(_ & _ & _ & Hlog & _) | (_ & _ & Hlog)].
      * destruct Hlog as [Hlog | [message Hlog]]; rewrite Hlog in Hin;
          repeat (destruct Hin as [Hin | Hin]; [discriminate|]);
          destruct Hin.
      * destruct Hlog as [Hlog | [message Hlog]]; rewrite Hlog in Hin;
          destruct Hin as [Hin | []]; [|discriminate].
        injection Hin as _ <-. apply detaching_pending. exact Hpending.
Qed.

(** *** WaitForLoadingComplete *)

Section LoadingComplete.

Variable now : nat -> Z.
Variable evaluate : nat -> Completion bool.
Variable timeout : Z.

Lemma loadingStep_reads (start : Z) (s s' : LoadingState) :
  loadingStep now evaluate timeout start s = inl s' ->
  now (loadingReads s) - start < timeout
  /\ loadingReads s' = S (loadingReads s).
Proof.
  unfold loadingStep. intros Hstep.
  destruct (now (loadingReads s) - start <? timeout) eqn:Hguard; [|discriminate].
  apply Z.ltb_lt in Hguard. split; [exact Hguard|].
  destruct (evaluate (loadingPolls s)) as [[|]|e]; try discriminate.
  injection Hstep as <-. reflexivity.
Qed.

(** How a round can leave the loop. *)
Lemma loadingStep_leaves (start : Z) (s : LoadingState) (o : Outcome Z) :
  loadingStep now evaluate timeout start s = inr o ->
  (now (loadingReads s) - start < timeout
   /\ evaluate (loadingPolls s) = Returned false
   /\ o = {| result := Returned (now (S (loadingReads s)) - start);
             logged := [LogLoadingCleared (now (S (loadingReads s)) - start)] |})
  \/ (now (loadingReads s) - start < timeout
      /\ exists e : Exception,
           evaluate (loadingPolls s) = Threw e
           /\ o = {| result := Threw e; logged := [] |})
  \/ (timeout <= now (loadingReads s) - start
      /\ o = {| result := Returned (now (S (loadingReads s)) - start);
                logged := [LogLoadingTimeout (now (S (loadingReads s)) - start)] |}).
Proof.
  unfold loadingStep. intros Hstep.
  destruct (now (loadingReads s) - start <? timeout) eqn:Hguard.
  - apply Z.ltb_lt in Hguard.
    destruct (evaluate (loadingPolls s)) as [[|]|e]; try discriminate;
      injection Hstep as <-.
    + left. auto.
    + right. left. split; [exact Hguard|]. exists e. auto.
  - apply Z.ltb_ge in Hguard. injection Hstep as <-. right. right. auto.
Qed.

End LoadingComplete.

(** How a round of WaitForPageStable can leave the loop with a number. *)
Lemma stableStep_returns (now : nat -> Z)
    (evaluate : nat -> Completion StabilityMetrics) (timeout start : Z)
    (s : StableState) (o : Outcome Z) (v : Z) :
  stableStep now evaluate timeout start s = inr o ->
  result o = Returned v ->
  v = now (S (stableReads s)) - start
  /\ ((now (stableReads s) - start < timeout
       /\ logged o = [LogPageStable v (stableChecks s + 1)])
      \/ (timeout <= now (stableReads s) - start
          /\ logged o = [LogPageStabilityTimeout v])).
Proof.
  unfold stableStep. intros Hstep Hres.
  destruct (now (stableReads s) - start <? timeout) eqn:Hguard.
  - apply Z.ltb_lt in Hguard.
    destruct (evaluate (stablePolls s)) as [m|e].
    + destruct (_ && _); [destruct (_ >=? _)|]; try discriminate.
      injection Hstep as <-. injection Hres as <-. auto.
    + injection Hstep as <-. discriminate.
  - apply Z.ltb_ge in Hguard.
    injection Hstep as <-. injection Hres as <-. auto.
Qed.

(** *** The clocks of the scenarios *)


Lemma pollingClock_monotone (period : Z) :
  50 <= period -> monotone (pollingClock period).
Proof.
  intros Hperiod i j Hij. unfold pollingClock.
  assert (Hdiv : ((i - 4) / 2 <= (j - 4) / 2)%nat)
    by (apply Nat.Div0.div_le_mono; lia).
  assert (Hone : (6 <= j -> 1 <= (j - 4) / 2)%nat)
    by (intros; apply Nat.div_le_lower_bound; lia).
  apply Nat2Z.inj_le in Hdiv.
  destruct (Nat.ltb_spec i 4), (Nat.ltb_spec j 4); try lia;
    destruct (Nat.ltb_spec i 6), (Nat.ltb_spec j 6); try lia;
    try (assert (Hj : (1 <= (j - 4) / 2)%nat) by (apply Hone; lia);
         apply Nat2Z.inj_le in Hj);
    revert Hdiv; try revert Hj;
    generalize (Z.of_nat ((j - 4) / 2)), (Z.of_nat ((i - 4) / 2));
    intros; nia.
Qed.

(** *** Elapsed time *)

(** C7, as the code has it.  With a clock that does not run backwards,
    the elapsed time a detector reports never decreases over the run: the
    value returned is at least the elapsed time at every earlier reading
    of the clock, and not negative.  The configured timeout bounds the
    value returned on timeout from below, not from above: a detector that
    times out returns at least its timeout. *)
Theorem elapsed_monotone_and_at_least_timeout :
  forall now : nat -> Z,
    monotone now ->
    (forall (evaluate : nat -> Completion StabilityMetrics) (timeout : Z)
            (fuel : nat) (s : StableState) (o : Outcome Z) (v : Z),
        WaitForPageStable_call now evaluate timeout fuel = Some (s, o) ->
        result o = Returned v ->
        (forall n : nat,
            (n <= stableReads s)%nat -> 0 <= now n - now 0%nat <= v)
        /\ (In (LogPageStabilityTimeout v) (logged o) -> timeout <= v))
    /\ (forall (attachFails : option string) (inbox : nat -> list NetworkEvent)
               (detachFails : option string) (timeout idleTime : Z)
               (fuel : nat) (fs : option NetState) (o : Outcome Z) (v : Z),
          WaitForNetworkIdle_call now attachFails inbox detachFails timeout
            idleTime fuel = Some (fs, o) ->
          result o = Returned v ->
          0 <= v
          /\ (forall (s : NetState) (n : nat),
                 fs = Some s -> (n <= netReads s)%nat ->
                 0 <= now n - now 0%nat <= v)
          /\ (forall pending : Z,
                 In (LogNetworkIdleTimeout v pending) (logged o) ->
                 timeout <= v))
    /\ (forall (evaluate : nat -> Completion bool) (timeout : Z)
               (fuel : nat) (s : LoadingState) (o : Outcome Z) (v : Z),
          WaitForLoadingComplete_call now evaluate timeout fuel = Some (s, o) ->
          result o = Returned v ->
          (forall n : nat,
              (n <= loadingReads s)%nat -> 0 <= now n - now 0%nat <= v)
          /\ (In (LogLoadingTimeout v) (logged o) -> timeout <= v)).
Proof.
  intros now Hmono.
  assert (Hfrom0 : forall n : nat, now 0%nat <= now n)
    by (intros n; apply Hmono; lia).
  split; [|split].
  - intros evaluate timeout fuel s o v Hrun Hres.
    unfold WaitForPageStable_call in Hrun. apply iterate_stops in Hrun.
    destruct (stableStep_returns _ _ _ _ _ _ _ Hrun Hres) as [-> Hlog].
    pose proof (Hmono (stableReads s) (S (stableReads s))
                  (Nat.le_succ_diag_r _)) as Hlast.
    split.
    + intros n Hn. pose proof (Hmono n (stableReads s) Hn).
      pose proof (Hfrom0 n). lia.
    + intros Hin.
      destruct Hlog as [[_ Hlog] | [Hlate _]].
      * rewrite Hlog in Hin. destruct Hin as [Hin | []]. discriminate.
      * lia.
  - intros attachFails inbox detachFails timeout idleTime fuel fs o v Hcall Hres.
    destruct (WaitForNetworkIdle_call_inv _ _ _ _ _ _ _ _ _ Hcall)
      as [(message & _ & -> & ->) | (s & -> & _ & Hstep)].
    + injection Hres as <-. pose proof (Hfrom0 1%nat).
      split; [lia|]. split.
      * intros s n Hs. discriminate.
      * intros pending [Hin | []]. discriminate.
    + apply netStep_leaves in Hstep.
      destruct Hstep as [(_ & _ & _ & Hlog & k & Hk & Hv) | (Hlate & Hv & _)];
        rewrite Hv in Hres; injection Hres as <-.
      * pose proof (Hfrom0 k). split; [lia|]. split.
        -- intros s' n Hs' Hn. injection Hs' as <-.
           pose proof (Hmono n k ltac:(lia)). pose proof (Hfrom0 n). lia.
        -- intros pending Hin.
           destruct Hlog as [Hlog | [message Hlog]]; rewrite Hlog in Hin;
             repeat (destruct Hin as [Hin | Hin]; [discriminate|]);
             destruct Hin.
      * pose proof (Hmono (netReads s) (netReads (detaching now inbox 1 s))
                      ltac:(rewrite detaching_reads; lia)) as Hlast.
        pose proof (Hfrom0 (netReads (detaching now inbox 1 s))).
        split; [lia|]. split.
        -- intros s' n Hs' Hn. injection Hs' as <-.
           pose proof (Hmono n (netReads s) Hn). pose proof (Hfrom0 n). lia.
        -- intros pending _. lia.
  - intros evaluate timeout fuel s o v Hrun Hres.
    unfold WaitForLoadingComplete_call in Hrun. apply iterate_stops in Hrun.
    pose proof (Hmono (loadingReads s) (S (loadingReads s))
                  (Nat.le_succ_diag_r _)) as Hlast.
    apply loadingStep_leaves in Hrun.
    destruct Hrun as [(_ & _ & ->) | [(_ & e & _ & ->) | (Hlate & ->)]];
      cbn [result logged] in *; try discriminate;
      injection Hres as <-.
    + split.
      * intros n Hn. pose proof (Hmono n (loadingReads s) Hn).
        pose proof (Hfrom0 n). lia.
      * intros [Hin | []]. discriminate.
    + split.
      * intros n Hn. pose proof (Hmono n (loadingReads s) Hn).
        pose proof (Hfrom0 n). lia.
      * intros _. lia.
Qed.

(** Scenario D with exact timers: a 10 s timeout, two requests that
    never complete, a poll every 100 ms.  The detector returns 10000. *)
Lemma elapsed_monotone_and_at_least_timeout_witness :
  monotone (pollingClock 100)
  /\ WaitForNetworkIdle_call (pollingClock 100) None twoRequests None
       10000 500 200
     = Some (Some {| pendingRequests := 2; lastActivityTime := T0 + 50;
                     netReads := 204; netSleeps := 100 |},
             {| result := Returned 10000;
                logged := [LogNetworkIdleTimeout 10000 2] |})
  /\ 10000 <= 10000.
Proof.
  assert (Hmono : monotone (pollingClock 100))
    by (apply pollingClock_monotone; lia).
  assert (Hrun : WaitForNetworkIdle_call (pollingClock 100) None twoRequests
                   None 10000 500 200
                 = Some (Some {| pendingRequests := 2;
                                 lastActivityTime := T0 + 50;
                                 netReads := 204; netSleeps := 100 |},
                         {| result := Returned 10000;
                            logged := [LogNetworkIdleTimeout 10000 2] |}))
    by (vm_compute; reflexivity).
  split; [exact Hmono|]. split; [exact Hrun|].
  destruct (elapsed_monotone_and_at_least_timeout (pollingClock 100) Hmono)
    as [_ [Hnet _]].
  destruct (Hnet None twoRequests None 10000 500 200%nat _ _ 10000 Hrun eq_refl)
    as [_ [_ Hlate]].
  exact (Hlate 2 (or_introl eq_refl)).
Defined.

(** C7 as stated fails on the code.  Scenario D with timers that fire a
    millisecond late (a poll every 101 ms): the clock never runs
    backwards, the detector times out, and it returns 10100, which the
    configured timeout of 10000 does not bound. *)
Lemma elapsed_not_bounded_by_timeout :
  monotone (pollingClock 101)
  /\ WaitForNetworkIdle_call (pollingClock 101) None twoRequests None
       10000 500 200
     = Some (Some {| pendingRequests := 2; lastActivityTime := T0 + 50;
                     netReads := 204; netSleeps := 100 |},
             {| result := Returned 10100;
                logged := [LogNetworkIdleTimeout 10100 2] |})
  /\ ~ (forall (now : nat -> Z) (attachFails : option string)
               (inbox : nat -> list NetworkEvent) (detachFails : option string)
               (timeout idleTime : Z) (fuel : nat)
               (fs : option NetState) (o : Outcome Z) (v : Z),
          monotone now ->
          WaitForNetworkIdle_call now attachFails inbox detachFails timeout
            idleTime fuel = Some (fs, o) ->
          result o = Returned v ->
          v <= timeout).
Proof.
  assert (Hmono : monotone (pollingClock 101))
    by (apply pollingClock_monotone; lia).
  assert (Hrun : WaitForNetworkIdle_call (pollingClock 101) None twoRequests
                   None 10000 500 200
                 = Some (Some {| pendingRequests := 2;
                                 lastActivityTime := T0 + 50;
                                 netReads := 204; netSleeps := 100 |},
                         {| result := Returned 10100;
                            logged := [LogNetworkIdleTimeout 10100 2] |}))
    by (vm_compute; reflexivity).
  split; [exact Hmono|]. split; [exact Hrun|].
  intros Hbound.
  specialize (Hbound _ _ _ _ _ _ _ _ _ 10100 Hmono Hrun eq_refl). lia.
Qed.

(** *** Degradation *)




(** *** Concrete runs *)



(** A page that grows for three samples and then keeps its size is
    declared stable at the sixth sample, the fourth to show 520 and
    1000; and the first sample of a growing page, which differs from the
    initial 0 and 0, leaves the counter at 0. *)
Lemma WaitForPageStable_stable_after_three_samples_witness :
  WaitForPageStable_call steadyClock settlingSamples 5000 20
  = Some ({| lastHeight := 520; lastContent := 1000; stableChecks := 2;
             stableReads := 6; stablePolls := 5 |},
          {| result := Returned 700; logged := [LogPageStable 700 3] |})
  /\ (exists (k : nat) (m : StabilityMetrics),
        5%nat = S (S k)
        /\ settlingSamples k = Returned m
        /\ settlingSamples (S k) = Returned m
        /\ settlingSamples (S (S k)) = Returned m
        /\ match k with
           | O => m = {| height := 0; contentHash := 0 |}
           | S j => settlingSamples j = Returned m
           end
        /\ 3 <= 3
        /\ Returned 700 = Returned 700)
  /\ (exists s' : StableState,
        stableStep steadyClock growingSamples 5000 T0 stableInit = inl s'
        /\ stableChecks s' = 0).
Proof.
  assert (Hrun : WaitForPageStable_call steadyClock settlingSamples 5000 20
                 = Some ({| lastHeight := 520; lastContent := 1000;
                            stableChecks := 2; stableReads := 6;
                            stablePolls := 5 |},
                         {| result := Returned 700;
                            logged := [LogPageStable 700 3] |}))
    by (vm_compute; reflexivity).
  split; [exact Hrun|]. split.
  - destruct (WaitForPageStable_stable_after_three_samples steadyClock
                settlingSamples 5000) as [Hstable _].
    exact (Hstable _ _ _ 700 3 Hrun (or_introl eq_refl)).
  - destruct (WaitForPageStable_stable_after_three_samples steadyClock
                growingSamples 5000) as [_ [Hreset _]].
    apply (Hreset T0 stableInit {| height := 480; contentHash := 1000 |}).
    + vm_compute. reflexivity.
    + reflexivity.
    + left. cbn. discriminate.
Defined.

(** Two completions without a start, then a start and two more
    completions: the counter ends at 0. *)
Lemma pendingRequests_never_negative_witness :
  0 <= pendingRequests
         (deliver steadyClock
            [LoadingFinished; LoadingFailed; RequestWillBeSent;
             LoadingFailed; LoadingFinished]
            (netInit steadyClock))
  /\ pendingRequests (onLoadingFinished steadyClock (netInit steadyClock)) = 0
  /\ pendingRequests (onLoadingFailed steadyClock (netInit steadyClock)) = 0.
Proof.
  destruct (pendingRequests_never_negative steadyClock)
    as [Hdeliver [_ [_ [Hzero _]]]].
  split.
  - apply Hdeliver. cbn. lia.
  - apply Hzero. reflexivity.
Defined.

End DetectorFacts.

(* ------------------------------------------------------------------ *)
(** ** Further properties of NavigateToPage *)

Module NavigationMore.
Import Js Navigation NavigationFacts Scenarios.
Local Open Scope list_scope.

Section AnyEnvironment.

Variables (DEFAULT_WAIT_TIME COLD_START_EXTRA_WAIT : Z) (isAddOn : bool).
Variable URL_toString : string -> string -> option string.
Variable browser : Browser.
Variable self : NavigateToPage.

(** Whatever happens, a call leaves the scripts registered on the page
    as it found them: also when the registration itself rejects, when the
    URL cannot be built, and on the client-side path. *)
Theorem call_keeps_registered_scripts :
  forall (pagePath : string) (isFirstNavigation : bool)
         (targetUrl : option string) (p : Page),
    newDocumentScripts
      (snd (call DEFAULT_WAIT_TIME COLD_START_EXTRA_WAIT isAddOn URL_toString
              browser self pagePath isFirstNavigation targetUrl p))
    = newDocumentScripts p.
Proof.
  intros pagePath [|] targetUrl p; unfold call.
  - unfold firstNavigation.
    destruct (resolvePageUrl _ _ _ _) as [pageUrl|]; [|reflexivity].
    destruct (shouldInjectAuth self pageUrl).
    + unfold page_evaluateOnNewDocument.
      destruct (evaluateOnNewDocumentFails browser); [reflexivity|].
      rewrite firstNavigationLoad_scripts. apply removeScript_head.
    + apply firstNavigationLoad_scripts.
  - apply subsequentNavigation_scripts.
Qed.

(** The calls one navigation makes on the page have one of five shapes:
    none; one [goto]; the router script alone; a registration that
    failed; or registration, [goto], removal.  So a call never issues two
    full page loads, never mixes a full page load with the client-side
    transition, and never removes a script it did not register. *)
Theorem call_shapes :
  forall (pagePath : string) (isFirstNavigation : bool)
         (targetUrl : option string) (p : Page),
    let made :=
      newCalls p
        (snd (call DEFAULT_WAIT_TIME COLD_START_EXTRA_WAIT isAddOn URL_toString
                browser self pagePath isFirstNavigation targetUrl p)) in
    made = []
    \/ (exists pageUrl : string, made = [CallGoto pageUrl])
    \/ (isFirstNavigation = false /\ made = [CallEvaluate pagePath])
    \/ (isFirstNavigation = true
        /\ made = [CallEvaluateOnNewDocument (authStorage self)])
    \/ (isFirstNavigation = true
        /\ exists pageUrl : string,
             made = [CallEvaluateOnNewDocument (authStorage self);
                     CallGoto pageUrl;
                     CallRemoveScriptToEvaluateOnNewDocument (nextIdentifier p)]).
Proof.
  intros pagePath [|] targetUrl p made; subst made; unfold call.
  - rewrite firstNavigation_newCalls.
    destruct (resolvePageUrl _ _ _ _) as [pageUrl|]; [|now left].
    destruct (shouldInjectAuth self pageUrl).
    + destruct (evaluateOnNewDocumentFails browser).
      * right. right. right. left. split; reflexivity.
      * right. right. right. right. split; [reflexivity|].
        exists pageUrl. reflexivity.
    + right. left. exists pageUrl. reflexivity.
  - rewrite subsequentNavigation_newCalls.
    destruct (_ || _).
    + destruct (resolvePageUrl _ _ _ _) as [pageUrl|]; [|now left].
      right. left. exists pageUrl. reflexivity.
    + destruct (URL_toString _ _); [|now left].
      right. right. left. split; reflexivity.
Qed.

(** An explicit target decides the destination alone: the page path is
    not looked at.  The empty string is no target. *)
Theorem call_explicit_target_ignores_pagePath :
  forall (target : string) (isFirstNavigation : bool) (p : Page),
    target <> "" ->
    (forall pagePath pagePath' : string,
        call DEFAULT_WAIT_TIME COLD_START_EXTRA_WAIT isAddOn URL_toString
          browser self pagePath isFirstNavigation (Some target) p
        = call DEFAULT_WAIT_TIME COLD_START_EXTRA_WAIT isAddOn URL_toString
            browser self pagePath' isFirstNavigation (Some target) p)
    /\ (forall pagePath : string,
          In (CallGoto target)
            (newCalls p
               (snd (call DEFAULT_WAIT_TIME COLD_START_EXTRA_WAIT isAddOn
                       URL_toString browser self pagePath isFirstNavigation
                       (Some target) p)))
          \/ (isFirstNavigation = true
              /\ evaluateOnNewDocumentFails browser <> None))
    /\ (forall pagePath : string,
          call DEFAULT_WAIT_TIME COLD_START_EXTRA_WAIT isAddOn URL_toString
            browser self pagePath isFirstNavigation (Some "") p
          = call DEFAULT_WAIT_TIME COLD_START_EXTRA_WAIT isAddOn URL_toString
              browser self pagePath isFirstNavigation None p).
Proof.
  intros target isFirstNavigation p Htarget.
  assert (Ht : truthy (Some target) = Some target)
    by (destruct target; [congruence | reflexivity]).
  split; [|split].
  - intros pagePath pagePath'. unfold call.
    destruct isFirstNavigation.
    + unfold firstNavigation, resolvePageUrl. rewrite Ht. reflexivity.
    + unfold subsequentNavigation, resolvePageUrl. rewrite Ht. reflexivity.
  - intros pagePath. unfold call. destruct isFirstNavigation.
    + rewrite firstNavigation_newCalls. unfold resolvePageUrl. rewrite Ht.
      destruct (shouldInjectAuth self target).
      * destruct (evaluateOnNewDocumentFails browser) eqn:Hreg.
        -- right. split; [reflexivity | discriminate].
        -- left. simpl. auto.
      * left. simpl. auto.
    + rewrite subsequentNavigation_newCalls. unfold resolvePageUrl.
      rewrite Ht. simpl. auto.
  - intros pagePath. reflexivity.
Qed.

(** A [TypeError] leaves [call] exactly when the URL had to be built from
    the page path and could not be; the page has then not been touched. *)
Theorem call_invalid_url_leaves_page_untouched :
  forall (pagePath : string) (isFirstNavigation : bool)
         (targetUrl : option string) (p : Page) (message : string),
    fst (call DEFAULT_WAIT_TIME COLD_START_EXTRA_WAIT isAddOn URL_toString
           browser self pagePath isFirstNavigation targetUrl p)
    = Threw (TypeError message) ->
    truthy targetUrl = None
    /\ URL_toString pagePath (homeAssistantUrl self) = None
    /\ snd (call DEFAULT_WAIT_TIME COLD_START_EXTRA_WAIT isAddOn URL_toString
              browser self pagePath isFirstNavigation targetUrl p)
       = p.
Proof.
  intros pagePath isFirstNavigation targetUrl p message.
  unfold call. destruct isFirstNavigation.
  - rewrite firstNavigation_result. unfold firstNavigation, resolvePageUrl.
    destruct (truthy targetUrl) as [u|].
    + destruct (if shouldInjectAuth self u then _ else _);
        [discriminate|].
      destruct (gotoOutcome browser u) as [m| |r]; try discriminate.
      destruct (ok r); discriminate.
    + destruct (URL_toString pagePath (homeAssistantUrl self)) as [u|].
      * destruct (if shouldInjectAuth self u then _ else _);
          [discriminate|].
        destruct (gotoOutcome browser u) as [m| |r]; try discriminate.
        destruct (ok r); discriminate.
      * intros _. auto.
  - rewrite subsequentNavigation_result.
    unfold subsequentNavigation, resolvePageUrl.
    destruct (truthy targetUrl) as [u|]; simpl.
    + destruct (gotoOutcome browser u) as [m| |r]; try discriminate.
      destruct (ok r); discriminate.
    + destruct (negb (startsWith (url p) (homeAssistantUrl self))).
      * destruct (URL_toString pagePath (homeAssistantUrl self)) as [u|].
        -- destruct (gotoOutcome browser u) as [m| |r]; try discriminate.
           destruct (ok r); discriminate.
        -- intros _. auto.
      * destruct (URL_toString pagePath (homeAssistantUrl self)) as [u|].
        -- destruct (evaluateFails browser); discriminate.
        -- intros _. auto.
Qed.

(** The recommended wait of a navigation that succeeds is the default
    wait, plus the cold-start penalty exactly for a first navigation in
    the add-on; the route taken (full load or client-side) does not
    change it. *)
Theorem call_waitTime :
  forall (pagePath : string) (isFirstNavigation : bool)
         (targetUrl : option string) (p : Page) (r : NavigationResult),
    fst (call DEFAULT_WAIT_TIME COLD_START_EXTRA_WAIT isAddOn URL_toString
           browser self pagePath isFirstNavigation targetUrl p)
    = Returned r ->
    waitTime r
    = DEFAULT_WAIT_TIME
      + (if isFirstNavigation && isAddOn then COLD_START_EXTRA_WAIT else 0).
Proof.
  intros pagePath isFirstNavigation targetUrl p r.
  unfold call. destruct isFirstNavigation.
  - rewrite firstNavigation_result.
    destruct (resolvePageUrl _ _ _ _) as [u|]; [|discriminate].
    destruct (if shouldInjectAuth self u then _ else _); [discriminate|].
    destruct (gotoOutcome browser u) as [m| |resp]; try discriminate.
    destruct (ok resp); [|discriminate].
    intros H. injection H as <-. reflexivity.
  - rewrite subsequentNavigation_result.
    destruct (_ || _).
    + destruct (resolvePageUrl _ _ _ _) as [u|]; [|discriminate].
      destruct (gotoOutcome browser u) as [m| |resp]; try discriminate.
      destruct (ok resp); [|discriminate].
      intros H. injection H as <-. cbn. lia.
    + destruct (URL_toString _ _); [|discriminate].
      destruct (evaluateFails browser); [discriminate|].
      intros H. injection H as <-. cbn. lia.
Qed.

(** Two navigations in a row.  When the first navigation registered the
    hook and the browser ended on the URL it was sent to, the session is
    on the configured instance by the code's own test, and a next
    navigation without target is the client-side transition: one router
    script, no page load. *)
Theorem client_side_after_injected_first_navigation :
  forall (pagePath nextPath : string) (targetUrl : option string) (p : Page)
         (pageUrl haUrl : string) (response : HTTPResponse),
    resolvePageUrl URL_toString self pagePath targetUrl = Some pageUrl ->
    shouldInjectAuth self pageUrl = true ->
    evaluateOnNewDocumentFails browser = None ->
    gotoOutcome browser pageUrl = GotoResponse response ->
    landedOn response = pageUrl ->
    URL_toString nextPath (homeAssistantUrl self) = Some haUrl ->
    let session :=
      snd (call DEFAULT_WAIT_TIME COLD_START_EXTRA_WAIT isAddOn URL_toString
             browser self pagePath true targetUrl p) in
    url session = pageUrl
    /\ newCalls session
         (snd (call DEFAULT_WAIT_TIME COLD_START_EXTRA_WAIT isAddOn
                 URL_toString browser self nextPath false None session))
       = [CallEvaluate nextPath].
Proof.
  intros pagePath nextPath targetUrl p pageUrl haUrl response
    Hres Hinj Hreg Hgoto Hland Hnext session.
  assert (Hurl : url session = pageUrl).
  { subst session. unfold call, firstNavigation.
    rewrite Hres, Hinj. unfold page_evaluateOnNewDocument. rewrite Hreg.
    unfold firstNavigationLoad, page_goto. cbn [logCall].
    rewrite Hgoto. destruct (ok response); cbn; exact Hland. }
  split; [exact Hurl|].
  unfold call. rewrite subsequentNavigation_newCalls.
  unfold shouldInjectAuth in Hinj. rewrite Hurl, Hinj, Hnext. reflexivity.
Qed.

End AnyEnvironment.

(** *** Concrete runs *)

Lemma call_explicit_target_ignores_pagePath_witness :
  "http://other-server.com/page" <> ""
  /\ call 2000 5000 true Url.resolve mockBrowser
       (navigator "http://homeassistant:8123") "/unused" true
       (Some "http://other-server.com/page") mockPage
     = call 2000 5000 true Url.resolve mockBrowser
         (navigator "http://homeassistant:8123") "/lovelace/0" true
         (Some "http://other-server.com/page") mockPage.
Proof.
  split; [discriminate|].
  apply (call_explicit_target_ignores_pagePath 2000 5000 true Url.resolve
           mockBrowser (navigator "http://homeassistant:8123")
           "http://other-server.com/page" true mockPage).
  discriminate.
Defined.

(** A configured URL that is no URL at all. *)
Lemma call_invalid_url_leaves_page_untouched_witness :
  fst (call 2000 5000 true Url.resolve mockBrowser (navigator "homeassistant")
         "/lovelace/0" true None mockPage)
  = Threw (TypeError "Invalid URL")
  /\ snd (call 2000 5000 true Url.resolve mockBrowser (navigator "homeassistant")
            "/lovelace/0" true None mockPage)
     = mockPage.
Proof.
  split; [reflexivity|].
  apply (call_invalid_url_leaves_page_untouched 2000 5000 true Url.resolve
           mockBrowser (navigator "homeassistant") "/lovelace/0" true None
           mockPage "Invalid URL").
  reflexivity.
Defined.

Lemma call_waitTime_witness :
  fst (call 2000 5000 true Url.resolve mockBrowser
         (navigator "http://homeassistant:8123") "/lovelace/0" true None
         mockPage)
  = Returned {| waitTime := 7000 |}
  /\ waitTime {| waitTime := 7000 |} = 2000 + 5000.
Proof.
  split; [reflexivity|].
  apply (call_waitTime 2000 5000 true Url.resolve mockBrowser
           (navigator "http://homeassistant:8123") "/lovelace/0" true None
           mockPage).
  reflexivity.
Defined.

(** Scenario C of the specification, reached from a first navigation. *)
Lemma client_side_after_injected_first_navigation_witness :
  let nav := navigator "http://homeassistant:8123" in
  let session :=
    snd (call 2000 5000 true Url.resolve mockBrowser nav "/lovelace/0" true
           None mockPage) in
  url session = "http://homeassistant:8123/lovelace/0"
  /\ newCalls session
       (snd (call 2000 5000 true Url.resolve mockBrowser nav "/lovelace/1"
               false None session))
     = [CallEvaluate "/lovelace/1"].
Proof.
  exact (client_side_after_injected_first_navigation 2000 5000 true
           Url.resolve mockBrowser (navigator "http://homeassistant:8123")
           "/lovelace/0" "/lovelace/1" None mockPage
           "http://homeassistant:8123/lovelace/0"
           "http://homeassistant:8123/lovelace/1"
           {| ok := true; status := 200;
              landedOn := "http://homeassistant:8123/lovelace/0" |}
           eq_refl eq_refl eq_refl eq_refl eq_refl eq_refl).
Defined.

(** *** With the URL model *)

Lemma prefix_app (s t : string) : String.prefix s (s ++ t)%string = true.
Proof.
  induction s as [|c s IH]; simpl.
  - destruct t; reflexivity.
  - destruct (Ascii.ascii_dec c c) as [_|Hne]; [exact IH | congruence].
Qed.

(** A path resolved against a base that is its own origin is the base
    followed by the path. *)
Lemma resolve_origin_form (base path : string) :
  Url.origin_of base = Some base ->
  Url.is_absolute_path path = true ->
  Url.resolve path base = Some (base ++ path)%string.
Proof.
  unfold Url.origin_of, Url.resolve. intros Horigin Hpath.
  destruct (Url.parse base) as [b|]; [|discriminate].
  cbn [option_map] in Horigin. injection Horigin as Horigin.
  rewrite Hpath. unfold Url.toString, Url.origin in *.
  cbn [Url.scheme Url.host Url.port Url.pathname].
  rewrite Horigin. reflexivity.
Qed.

(** When the configured URL is written as its own origin (scheme, a
    host that the platform keeps as it is written, a port only if it is
    not the scheme's default, nothing after it), the prefix test is
    right for every dashboard path: a first navigation without explicit
    target goes to the configured URL followed by the path, registers
    the hook once, loads once, and removes the hook.  A host that the
    platform rewrites or rejects (an IPv4 address in a short or
    non-decimal form, a label to decode) is not such a URL. *)
Theorem firstNavigation_origin_form_injects :
  forall (D C : Z) (a : bool) (b : Browser) (auth : AuthStorage)
         (base pagePath : string) (p : Page),
    Url.origin_of base = Some base ->
    Url.is_absolute_path pagePath = true ->
    evaluateOnNewDocumentFails b = None ->
    let self := {| authStorage := auth; homeAssistantUrl := base |} in
    newCalls p
      (snd (call D C a Url.resolve b self pagePath true None p))
    = [CallEvaluateOnNewDocument auth;
       CallGoto (base ++ pagePath)%string;
       CallRemoveScriptToEvaluateOnNewDocument (nextIdentifier p)].
Proof.
  intros D C a b auth base pagePath p Horigin Hpath Hreg self.
  unfold call. rewrite firstNavigation_newCalls.
  unfold resolvePageUrl. cbn [truthy homeAssistantUrl self].
  rewrite (resolve_origin_form base pagePath Horigin Hpath).
  unfold shouldInjectAuth, startsWith. cbn [homeAssistantUrl self].
  rewrite prefix_app, Hreg. reflexivity.
Qed.

(** The configured URLs of the unit tests' non-default ports. *)
Lemma firstNavigation_origin_form_injects_witness :
  (Url.origin_of "https://ha.example.com:8443" = Some "https://ha.example.com:8443"
   /\ Url.is_absolute_path "/lovelace/dashboard" = true
   /\ evaluateOnNewDocumentFails mockBrowser = None)
  /\ newCalls mockPage
       (snd (call 2000 5000 false Url.resolve mockBrowser
               (navigator "https://ha.example.com:8443") "/lovelace/dashboard"
               true None mockPage))
     = [CallEvaluateOnNewDocument STUB_AUTH;
        CallGoto "https://ha.example.com:8443/lovelace/dashboard";
        CallRemoveScriptToEvaluateOnNewDocument 1].
Proof.
  split; [repeat split; reflexivity|].
  exact (firstNavigation_origin_form_injects 2000 5000 false mockBrowser
           STUB_AUTH "https://ha.example.com:8443" "/lovelace/dashboard"
           mockPage eq_refl eq_refl eq_refl).
Defined.

End NavigationMore.

(* ------------------------------------------------------------------ *)
(** ** Further properties of the readiness detectors *)

Module DetectorMore.
Import Js Detectors DetectorSpecs DetectorFacts Scenarios.
Local Open Scope list_scope.

(** *** WaitForLoadingComplete *)

Lemma LoadingInv_init (evaluate : nat -> Completion bool) :
  LoadingInv evaluate loadingInit.
Proof.
  split; [reflexivity|]. intros j Hj. cbn in Hj. lia.
Qed.

Lemma LoadingInv_step (now : nat -> Z) (evaluate : nat -> Completion bool)
    (timeout start : Z) (s s' : LoadingState) :
  LoadingInv evaluate s ->
  loadingStep now evaluate timeout start s = inl s' ->
  LoadingInv evaluate s'.
Proof.
  intros [Hreads Hbusy] Hstep. unfold loadingStep in Hstep.
  destruct (now (loadingReads s) - start <? timeout); [|discriminate].
  destruct (evaluate (loadingPolls s)) as [[|]|e] eqn:Hpoll; try discriminate.
  injection Hstep as <-. split; cbn [loadingReads loadingPolls].
  - rewrite Hreads. reflexivity.
  - intros j Hj.
    destruct (Nat.eq_dec j (loadingPolls s)) as [->|Hne];
      [exact Hpoll | apply Hbusy; lia].
Qed.

(** WaitForLoadingComplete returns at the first poll that finds no
    visible loading indicator: when it reports the indicators cleared,
    the poll it stopped at found none and every earlier poll found some;
    when it reports a timeout, every poll it made found some and the
    deadline had passed at the head of the round. *)
Theorem WaitForLoadingComplete_first_clear_poll :
  forall (now : nat -> Z) (evaluate : nat -> Completion bool) (timeout : Z)
         (fuel : nat) (s : LoadingState) (o : Outcome Z),
    WaitForLoadingComplete_call now evaluate timeout fuel = Some (s, o) ->
    (forall j : nat, (j < loadingPolls s)%nat -> evaluate j = Returned true)
    /\ (forall actualWait : Z,
          In (LogLoadingCleared actualWait) (logged o) ->
          evaluate (loadingPolls s) = Returned false
          /\ now (S (loadingPolls s)) - now 0%nat < timeout
          /\ actualWait = now (S (S (loadingPolls s))) - now 0%nat
          /\ result o = Returned actualWait)
    /\ (forall actualWait : Z,
          In (LogLoadingTimeout actualWait) (logged o) ->
          timeout <= now (S (loadingPolls s)) - now 0%nat
          /\ actualWait = now (S (S (loadingPolls s))) - now 0%nat
          /\ result o = Returned actualWait).
Proof.
  intros now evaluate timeout fuel s o Hrun.
  unfold WaitForLoadingComplete_call in Hrun.
  pose proof (iterate_invariant _ (LoadingInv evaluate)
                (LoadingInv_step now evaluate timeout (now 0%nat))
                fuel _ _ _ (LoadingInv_init evaluate) Hrun)
    as [Hreads Hbusy].
  apply iterate_stops, loadingStep_leaves in Hrun.
  rewrite Hreads in Hrun.
  split; [exact Hbusy|].
  destruct Hrun as [(Hguard & Hclear & ->) | [(_ & e & _ & ->) | (Hlate & ->)]];
    cbn [logged result]; split; intros w Hin.
  - destruct Hin as [Hin | []]. injection Hin as <-. auto.
  - destruct Hin as [Hin | []]. discriminate.
  - destruct Hin.
  - destruct Hin.
  - destruct Hin as [Hin | []]. discriminate.
  - destruct Hin as [Hin | []]. injection Hin as <-. auto.
Qed.

(** A dashboard whose spinner disappears at the third poll. *)
Lemma WaitForLoadingComplete_first_clear_poll_witness :
  WaitForLoadingComplete_call steadyClock
    (fun k => Returned (k <? 2)%nat) 10000 10
  = Some ({| loadingReads := 3; loadingPolls := 2 |},
          {| result := Returned 400; logged := [LogLoadingCleared 400] |})
  /\ (forall j : nat, (j < 2)%nat -> Returned (j <? 2)%nat = Returned true).
Proof.
  assert (Hrun : WaitForLoadingComplete_call steadyClock
                   (fun k => Returned (k <? 2)%nat) 10000 10
                 = Some ({| loadingReads := 3; loadingPolls := 2 |},
                         {| result := Returned 400;
                            logged := [LogLoadingCleared 400] |}))
    by reflexivity.
  split; [exact Hrun|].
  exact (proj1 (WaitForLoadingComplete_first_clear_poll _ _ _ _ _ _ Hrun)).
Defined.

(** *** WaitForNetworkIdle *)

(** A verdict of idle is never faster than the quiet window: with a
    clock that does not run backwards, the wait logged with it and the
    value returned are at least [idleTime], even when no request was
    ever seen. *)
Theorem WaitForNetworkIdle_idle_takes_the_quiet_window :
  forall (now : nat -> Z) (attachFails : option string)
         (inbox : nat -> list NetworkEvent) (detachFails : option string)
         (timeout idleTime : Z) (fuel : nat)
         (fs : option NetState) (o : Outcome Z) (actualWait : Z),
    monotone now ->
    WaitForNetworkIdle_call now attachFails inbox detachFails timeout idleTime
      fuel = Some (fs, o) ->
    In (LogNetworkIdle actualWait) (logged o) ->
    idleTime <= actualWait
    /\ exists v : Z, result o = Returned v /\ idleTime <= v.
Proof.
  intros now attachFails inbox detachFails timeout idleTime fuel fs o w
    Hmono Hcall Hin.
  destruct (WaitForNetworkIdle_call_inv _ _ _ _ _ _ _ _ _ Hcall)
    as [(message & _ & _ & ->) | (s & _ & [_ [i [Hi Hlast]]] & Hstep)].
  - destruct Hin as [Hin | []]. discriminate.
  - apply netStep_leaves in Hstep.
    destruct Hstep as [(_ & _ & Hquiet & Hlog & k & Hk & Hv) | (_ & _ & Hlog)].
    + pose proof (Hmono 0%nat i ltac:(lia)) as Hstart.
      pose proof (Hmono (S (netReads s)) (S (S (netReads s))) ltac:(lia)).
      pose proof (Hmono (S (netReads s)) k ltac:(lia)).
      rewrite Hlast in Hquiet.
      assert (Hw : w = now (S (S (netReads s))) - now 0%nat).
      { destruct Hlog as [Hlog | [message Hlog]]; rewrite Hlog in Hin.
        - destruct Hin as [Hin | []]. injection Hin as <-. reflexivity.
        - destruct Hin as [Hin | [Hin | []]]; [|discriminate].
          injection Hin as <-. reflexivity. }
      split; [lia|]. eexists. split; [exact Hv | lia].
    + destruct Hlog as [Hlog | [message Hlog]]; rewrite Hlog in Hin;
        destruct Hin as [Hin | []]; discriminate.
Qed.

Lemma WaitForNetworkIdle_idle_takes_the_quiet_window_witness :
  500 <= 600 /\ exists v : Z, Returned 600 = Returned v /\ 500 <= v.
Proof.
  apply (WaitForNetworkIdle_idle_takes_the_quiet_window (pollingClock 100)
           None (fun _ => []) None 10000 500 200%nat
           (Some {| pendingRequests := 0; lastActivityTime := T0;
                    netReads := 14; netSleeps := 6 |})
           {| result := Returned 600; logged := [LogNetworkIdle 600] |} 600).
  - apply pollingClock_monotone. lia.
  - vm_compute. reflexivity.
  - left. reflexivity.
Defined.

(** The counter against the events.  After any events the counter is at
    least what it was plus the requests started minus the requests
    completed: clamping at 0 only ever raises it.  It is exactly that
    when every completion matches a request counted before it. *)
Theorem pendingRequests_counts_started_minus_completed :
  forall (now : nat -> Z) (events : list NetworkEvent) (s : NetState),
    pendingRequests s + started events - completed events
    <= pendingRequests (deliver now events s)
    /\ (matched (pendingRequests s) events = true ->
        pendingRequests (deliver now events s)
        = pendingRequests s + started events - completed events).
Proof.
  intros now events. unfold deliver, started, completed.
  induction events as [|e events IH]; intros s.
  - cbn. split; [lia | intros _; lia].
  - destruct (IH (dispatch now s e)) as [IHle IHeq].
    cbn [fold_left]. destruct e;
      cbn [filter List.length matched dispatch onRequestWillBeSent
             onLoadingFinished onLoadingFailed pendingRequests] in *;
      rewrite ?Nat2Z.inj_succ; split; try lia;
      intros Hm; try apply andb_true_iff in Hm as [Hpos Hm];
      try apply Z.ltb_lt in Hpos.
    + rewrite (IHeq Hm). lia.
    + assert (Hc : Z.max 0 (pendingRequests s - 1) = pendingRequests s - 1)
        by lia.
      rewrite Hc in IHeq. rewrite (IHeq Hm). lia.
    + assert (Hc : Z.max 0 (pendingRequests s - 1) = pendingRequests s - 1)
        by lia.
      rewrite Hc in IHeq. rewrite (IHeq Hm). lia.
Qed.

(** Three requests, two of them done. *)
Lemma pendingRequests_counts_started_minus_completed_witness :
  matched 0 [RequestWillBeSent; RequestWillBeSent; LoadingFinished;
             RequestWillBeSent; LoadingFailed] = true
  /\ pendingRequests
       (deliver steadyClock
          [RequestWillBeSent; RequestWillBeSent; LoadingFinished;
           RequestWillBeSent; LoadingFailed] (netInit steadyClock))
     = 0 + 3 - 2.
Proof.
  split; [reflexivity|].
  apply (pendingRequests_counts_started_minus_completed steadyClock
           [RequestWillBeSent; RequestWillBeSent; LoadingFinished;
            RequestWillBeSent; LoadingFailed] (netInit steadyClock)).
  reflexivity.
Defined.

(** *** WaitForPageStable *)

(** A page whose metrics never change is declared stable with the
    fourth sample, and with the third when both metrics are 0 (a page
    without a [home-assistant] element): the first sample is compared
    with the initial 0 and 0, so it counts as unchanged exactly then. *)
Theorem WaitForPageStable_constant_page :
  forall (now : nat -> Z) (timeout : Z) (m : StabilityMetrics) (fuel : nat),
    (forall n : nat, (1 <= n <= 4)%nat -> now n - now 0%nat < timeout) ->
    (4 <= fuel)%nat ->
    exists (s : StableState) (actualWait : Z),
      WaitForPageStable_call now (fun _ => Returned m) timeout fuel
      = Some (s, {| result := Returned actualWait;
                    logged := [LogPageStable actualWait 3] |})
      /\ stablePolls s
         = (if (height m =? 0) && (contentHash m =? 0) then 2%nat else 3%nat)
      /\ actualWait = now (S (S (stablePolls s))) - now 0%nat.
Proof.
  intros now timeout m fuel Hguard Hfuel.
  destruct fuel as [|[|[|[|fuel]]]]; try lia.
  assert (H1 : (now 1%nat - now 0%nat <? timeout) = true)
    by (apply Z.ltb_lt, Hguard; lia).
  assert (H2 : (now 2%nat - now 0%nat <? timeout) = true)
    by (apply Z.ltb_lt, Hguard; lia).
  assert (H3 : (now 3%nat - now 0%nat <? timeout) = true)
    by (apply Z.ltb_lt, Hguard; lia).
  assert (H4 : (now 4%nat - now 0%nat <? timeout) = true)
    by (apply Z.ltb_lt, Hguard; lia).
  unfold WaitForPageStable_call, stableInit.
  cbn [iterate]. unfold stableStep at 1.
  cbn [stableReads stablePolls stableChecks lastHeight lastContent].
  rewrite H1.
  destruct ((height m =? 0) && (contentHash m =? 0)) eqn:Hzero.
  - change (0 + 1 >=? requiredStableChecks) with false. cbv iota.
    cbn [iterate]. unfold stableStep at 1.
    cbn [stableReads stablePolls stableChecks lastHeight lastContent].
    rewrite H2, !Z.eqb_refl. cbn [andb].
    change (0 + 1 + 1 >=? requiredStableChecks) with false. cbv iota.
    cbn [iterate]. unfold stableStep at 1.
    cbn [stableReads stablePolls stableChecks lastHeight lastContent].
    rewrite H3, !Z.eqb_refl. cbn [andb].
    change (0 + 1 + 1 + 1 >=? requiredStableChecks) with true. cbv iota.
    eexists. eexists. split; [reflexivity|]. split; reflexivity.
  - cbn [iterate]. unfold stableStep at 1.
    cbn [stableReads stablePolls stableChecks lastHeight lastContent].
    rewrite H2, !Z.eqb_refl. cbn [andb].
    change (0 + 1 >=? requiredStableChecks) with false. cbv iota.
    cbn [iterate]. unfold stableStep at 1.
    cbn [stableReads stablePolls stableChecks lastHeight lastContent].
    rewrite H3, !Z.eqb_refl. cbn [andb].
    change (0 + 1 + 1 >=? requiredStableChecks) with false. cbv iota.
    cbn [iterate]. unfold stableStep at 1.
    cbn [stableReads stablePolls stableChecks lastHeight lastContent].
    rewrite H4, !Z.eqb_refl. cbn [andb].
    change (0 + 1 + 1 + 1 >=? requiredStableChecks) with true. cbv iota.
    eexists. eexists. split; [reflexivity|]. split; reflexivity.
Qed.

(** A dashboard 480 high whose content does not change, sampled every
    100 ms: stable with the fourth sample. *)
Lemma WaitForPageStable_constant_page_witness :
  exists (s : StableState) (actualWait : Z),
    WaitForPageStable_call steadyClock
      (fun _ => Returned {| height := 480; contentHash := 1000 |}) 5000 10
    = Some (s, {| result := Returned actualWait;
                  logged := [LogPageStable actualWait 3] |})
    /\ stablePolls s = 3%nat
    /\ actualWait = steadyClock (S (S (stablePolls s))) - steadyClock 0.
Proof.
  apply (WaitForPageStable_constant_page steadyClock 5000
           {| height := 480; contentHash := 1000 |} 10).
  - intros n Hn. unfold steadyClock. lia.
  - lia.
Defined.




End DetectorMore.

(* ------------------------------------------------------------------ *)
(** ** The search for loading indicators *)

Module DomFacts.
Import Dom.
Local Open Scope list_scope.
Local Open Scope nat_scope.

(** Induction over the element tree, children and shadow root alike. *)
Lemma Element_induction (P : Element -> Prop) :
  (forall n cl at_ d v ch sr,
      Forall P ch ->
      match sr with Some l => Forall P l | None => True end ->
      P (mkElement n cl at_ d v ch sr)) ->
  forall e : Element, P e.
Proof.
  intros H. fix IH 1. intros [n cl at_ d v ch sr]. apply H.
  - induction ch as [|c ch IHch]; constructor; [apply IH | exact IHch].
  - destruct sr as [l|]; [|exact I].
    induction l as [|c l IHl]; constructor; [apply IH | exact IHl].
Qed.

Lemma list_max_map_In {A : Type} (f : A -> nat) (l : list A) (x : A) :
  In x l -> f x <= list_max (map f l).
Proof.
  induction l as [|y l IH]; intros Hin; [destruct Hin|].
  cbn [map list_max fold_right]. destruct Hin as [-> | Hin].
  - apply Nat.le_max_l.
  - etransitivity; [apply IH, Hin | apply Nat.le_max_r].
Qed.

Lemma subtree_depth (e : Element) :
  forall x : Element, In x (subtree e) -> shadowDepth x <= shadowDepth e.
Proof.
  induction e as [n cl at_ d v ch sr IHch _] using Element_induction.
  intros x [<- | Hin]; [reflexivity|].
  apply in_flat_map in Hin as [c [Hc Hx]].
  rewrite Forall_forall in IHch.
  etransitivity; [apply (IHch c Hc x Hx)|].
  cbn [shadowDepth].
  etransitivity; [apply (list_max_map_In shadowDepth ch c Hc)|].
  apply Nat.le_max_l.
Qed.

Lemma descendant_depth (root : list Element) (x : Element) :
  In x (querySelectorAll_any root) -> shadowDepth x <= rootDepth root.
Proof.
  unfold querySelectorAll_any, rootDepth. intros Hin.
  apply in_flat_map in Hin as [t [Ht Hx]].
  etransitivity; [apply (subtree_depth t x Hx)|].
  apply list_max_map_In, Ht.
Qed.

Lemma shadowRoot_depth (x : Element) (sr : list Element) :
  shadowRoot x = Some sr -> rootDepth sr < shadowDepth x.
Proof.
  destruct x as [n cl at_ d v ch s]. cbn [shadowRoot shadowDepth].
  intros ->. unfold rootDepth. lia.
Qed.

(** One unfolding of [checkShadowRoot], with the second loop read as a
    search through the elements. *)
Lemma checkShadowRoot_step (fuel : nat) (root : list Element) (b : bool) :
  checkShadowRoot (S fuel) root = Some b ->
  (b = true <->
   existsb isVisible (querySelectorAll_loading root) = true
   \/ exists host sr,
        In host (querySelectorAll_any root)
        /\ shadowRoot host = Some sr
        /\ checkShadowRoot fuel sr = Some true)
  /\ (b = false ->
      forall host sr,
        In host (querySelectorAll_any root) ->
        shadowRoot host = Some sr ->
        checkShadowRoot fuel sr = Some false).
Proof.
  cbn [checkShadowRoot].
  destruct (existsb isVisible (querySelectorAll_loading root)) eqn:Hvisible.
  - intros H. injection H as <-. split; [tauto | discriminate].
  - generalize (querySelectorAll_any root) as els.
    induction els as [|el rest IH]; intros H.
    + injection H as <-. split.
      * split; [discriminate|].
        intros [Hf | (host & sr & [] & _)]. discriminate.
      * intros _ host sr [].
    + destruct (shadowRoot el) as [sr|] eqn:Hsr.
      * destruct (checkShadowRoot fuel sr) as [[|]|] eqn:Hcheck;
          [| |discriminate].
        -- injection H as <-. split; [|discriminate].
           split; [|reflexivity]. intros _. right.
           exists el, sr. cbn. auto.
        -- destruct (IH H) as [Htrue Hfalse]. split.
           ++ rewrite Htrue. split.
              ** intros [Hf | (host & sr' & Hin & Hs & Hc)]; [now left|].
                 right. exists host, sr'. cbn. auto.
              ** intros [Hf | (host & sr' & [<- | Hin] & Hs & Hc)];
                   [now left | congruence |].
                 right. exists host, sr'. auto.
           ++ intros Hb host sr' [<- | Hin] Hs; [congruence|].
              exact (Hfalse Hb host sr' Hin Hs).
      * destruct (IH H) as [Htrue Hfalse]. split.
        -- rewrite Htrue. split.
           ++ intros [Hf | (host & sr' & Hin & Hs & Hc)]; [now left|].
              right. exists host, sr'. cbn. auto.
           ++ intros [Hf | (host & sr' & [<- | Hin] & Hs & Hc)];
                [now left | congruence |].
              right. exists host, sr'. auto.
        -- intros Hb host sr' [<- | Hin] Hs; [congruence|].
           exact (Hfalse Hb host sr' Hin Hs).
Qed.

(** The second loop ends when every recursive call does. *)
Lemma checkShadowRoot_total_step (fuel : nat) (root : list Element) :
  (forall host sr,
      In host (querySelectorAll_any root) ->
      shadowRoot host = Some sr ->
      checkShadowRoot fuel sr <> None) ->
  checkShadowRoot (S fuel) root <> None.
Proof.
  cbn [checkShadowRoot].
  destruct (existsb isVisible (querySelectorAll_loading root));
    [discriminate|].
  generalize (querySelectorAll_any root) as els.
  induction els as [|el rest IH]; intros Hall; [discriminate|].
  destruct (shadowRoot el) as [sr|] eqn:Hsr.
  - destruct (checkShadowRoot fuel sr) as [[|]|] eqn:Hcheck.
    + discriminate.
    + apply IH. intros host sr' Hin. apply Hall. now right.
    + exfalso. apply (Hall el sr); [now left | exact Hsr | exact Hcheck].
  - apply IH. intros host sr' Hin. apply Hall. now right.
Qed.

Lemma visible_indicator_found (root : list Element) :
  existsb isVisible (querySelectorAll_loading root) = true <->
  exists el,
    In el (querySelectorAll_any root)
    /\ matchesLoadingSelectors el = true /\ isVisible el = true.
Proof.
  unfold querySelectorAll_loading. rewrite existsb_exists. split.
  - intros (el & Hin & Hv). apply filter_In in Hin as [Hin Hm].
    exists el. auto.
  - intros (el & Hin & Hm & Hv). exists el. split; [|exact Hv].
    apply filter_In. auto.
Qed.

(** The script of WaitForLoadingComplete answers true exactly when some
    element that matches the loading selectors and is visible
    ([display] not [none], [visibility] not [hidden]) lies inside the
    shadow root it is given, at whatever depth of nested shadow roots;
    and the recursion ends once the fuel exceeds that depth. *)
Theorem checkShadowRoot_finds_visible_indicator :
  forall root : list Element,
    (forall (fuel : nat) (b : bool),
        checkShadowRoot fuel root = Some b ->
        (b = true <->
         exists el : Element,
           Inside root el
           /\ matchesLoadingSelectors el = true
           /\ isVisible el = true))
    /\ (forall fuel : nat,
          rootDepth root < fuel -> checkShadowRoot fuel root <> None).
Proof.
  intros root. split.
  - intros fuel. revert root.
    induction fuel as [|fuel IH]; intros root b Hcheck; [discriminate|].
    destruct (checkShadowRoot_step fuel root b Hcheck) as [Htrue Hfalse].
    split.
    + intros Hb. apply Htrue in Hb.
      destruct Hb as [Hhere | (host & sr & Hin & Hsr & Hrec)].
      * apply visible_indicator_found in Hhere as (el & Hin & Hm & Hv).
        exists el. split; [apply inside_here, Hin | auto].
      * destruct (proj1 (IH sr true Hrec) eq_refl) as (el & Hinside & Hm & Hv).
        exists el. split; [exact (inside_shadow root host sr el Hin Hsr Hinside) | auto].
    + intros (el & Hinside & Hm & Hv).
      destruct b; [reflexivity|]. exfalso.
      specialize (Hfalse eq_refl).
      destruct Hinside as [e Hin | host sr e Hin Hsr Hinside].
      * assert (Hhere : existsb isVisible (querySelectorAll_loading root) = true)
          by (apply visible_indicator_found; exists e; auto).
        assert (Hb : false = true) by (apply Htrue; now left).
        discriminate.
      * pose proof (Hfalse host sr Hin Hsr) as Hrec.
        assert (Hb : false = true)
          by (apply (IH sr false Hrec); exists e; auto).
        discriminate.
  - intros fuel. revert root.
    induction fuel as [|fuel IH]; intros root Hdepth; [lia|].
    apply checkShadowRoot_total_step. intros host sr Hin Hsr.
    apply IH.
    pose proof (descendant_depth root host Hin).
    pose proof (shadowRoot_depth host sr Hsr). lia.
Qed.

(** A spinner two shadow roots below the root given to the script is
    found; the same spinner with [display: none] is not. *)
Lemma checkShadowRoot_finds_visible_indicator_witness :
  let root := [DomScenarios.view DomScenarios.spinner] in
  (checkShadowRoot 2 root = Some true /\ rootDepth root < 2)
  /\ (exists el : Element,
        Inside root el
        /\ matchesLoadingSelectors el = true /\ isVisible el = true)
  /\ checkShadowRoot 2 root <> None.
Proof.
  cbv zeta.
  destruct (checkShadowRoot_finds_visible_indicator
              [DomScenarios.view DomScenarios.spinner]) as [Hfound Hends].
  assert (Hrun : checkShadowRoot 2 [DomScenarios.view DomScenarios.spinner]
                 = Some true) by reflexivity.
  assert (Hdepth : rootDepth [DomScenarios.view DomScenarios.spinner] < 2)
    by (vm_compute; lia).
  split; [split; assumption|]. split.
  - apply (Hfound 2 true Hrun). reflexivity.
  - apply Hends. exact Hdepth.
Defined.

End DomFacts.

(* ------------------------------------------------------------------ *)
(** ** Properties of buildParams *)

Module ParamsBuilderFacts.
Import ParamsBuilder.

(** The page path that [buildParams] hands on is never empty, and a
    target URL is handed on only for a schedule in generic mode
    ([ha_mode] false), whose page path is then [/]. *)
Theorem buildParams_pagePath_never_empty :
  forall (Num : Type) (one : Num) (schedule : Schedule.t Num),
    let params := buildParams one schedule in
    ScreenshotParams.pagePath params <> ""
    /\ (ScreenshotParams.targetUrl params <> None ->
        ScreenshotTarget.ha_mode (Schedule.target schedule) = Some false
        /\ ScreenshotParams.pagePath params = "/"
        /\ ScreenshotParams.targetUrl params
           = ScreenshotTarget.target_url (Schedule.target schedule)).
Proof.
  intros Num one schedule params. subst params.
  unfold buildParams, ScreenshotTarget.resolveScreenshotTarget.
  cbn [ScreenshotParams.pagePath ScreenshotParams.targetUrl].
  destruct (ScreenshotTarget.ha_mode (Schedule.target schedule)) as [[|]|];
    cbn [ScreenshotTarget.path ScreenshotTarget.fullUrl].
  - split; [|congruence].
    destruct (ScreenshotTarget.dashboard_path (Schedule.target schedule))
      as [[|c p]|]; cbn; discriminate.
  - split; [discriminate | auto].
  - split; [|congruence].
    destruct (ScreenshotTarget.dashboard_path (Schedule.target schedule))
      as [[|c p]|]; cbn; discriminate.
Qed.

(** A schedule in generic mode with its target. *)
Lemma buildParams_pagePath_never_empty_witness :
  let schedule :=
    {| Schedule.target :=
         {| ScreenshotTarget.ha_mode := Some false;
            ScreenshotTarget.dashboard_path := Some "/lovelace/ignored";
            ScreenshotTarget.target_url := Some "https://example.com/page" |};
       Schedule.format := Value "png";
       Schedule.viewport :=
         Value {| Viewport.width := 800; Viewport.height := 480 |};
       Schedule.crop := Undefined; Schedule.dithering := Undefined;
       Schedule.wait := Null; Schedule.zoom := Value 1%Z;
       Schedule.invert := Value false; Schedule.dark := Value false;
       Schedule.rotate := Null; Schedule.lang := Null;
       Schedule.theme := Null |} in
  ScreenshotParams.targetUrl (buildParams 1%Z schedule) <> None
  /\ ScreenshotParams.pagePath (buildParams 1%Z schedule) = "/".
Proof.
  cbv zeta. split; [discriminate|].
  refine (proj1 (proj2 (proj2 (buildParams_pagePath_never_empty Z 1%Z _) _))).
  discriminate.
Defined.

(** What [buildParams] does with missing and disabled settings.  A crop
    region is handed on only when it is enabled, and is [null]
    otherwise, never [undefined]; a dithering configuration only when it
    is enabled, and is [undefined] otherwise; wait, rotation, language
    and theme are never [null] in the result ([null] in the schedule
    becomes [undefined]); an empty format becomes [png]; and a zoom,
    invert or dark setting that is present is kept as it is. *)
Theorem buildParams_absent_and_disabled :
  forall (Num : Type) (one : Num) (schedule : Schedule.t Num),
    let params := buildParams one schedule in
    (forall c : CropRegion.t,
        ScreenshotParams.crop params = Value c <->
        Schedule.crop schedule = Value c /\ CropRegion.enabled c = true)
    /\ ScreenshotParams.crop params <> Undefined
    /\ (forall d : DitheringConfig.t,
          ScreenshotParams.dithering params = Value d <->
          Schedule.dithering schedule = Value d
          /\ DitheringConfig.enabled d = true)
    /\ ScreenshotParams.dithering params <> Null
    /\ (ScreenshotParams.extraWait params <> Null
        /\ ScreenshotParams.rotate params <> Null
        /\ ScreenshotParams.lang params <> Null
        /\ ScreenshotParams.theme params <> Null)
    /\ ScreenshotParams.format params <> ""
    /\ (forall z : Num,
          Schedule.zoom schedule = Value z -> ScreenshotParams.zoom params = z)
    /\ (forall b : bool,
          Schedule.invert schedule = Value b ->
          ScreenshotParams.invert params = b)
    /\ (forall b : bool,
          Schedule.dark schedule = Value b -> ScreenshotParams.dark params = b).
Proof.
  intros Num one schedule params. subst params. unfold buildParams.
  cbn [ScreenshotParams.crop ScreenshotParams.dithering
         ScreenshotParams.extraWait ScreenshotParams.rotate
         ScreenshotParams.lang ScreenshotParams.theme
         ScreenshotParams.format ScreenshotParams.zoom
         ScreenshotParams.invert ScreenshotParams.dark].
  repeat match goal with |- _ /\ _ => split end.
  - intros c. destruct (Schedule.crop schedule) as [| |c'];
      [split; [discriminate | intros [H _]; discriminate]..|].
    destruct (CropRegion.enabled c') eqn:He; split.
    + intros H. injection H as <-. auto.
    + intros [H _]. exact H.
    + discriminate.
    + intros [H Hc]. injection H as <-. congruence.
  - destruct (Schedule.crop schedule) as [| |c']; try discriminate.
    destruct (CropRegion.enabled c'); discriminate.
  - intros d. destruct (Schedule.dithering schedule) as [| |d'];
      [split; [discriminate | intros [H _]; discriminate]..|].
    destruct (DitheringConfig.enabled d') eqn:He; split.
    + intros H. injection H as <-. auto.
    + intros [H _]. exact H.
    + discriminate.
    + intros [H Hd]. injection H as <-. congruence.
  - destruct (Schedule.dithering schedule) as [| |d']; try discriminate.
    destruct (DitheringConfig.enabled d'); discriminate.
  - destruct (Schedule.wait schedule); discriminate.
  - destruct (Schedule.rotate schedule); discriminate.
  - destruct (Schedule.lang schedule); discriminate.
  - destruct (Schedule.theme schedule); discriminate.
  - destruct (Schedule.format schedule) as [| |[|c s]]; discriminate.
  - intros z ->. reflexivity.
  - intros b ->. reflexivity.
  - intros b ->. reflexivity.
Qed.

(** The schedule of tests/unit/params-builder.test.ts with a crop
    region that is switched off and a zoom of 0. *)
Lemma buildParams_absent_and_disabled_witness :
  let schedule :=
    {| Schedule.target :=
         {| ScreenshotTarget.ha_mode := None;
            ScreenshotTarget.dashboard_path := Some "/lovelace/0";
            ScreenshotTarget.target_url := None |};
       Schedule.format := Value "";
       Schedule.viewport := Undefined;
       Schedule.crop :=
         Value {| CropRegion.enabled := false; CropRegion.x := 10;
                  CropRegion.y := 20; CropRegion.width := 400;
                  CropRegion.height := 300 |};
       Schedule.dithering := Undefined;
       Schedule.wait := Null; Schedule.zoom := Value 0%Z;
       Schedule.invert := Undefined; Schedule.dark := Value true;
       Schedule.rotate := Null; Schedule.lang := Null;
       Schedule.theme := Null |} in
  Schedule.zoom schedule = Value 0%Z
  /\ ScreenshotParams.zoom (buildParams 1%Z schedule) = 0%Z.
Proof.
  cbv zeta. split; [reflexivity|].
  refine (proj1 (proj2 (proj2 (proj2 (proj2 (proj2 (proj2
            (buildParams_absent_and_disabled Z 1%Z _))))))) 0%Z _).
  reflexivity.
Defined.

End ParamsBuilderFacts.

(* ------------------------------------------------------------------ *)
(** ** Properties of the dashboard list *)

Module DashboardFacts.
Import Dashboards.
Local Open Scope list_scope.

Lemma addToSet_spec (set : list string) (value x : string) :
  In x (addToSet set value) <-> In x set \/ x = value.
Proof.
  unfold addToSet.
  destruct (existsb (String.eqb value) set) eqn:Hmem.
  - apply existsb_exists in Hmem as (y & Hy & Heq).
    apply String.eqb_eq in Heq. subst y. split; [auto|].
    intros [H | ->]; assumption.
  - rewrite in_app_iff. cbn. intuition congruence.
Qed.

Lemma addToSet_NoDup (set : list string) (value : string) :
  NoDup set -> NoDup (addToSet set value).
Proof.
  intros Hset. unfold addToSet.
  destruct (existsb (String.eqb value) set) eqn:Hmem; [exact Hset|].
  apply NoDup_app; [exact Hset | repeat constructor; intros [] |].
  intros x Hx [Heq | []]. subst x.
  assert (Hex : existsb (String.eqb value) set = true)
    by (apply existsb_exists; exists value; split;
        [exact Hx | apply String.eqb_refl]).
  congruence.
Qed.

Lemma addToSet_extends (set : list string) (value : string) :
  exists more, addToSet set value = set ++ more.
Proof.
  unfold addToSet. destruct (existsb _ set).
  - exists []. now rewrite app_nil_r.
  - eexists. reflexivity.
Qed.

Lemma fold_addToSet (values : list string) :
  forall set : list string,
    NoDup set ->
    NoDup (fold_left addToSet values set)
    /\ (forall x, In x (fold_left addToSet values set)
                  <-> In x set \/ In x values)
    /\ exists more, fold_left addToSet values set = set ++ more.
Proof.
  induction values as [|v values IH]; intros set Hset; cbn [fold_left].
  - split; [exact Hset|]. split.
    + intros x. cbn. tauto.
    + exists []. now rewrite app_nil_r.
  - destruct (IH (addToSet set v) (addToSet_NoDup set v Hset))
      as (Hnd & Hin & more & Hmore).
    split; [exact Hnd|]. split.
    + intros x. rewrite Hin, addToSet_spec. cbn. intuition.
    + destruct (addToSet_extends set v) as [m Hm].
      exists (m ++ more). rewrite Hmore, Hm, app_assoc. reflexivity.
Qed.

Lemma fold_pushDashboard (result : list DashboardInfo) :
  forall dashboards : list string,
    (forall x,
        In x (fold_left pushDashboard result dashboards) <->
        In x dashboards
        \/ exists d, In d result /\ url_path d <> "" /\ In x (variants d))
    /\ exists more,
         fold_left pushDashboard result dashboards = dashboards ++ more.
Proof.
  induction result as [|d result IH]; intros dashboards; cbn [fold_left].
  - split.
    + intros x. split; [auto|]. intros [H | (d & [] & _)]. exact H.
    + exists []. now rewrite app_nil_r.
  - destruct (IH (pushDashboard dashboards d)) as [Hin [more Hmore]].
    unfold pushDashboard in *.
    destruct (String.eqb (url_path d) "") eqn:Hempty.
    + apply String.eqb_eq in Hempty. split; [|exists more; exact Hmore].
      intros x. rewrite Hin. split.
      * intros [H | (d' & Hd' & Hne & Hx)]; [now left|].
        right. exists d'. cbn. auto.
      * intros [H | (d' & [<- | Hd'] & Hne & Hx)];
          [now left | congruence |].
        right. exists d'. auto.
    + apply String.eqb_neq in Hempty. split.
      * intros x. rewrite Hin, in_app_iff. split.
        -- intros [[H | H] | (d' & Hd' & Hne & Hx)].
           ++ now left.
           ++ right. exists d. cbn. auto.
           ++ right. exists d'. cbn. auto.
        -- intros [H | (d' & [<- | Hd'] & Hne & Hx)].
           ++ left. now left.
           ++ left. now right.
           ++ right. exists d'. auto.
      * exists (variants d ++ more). rewrite Hmore, app_assoc. reflexivity.
Qed.

Lemma defaultDashboards_NoDup : NoDup defaultDashboards.
Proof.
  unfold defaultDashboards.
  repeat (constructor;
          [cbn; intros H;
           repeat (destruct H as [H | H]; [discriminate|]); exact H|]).
  constructor.
Qed.

(** The list of dashboards offered by the configuration page names no
    path twice; it begins with the seven built-in paths in their order;
    and beyond those it holds exactly the four variants of every
    dashboard that has a URL path, dashboards without one adding
    nothing.  When the list of dashboards could not be fetched it is the
    seven built-in paths. *)
Theorem dashboardList_unique_defaults_first :
  forall dashboardsResult : option (list DashboardInfo),
    NoDup (dashboardList dashboardsResult)
    /\ firstn 7 (dashboardList dashboardsResult) = defaultDashboards
    /\ (forall x : string,
          In x (dashboardList dashboardsResult) <->
          In x defaultDashboards
          \/ exists (result : list DashboardInfo) (d : DashboardInfo),
               dashboardsResult = Some result
               /\ In d result /\ url_path d <> "" /\ In x (variants d)).
Proof.
  intros [result|]; unfold dashboardList.
  - destruct (fold_pushDashboard result defaultDashboards)
      as [Hpushed [more Hmore]].
    unfold unique. rewrite Hmore, fold_left_app.
    assert (Hdefaults : fold_left addToSet defaultDashboards []
                        = defaultDashboards) by reflexivity.
    rewrite Hdefaults.
    destruct (fold_addToSet more defaultDashboards defaultDashboards_NoDup)
      as (Hnd & Hin & rest & Hrest).
    split; [exact Hnd|]. split.
    + rewrite Hrest. reflexivity.
    + intros x. rewrite Hin. rewrite <- in_app_iff, <- Hmore, Hpushed.
      split.
      * intros [H | (d & Hd & Hne & Hx)]; [now left|].
        right. exists result, d. auto.
      * intros [H | (r & d & Hr & Hd & Hne & Hx)]; [now left|].
        injection Hr as <-. right. exists d. auto.
  - split; [exact defaultDashboards_NoDup|]. split; [reflexivity|].
    intros x. split; [auto|].
    intros [H | (r & d & Hr & _)]; [exact H | discriminate].
Qed.

Lemma dashboardList_unique_defaults_first_witness :
  In "/energy/0"
    (dashboardList
       (Some [{| url_path := "energy"; title := Some "Energy";
                 mode := Some "storage" |};
              {| url_path := ""; title := None; mode := None |}])).
Proof.
  apply (proj2 (proj2 (dashboardList_unique_defaults_first _))).
  right. eexists. eexists.
  split; [reflexivity|].
  split; [left; reflexivity|].
  split; [discriminate|].
  right. right. left. reflexivity.
Defined.

End DashboardFacts.

(* ------------------------------------------------------------------ *)
(** ** Properties of the release script *)

Module ReleaseFacts.
Import Js Release.
Local Open Scope string_scope.

(** *** Splitting and printing *)

Lemma split_without (sep : ascii) (s : string) :
  hasChar sep s = false -> split sep s = [s].
Proof.
  induction s as [|x r IH]; cbn [hasChar split]; intros H; [reflexivity|].
  apply orb_false_iff in H as [Hx Hr]. rewrite Hx, (IH Hr). reflexivity.
Qed.

Lemma split_at (sep : ascii) (s rest : string) :
  hasChar sep s = false ->
  split sep (s ++ String sep rest) = s :: split sep rest.
Proof.
  induction s as [|x r IH]; cbn [hasChar split append]; intros H.
  - rewrite Ascii.eqb_refl. reflexivity.
  - apply orb_false_iff in H as [Hx Hr]. rewrite Hx, (IH Hr). reflexivity.
Qed.

Lemma digits_without_dot (d : Decimal.uint) :
  hasChar "." (NilEmpty.string_of_uint d) = false.
Proof. induction d; cbn; assumption || reflexivity. Qed.

Lemma showNumber_without_dot (n : N) : hasChar "." (showNumber (Int n)) = false.
Proof. apply digits_without_dot. Qed.

Lemma toNumber_showNumber (n : N) :
  (n <= MAX_SAFE_INTEGER)%N -> toNumber (showNumber (Int n)) = Some (Int n).
Proof.
  intros Hn. unfold toNumber, showNumber.
  rewrite NilEmpty.usu, DecimalN.Unsigned.of_to.
  apply N.leb_le in Hn. rewrite Hn. reflexivity.
Qed.

Lemma split_version (a b c : N) :
  split "." (versionString a b c)
  = [showNumber (Int a); showNumber (Int b); showNumber (Int c)].
Proof.
  unfold versionString.
  change (showNumber (Int a) ++ "." ++ showNumber (Int b) ++ "."
          ++ showNumber (Int c))
    with (showNumber (Int a)
          ++ String "." (showNumber (Int b)
                         ++ String "." (showNumber (Int c)))).
  rewrite !split_at, split_without by apply showNumber_without_dot.
  reflexivity.
Qed.

(** [bumpVersion] on a version of three numbers: the part named is
    raised by one and the parts after it are set to 0, the parts before
    it are kept. *)
Theorem bumpVersion_three_numbers :
  forall major minor patch : N,
    (major <= MAX_SAFE_INTEGER)%N ->
    (minor <= MAX_SAFE_INTEGER)%N ->
    (patch <= MAX_SAFE_INTEGER)%N ->
    bumpVersion (versionString major minor patch) "major"
    = Some (Returned (versionString (major + 1) 0 0))
    /\ bumpVersion (versionString major minor patch) "minor"
       = Some (Returned (versionString major (minor + 1) 0))
    /\ bumpVersion (versionString major minor patch) "patch"
       = Some (Returned (versionString major minor (patch + 1))).
Proof.
  intros major minor patch Ha Hb Hc.
  unfold bumpVersion. rewrite split_version.
  cbn [String.eqb Ascii.eqb Bool.eqb partAt nth_error option_map].
  rewrite !toNumber_showNumber by assumption.
  cbn [option_map plusOne showPart].
  repeat split.
Qed.

Lemma bumpVersion_three_numbers_witness :
  bumpVersion "0.6.3" "minor" = Some (Returned "0.7.0").
Proof.
  apply (bumpVersion_three_numbers 0 6 3); vm_compute; discriminate.
Defined.

(** [bumpVersion] at its edges.  A bump type other than [major],
    [minor] and [patch] throws, whatever the version; a patch bump of a
    version of two numbers has no patch to raise and answers with [NaN]
    in its place. *)
Theorem bumpVersion_edges :
  (forall version type : string,
      type <> "major" -> type <> "minor" -> type <> "patch" ->
      bumpVersion version type
      = Some (Threw (Error ("Invalid bump type: " ++ type
                            ++ ". Use patch, minor, or major"))))
  /\ (forall major minor : N,
        (major <= MAX_SAFE_INTEGER)%N ->
        (minor <= MAX_SAFE_INTEGER)%N ->
        bumpVersion (showNumber (Int major) ++ "." ++ showNumber (Int minor))
          "patch"
        = Some (Returned (showNumber (Int major) ++ "."
                          ++ showNumber (Int minor) ++ ".NaN"))).
Proof.
  split.
  - intros version type Hmajor Hminor Hpatch. unfold bumpVersion.
    apply String.eqb_neq in Hmajor, Hminor, Hpatch.
    rewrite Hmajor, Hminor, Hpatch. reflexivity.
  - intros major minor Ha Hb. unfold bumpVersion.
    change (showNumber (Int major) ++ "." ++ showNumber (Int minor))
      with (showNumber (Int major) ++ String "." (showNumber (Int minor))).
    rewrite split_at, split_without by apply showNumber_without_dot.
    cbn [String.eqb Ascii.eqb Bool.eqb partAt nth_error option_map].
    rewrite !toNumber_showNumber by assumption.
    reflexivity.
Qed.

Lemma bumpVersion_edges_witness :
  bumpVersion "0.6.3" "release"
  = Some (Threw (Error "Invalid bump type: release. Use patch, minor, or major"))
  /\ bumpVersion "0.6" "patch" = Some (Returned "0.6.NaN").
Proof.
  destruct bumpVersion_edges as [Htype Hshort]. split.
  - apply (Htype "0.6.3" "release"); discriminate.
  - apply (Hshort 0%N 6%N); vm_compute; discriminate.
Defined.

(** *** cleanCommitMessage *)

Lemma isAscii_app (a b : string) :
  isAscii (a ++ b) = isAscii a && isAscii b.
Proof.
  induction a as [|c a IH]; cbn [append isAscii]; [reflexivity|].
  rewrite IH, andb_assoc. reflexivity.
Qed.

Lemma span_scope (scope rest : string) :
  hasChar ")" scope = false ->
  Url.span (fun c => negb (Ascii.eqb c ")")) (scope ++ String ")" rest)
  = (scope, String ")" rest).
Proof.
  induction scope as [|c scope IH]; cbn [hasChar append Url.span]; intros H.
  - reflexivity.
  - apply orb_false_iff in H as [Hc Hs]. rewrite Hc, (IH Hs). reflexivity.
Qed.

Lemma matchScope_scope (scope rest : string) :
  scope <> "" ->
  hasChar ")" scope = false ->
  matchScope (String "(" (scope ++ String ")" rest)) = Some rest.
Proof.
  intros Hne Hscope.
  assert (H : matchScope (String "(" (scope ++ String ")" rest))
              = let (inner, rest0) :=
                  Url.span (fun c => negb (Ascii.eqb c ")"))
                    (scope ++ String ")" rest) in
                match inner, rest0 with
                | String _ _, String ")" rest' => Some rest'
                | _, _ => None
                end) by reflexivity.
  rewrite H, (span_scope scope rest Hscope).
  destruct scope as [|c scope]; [congruence | reflexivity].
Qed.

Lemma matchTail_scope (scope message : string) :
  scope <> "" ->
  hasChar ")" scope = false ->
  dropWhile isWhiteSpace message = message ->
  matchTail ("(" ++ scope ++ "): " ++ message) = Some message.
Proof.
  intros Hne Hscope Hmessage. unfold matchTail.
  change ("(" ++ scope ++ "): " ++ message)
    with (String "(" (scope ++ String ")" (String ":" (String " " message)))).
  rewrite (matchScope_scope scope _ Hne Hscope).
  change (matchColon (String ":" (String " " message)))
    with (Some (dropWhile isWhiteSpace message)).
  rewrite Hmessage. reflexivity.
Qed.

Lemma matchTail_colon (message : string) :
  dropWhile isWhiteSpace message = message ->
  matchTail (": " ++ message) = Some message.
Proof.
  intros Hmessage.
  change (matchTail (": " ++ message))
    with (Some (dropWhile isWhiteSpace message)).
  rewrite Hmessage. reflexivity.
Qed.

Lemma removePrefix_word (word tail message : string) :
  In word prefixWords ->
  matchTail tail = Some message ->
  removePrefix (word ++ tail) = message.
Proof.
  unfold removePrefix, prefixWords. intros Hword Htail.
  repeat (destruct Hword as [<- | Hword];
          [cbn [matchPrefix];
           repeat match goal with
             | |- context [matchWord ?w ?s] =>
                 let r := eval vm_compute in (matchWord w s) in
                 change (matchWord w s) with r; cbv iota
             end;
           rewrite Htail; reflexivity|]).
  destruct Hword.
Qed.

Lemma toUpperChar_not_lower (c : ascii) :
  Url.is_lower (toUpperChar c) = false.
Proof.
  unfold toUpperChar, Url.is_lower, Url.in_range.
  destruct ((97 <=? nat_of_ascii c)%nat && (nat_of_ascii c <=? 122)%nat)
    eqn:Hrange; [|exact Hrange].
  apply andb_true_iff in Hrange as [Hlo Hhi].
  apply Nat.leb_le in Hlo, Hhi.
  rewrite nat_ascii_embedding by lia.
  apply andb_false_iff. left. apply Nat.leb_gt. lia.
Qed.

Lemma dropTrailingPeriod_head (s : string) (c : ascii) (r : string) :
  dropTrailingPeriod s = String c r -> exists r', s = String c r'.
Proof.
  destruct s as [|x [|y s]]; cbn [dropTrailingPeriod]; intros H.
  - discriminate.
  - destruct (Ascii.eqb x "."); [discriminate|].
    injection H as <- <-. eexists. reflexivity.
  - injection H as <- _. eexists. reflexivity.
Qed.

(** [cleanCommitMessage] on messages of ASCII characters.  A
    conventional-commit prefix (feat, fix, change, refactor, update,
    add, improve), with or without a scope in parentheses, is removed
    together with the colon and the space after it; the first letter of
    what is left is made upper case and one final period is dropped.
    Whatever the message, the cleaned message does not begin with a
    lower-case letter. *)
Theorem cleanCommitMessage_conventional :
  (forall word scope message : string,
      In word prefixWords ->
      isAscii scope = true -> isAscii message = true ->
      scope <> "" -> hasChar ")" scope = false ->
      dropWhile isWhiteSpace message = message ->
      cleanCommitMessage (word ++ "(" ++ scope ++ "): " ++ message)
      = Some (dropTrailingPeriod (capitalize message))
      /\ cleanCommitMessage (word ++ ": " ++ message)
         = Some (dropTrailingPeriod (capitalize message)))
  /\ (forall (message cleanedMessage : string) (c : ascii) (rest : string),
        cleanCommitMessage message = Some cleanedMessage ->
        cleanedMessage = String c rest ->
        Url.is_lower c = false).
Proof.
  split.
  - intros word scope message Hword Hscope Hmessage Hne Hparen Hstart.
    assert (Hw : isAscii word = true).
    { unfold prefixWords in Hword.
      repeat (destruct Hword as [<- | Hword]; [reflexivity|]).
      destruct Hword. }
    unfold cleanCommitMessage. split.
    + rewrite !isAscii_app, Hw, Hscope, Hmessage. cbn [isAscii andb].
      rewrite (removePrefix_word word _ message Hword
                 (matchTail_scope scope message Hne Hparen Hstart)).
      reflexivity.
    + rewrite !isAscii_app, Hw, Hmessage. cbn [isAscii andb].
      rewrite (removePrefix_word word _ message Hword
                 (matchTail_colon message Hstart)).
      reflexivity.
  - intros message cleanedMessage c rest Hclean ->.
    unfold cleanCommitMessage in Hclean.
    destruct (isAscii message); [|discriminate].
    injection Hclean as Hclean.
    apply dropTrailingPeriod_head in Hclean as [r' Hcap].
    unfold capitalize in Hcap.
    destruct (removePrefix message) as [|x s]; [discriminate|].
    destruct (Ascii.eqb x LF || Ascii.eqb x CR) eqn:Hline.
    + injection Hcap as <- _.
      apply orb_true_iff in Hline as [H | H]; apply Ascii.eqb_eq in H;
        subst x; reflexivity.
    + injection Hcap as <- _. apply toUpperChar_not_lower.
Qed.

Lemma cleanCommitMessage_conventional_witness :
  cleanCommitMessage "fix(navigation): compare origins, not prefixes."
  = Some "Compare origins, not prefixes".
Proof.
  apply (proj1 cleanCommitMessage_conventional "fix" "navigation"
           "compare origins, not prefixes.");
    try reflexivity; try discriminate.
  cbn. auto 10.
Defined.

(** *** Sorting the commits *)

Local Open Scope list_scope.








(** *** formatChangelogEntries *)

Lemma section_not_empty (title : string) (entries : list string) :
  exists c rest, section title entries = String c rest.
Proof. eexists. eexists. reflexivity. Qed.

Lemma join_starts (sep : string) (c : ascii) (x : string) (l : list string) :
  exists rest, join sep (String c x :: l) = String c rest.
Proof. destruct l; eexists; reflexivity. Qed.

(** The changelog entries are the empty string exactly when no commit
    was sorted into any category; otherwise they begin with a section
    heading.  [release] and [updateChangelog] test the entries for
    emptiness to decide whether there is anything to add. *)
Theorem formatChangelogEntries_empty_iff_no_commits :
  forall categories : Categories,
    (formatChangelogEntries categories = ""%string <->
     added categories = [] /\ changed categories = []
     /\ fixed categories = [] /\ other categories = [])
    /\ (formatChangelogEntries categories <> ""%string ->
        startsWith (formatChangelogEntries categories) "### " = true).
Proof.
  intros [a c f o]. unfold formatChangelogEntries.
  cbn [added changed fixed other].
  destruct a as [|a1 a]; destruct c as [|c1 c]; destruct o as [|o1 o];
    destruct f as [|f1 f]; cbn [app join];
    (split; [split; [intros H; try discriminate; auto
                    | intros (Ha & Hc & Hf & Ho);
                      try discriminate; reflexivity]
            | intros H; try congruence; reflexivity]).
Qed.

Lemma formatChangelogEntries_empty_iff_no_commits_witness :
  formatChangelogEntries noCategories = ""%string
  /\ startsWith
       (formatChangelogEntries
          {| added := []; changed := []; fixed := ["Origins"];
             other := [] |}) "### " = true.
Proof.
  split.
  - apply (proj1 (formatChangelogEntries_empty_iff_no_commits
                    noCategories)).
    repeat split.
  - apply (proj2 (formatChangelogEntries_empty_iff_no_commits
                    {| added := []; changed := []; fixed := ["Origins"];
                       other := [] |})).
    discriminate.
Defined.

End ReleaseFacts.

(* ------------------------------------------------------------------ *)
(** ** Properties of the changelog update *)

Module ChangelogFacts.
Import Js Release.
Local Open Scope string_scope.

Lemma slice_parts (n : nat) (s : string) :
  sliceTo n s ++ sliceFrom n s = s.
Proof.
  revert s. induction n as [|n IH]; intros s; [reflexivity|].
  destruct s as [|c r]; [reflexivity|].
  cbn [sliceTo sliceFrom append]. rewrite IH. reflexivity.
Qed.

Lemma indexOf_found (needle s : string) (i : nat) :
  indexOf needle s = Some i ->
  String.prefix needle (sliceFrom i s) = true.
Proof.
  revert i. induction s as [|c r IH]; intros i.
  - cbn [indexOf]. destruct (String.prefix needle "") eqn:E;
      [|discriminate]. intros [= <-]. exact E.
  - cbn [indexOf]. destruct (String.prefix needle (String c r)) eqn:E.
    + intros [= <-]. exact E.
    + destruct (indexOf needle r) as [j|]; [|discriminate].
      intros [= <-]. cbn [sliceFrom]. apply IH. reflexivity.
Qed.

Lemma indexOf_finds (needle a b : string) :
  exists i, indexOf needle (a ++ needle ++ b) = Some i.
Proof.
  induction a as [|c a [i IH]].
  - exists 0%nat. cbn [append].
    assert (Hp : String.prefix needle (needle ++ b) = true).
    { clear. induction needle as [|c n IH]; [destruct b; reflexivity|].
      cbn [append String.prefix].
      destruct (Ascii.ascii_dec c c) as [_|Hne]; [exact IH|congruence]. }
    destruct (needle ++ b); cbn [indexOf]; rewrite Hp; reflexivity.
  - cbn [append indexOf]. rewrite IH.
    destruct (String.prefix needle (String c (a ++ needle ++ b)));
      eexists; reflexivity.
Qed.

Lemma lastIndexOf_found (needle s : string) (i : nat) :
  lastIndexOf needle s = Some i ->
  String.prefix needle (sliceFrom i s) = true.
Proof.
  revert i. induction s as [|c r IH]; intros i.
  - cbn [lastIndexOf]. destruct (String.prefix needle "") eqn:E;
      [|discriminate]. intros [= <-]. exact E.
  - cbn [lastIndexOf]. destruct (lastIndexOf needle r) as [j|].
    + intros [= <-]. cbn [sliceFrom]. apply IH. reflexivity.
    + destruct (String.prefix needle (String c r)) eqn:E;
        [|discriminate]. intros [= <-]. exact E.
Qed.

(** Cutting one character further takes the first character of what is
    left. *)
Lemma sliceTo_next (n : nat) (s : string) (c : ascii) (r : string) :
  sliceFrom n s = String c r ->
  sliceTo (n + 1) s = sliceTo n s ++ String c ""
  /\ sliceFrom (n + 1) s = r.
Proof.
  revert s. induction n as [|n IH]; intros s H.
  - cbn [sliceFrom] in H. subst s. split; reflexivity.
  - destruct s as [|x s]; [discriminate|].
    cbn [sliceFrom] in H. destruct (IH s H) as [H1 H2].
    cbn [Nat.add sliceTo sliceFrom append]. rewrite H1, H2.
    split; reflexivity.
Qed.

Lemma append_assoc (a b c : string) : (a ++ b) ++ c = a ++ b ++ c.
Proof.
  induction a as [|x a IH]; [reflexivity|].
  cbn [append]. rewrite IH. reflexivity.
Qed.

Lemma indexOf_bound (needle s : string) (i : nat) :
  indexOf needle s = Some i -> (i <= String.length s)%nat.
Proof.
  revert i. induction s as [|c r IH]; intros i.
  - cbn [indexOf]. destruct (String.prefix needle ""); [|discriminate].
    intros [= <-]. apply Nat.le_0_l.
  - cbn [indexOf]. destruct (String.prefix needle (String c r)).
    + intros [= <-]. apply Nat.le_0_l.
    + destruct (indexOf needle r) as [j|]; [|discriminate].
      intros [= <-]. cbn [String.length]. apply le_n_S, IH. reflexivity.
Qed.

(** [indexOf] answers with the first occurrence. *)
Lemma indexOf_first (needle s : string) (i : nat) :
  indexOf needle s = Some i ->
  forall j : nat, (j < i)%nat -> String.prefix needle (sliceFrom j s) = false.
Proof.
  revert i. induction s as [|c r IH]; intros i.
  - cbn [indexOf]. destruct (String.prefix needle ""); [|discriminate].
    intros [= <-] j Hj. inversion Hj.
  - cbn [indexOf]. destruct (String.prefix needle (String c r)) eqn:E.
    + intros [= <-] j Hj. inversion Hj.
    + destruct (indexOf needle r) as [i'|]; [|discriminate].
      intros [= <-] j Hj. destruct j as [|j]; [exact E|].
      cbn [sliceFrom]. apply (IH i' eq_refl). apply Nat.succ_lt_mono, Hj.
Qed.

Lemma lastIndexOf_bound (needle s : string) (i : nat) :
  lastIndexOf needle s = Some i -> (i <= String.length s)%nat.
Proof.
  revert i. induction s as [|c r IH]; intros i.
  - cbn [lastIndexOf]. destruct (String.prefix needle ""); [|discriminate].
    intros [= <-]. apply Nat.le_0_l.
  - cbn [lastIndexOf]. destruct (lastIndexOf needle r) as [j|].
    + intros [= <-]. cbn [String.length]. apply le_n_S, IH. reflexivity.
    + destruct (String.prefix needle (String c r)); [|discriminate].
      intros [= <-]. apply Nat.le_0_l.
Qed.

(** [lastIndexOf] answers -1 only when there is no occurrence at all. *)
Lemma lastIndexOf_none (needle s : string) :
  lastIndexOf needle s = None ->
  forall j : nat,
    (j <= String.length s)%nat ->
    String.prefix needle (sliceFrom j s) = false.
Proof.
  induction s as [|c r IH].
  - cbn [lastIndexOf]. destruct (String.prefix needle "") eqn:E;
      [discriminate|].
    intros _ j Hj. destruct j; [exact E | inversion Hj].
  - cbn [lastIndexOf]. destruct (lastIndexOf needle r) as [i|];
      [discriminate|].
    destruct (String.prefix needle (String c r)) eqn:E; [discriminate|].
    intros _ j Hj. destruct j as [|j]; [exact E|].
    cbn [sliceFrom]. apply IH; [reflexivity|].
    cbn [String.length] in Hj. apply le_S_n, Hj.
Qed.

(** [lastIndexOf] answers with the last occurrence. *)
Lemma lastIndexOf_last (needle s : string) (i : nat) :
  lastIndexOf needle s = Some i ->
  forall j : nat,
    (i < j)%nat -> (j <= String.length s)%nat ->
    String.prefix needle (sliceFrom j s) = false.
Proof.
  revert i. induction s as [|c r IH]; intros i.
  - intros _ j Hij Hj. cbn [String.length] in Hj.
    inversion Hj. subst j. inversion Hij.
  - cbn [lastIndexOf]. destruct (lastIndexOf needle r) as [i'|] eqn:Hr.
    + intros [= <-] j Hij Hj. destruct j as [|j]; [inversion Hij|].
      cbn [sliceFrom]. cbn [String.length] in Hj.
      apply (IH i' eq_refl); [apply Nat.succ_lt_mono, Hij | apply le_S_n, Hj].
    + destruct (String.prefix needle (String c r)); [|discriminate].
      intros [= <-] j Hij Hj. destruct j as [|j]; [inversion Hij|].
      cbn [sliceFrom]. cbn [String.length] in Hj.
      apply (lastIndexOf_none _ _ Hr). apply le_S_n, Hj.
Qed.

(** [updateChangelog] loses nothing of the changelog and cuts it at two
    places only.  The header ends where the version heading first
    occurs, and the new section is written between the header and the
    rest.  The new comparison link is written in the rest before the
    last line that starts with an opening bracket, after any such line
    before it; when the rest has no such line the link is appended.
    Without entries or without a version heading nothing is written;
    with both, the file is written. *)
Theorem updateChangelog_keeps_old_text
    (content today newVersion previousVersion entries : string) :
  (forall updated,
     updateChangelog content today newVersion previousVersion entries
     = Some updated ->
     exists headerEnd : nat,
       occursAt versionHeading content headerEnd
       /\ (forall j : nat,
             (j < headerEnd)%nat -> ~ occursAt versionHeading content j)
       /\ ((exists linksStart : nat,
               occursAt linkLine (sliceFrom headerEnd content) linksStart
               /\ (forall j : nat,
                     (linksStart < j)%nat ->
                     ~ occursAt linkLine (sliceFrom headerEnd content) j)
               /\ content
                  = sliceTo headerEnd content
                    ++ sliceTo linksStart (sliceFrom headerEnd content)
                    ++ sliceFrom linksStart (sliceFrom headerEnd content)
               /\ updated
                  = sliceTo headerEnd content ++ String LF ""
                    ++ newSection newVersion today entries
                    ++ sliceTo linksStart (sliceFrom headerEnd content)
                    ++ String LF ""
                    ++ newLink newVersion previousVersion
                    ++ sliceFrom linksStart (sliceFrom headerEnd content))
           \/ ((forall j : nat,
                   ~ occursAt linkLine (sliceFrom headerEnd content) j)
               /\ content
                  = sliceTo headerEnd content ++ sliceFrom headerEnd content
               /\ updated
                  = sliceTo headerEnd content ++ String LF ""
                    ++ newSection newVersion today entries
                    ++ sliceFrom headerEnd content ++ String LF ""
                    ++ newLink newVersion previousVersion
                    ++ String LF "")))
  /\ (entries = "" ->
      updateChangelog content today newVersion previousVersion entries
      = None)
  /\ ((forall j : nat, ~ occursAt versionHeading content j) ->
      updateChangelog content today newVersion previousVersion entries
      = None)
  /\ (entries <> "" ->
      forall a b, content = a ++ versionHeading ++ b ->
      updateChangelog content today newVersion previousVersion entries
      <> None).
Proof.
  split; [|split; [|split]].
  - intros updated. unfold updateChangelog.
    generalize (newSection newVersion today entries) as section.
    generalize (newLink newVersion previousVersion) as link.
    intros link section.
    destruct entries as [|e entries']; [discriminate|].
    destruct (indexOf versionHeading content) as [headerEnd|] eqn:Hhead;
      [|discriminate].
    pose proof (indexOf_found _ _ _ Hhead) as Hrest.
    pose proof (indexOf_bound _ _ _ Hhead) as Hbound.
    pose proof (indexOf_first _ _ _ Hhead) as Hfirst.
    pose proof (slice_parts headerEnd content) as Hcut.
    intros Hupdated. exists headerEnd.
    split; [split; assumption|].
    split.
    { intros j Hj [_ Hocc]. rewrite (Hfirst j Hj) in Hocc. discriminate. }
    revert Hupdated.
    set (rest := sliceFrom headerEnd content) in *.
    set (header := sliceTo headerEnd content) in *.
    destruct (lastIndexOf linkLine rest) as [linksStart|] eqn:Hlinks.
    + intros [= <-]. left. exists linksStart.
      pose proof (lastIndexOf_found _ _ _ Hlinks) as Hfound.
      pose proof (lastIndexOf_bound _ _ _ Hlinks) as Hlbound.
      pose proof (lastIndexOf_last _ _ _ Hlinks) as Hlast.
      pose proof (slice_parts linksStart rest) as Hcut2.
      split; [split; assumption|].
      split.
      { intros j Hj [Hjb Hocc]. rewrite (Hlast j Hj Hjb) in Hocc.
        discriminate. }
      split; [rewrite Hcut2; symmetry; exact Hcut|].
      destruct (sliceFrom linksStart rest) as [|c r] eqn:Hfrom;
        [discriminate|].
      assert (Hc : c = LF).
      { unfold linkLine in Hfound. cbn [String.prefix] in Hfound.
        destruct (Ascii.ascii_dec LF c) as [<-|]; [reflexivity|].
        discriminate. }
      subst c.
      destruct (sliceTo_next linksStart rest LF r Hfrom) as [Hto _].
      rewrite Hto. rewrite !append_assoc. reflexivity.
    + intros [= <-]. right.
      pose proof (lastIndexOf_none _ _ Hlinks) as Hnone.
      split.
      { intros j [Hjb Hocc]. rewrite (Hnone j Hjb) in Hocc. discriminate. }
      split; [symmetry; exact Hcut|].
      reflexivity.
  - intros ->. reflexivity.
  - intros Hnone. unfold updateChangelog.
    destruct (indexOf versionHeading content) as [i|] eqn:Hhead.
    + exfalso. apply (Hnone i). split.
      * exact (indexOf_bound _ _ _ Hhead).
      * exact (indexOf_found _ _ _ Hhead).
    + destruct entries; reflexivity.
  - intros Hentries a b ->. unfold updateChangelog.
    destruct entries as [|e entries']; [contradiction|].
    destruct (indexOf_finds versionHeading a b) as [i ->].
    discriminate.
Qed.

(** The release of 0.6.3 into a changelog of two versions: the new
    section goes above 0.6.2, and the new link goes before the last link
    line, which puts it between the links of 0.6.2 and 0.6.1. *)
Lemma updateChangelog_keeps_old_text_witness :
  updateChangelog ReleaseScenarios.changelogBefore "2025-02-01"
    "0.6.3" "0.6.2" ReleaseScenarios.entriesOfRelease
  = Some ReleaseScenarios.changelogAfter
  /\ exists headerEnd : nat,
       occursAt versionHeading ReleaseScenarios.changelogBefore headerEnd
       /\ (forall j : nat,
             (j < headerEnd)%nat ->
             ~ occursAt versionHeading ReleaseScenarios.changelogBefore j)
       /\ ((exists linksStart : nat,
               occursAt linkLine
                 (sliceFrom headerEnd ReleaseScenarios.changelogBefore)
                 linksStart
               /\ (forall j : nat,
                     (linksStart < j)%nat ->
                     ~ occursAt linkLine
                         (sliceFrom headerEnd
                            ReleaseScenarios.changelogBefore) j)
               /\ ReleaseScenarios.changelogBefore
                  = sliceTo headerEnd ReleaseScenarios.changelogBefore
                    ++ sliceTo linksStart
                         (sliceFrom headerEnd
                            ReleaseScenarios.changelogBefore)
                    ++ sliceFrom linksStart
                         (sliceFrom headerEnd
                            ReleaseScenarios.changelogBefore)
               /\ ReleaseScenarios.changelogAfter
                  = sliceTo headerEnd ReleaseScenarios.changelogBefore
                    ++ String LF ""
                    ++ newSection "0.6.3" "2025-02-01"
                         ReleaseScenarios.entriesOfRelease
                    ++ sliceTo linksStart
                         (sliceFrom headerEnd
                            ReleaseScenarios.changelogBefore)
                    ++ String LF ""
                    ++ newLink "0.6.3" "0.6.2"
                    ++ sliceFrom linksStart
                         (sliceFrom headerEnd
                            ReleaseScenarios.changelogBefore))
           \/ ((forall j : nat,
                   ~ occursAt linkLine
                       (sliceFrom headerEnd
                          ReleaseScenarios.changelogBefore) j)
               /\ ReleaseScenarios.changelogBefore
                  = sliceTo headerEnd ReleaseScenarios.changelogBefore
                    ++ sliceFrom headerEnd ReleaseScenarios.changelogBefore
               /\ ReleaseScenarios.changelogAfter
                  = sliceTo headerEnd ReleaseScenarios.changelogBefore
                    ++ String LF ""
                    ++ newSection "0.6.3" "2025-02-01"
                         ReleaseScenarios.entriesOfRelease
                    ++ sliceFrom headerEnd ReleaseScenarios.changelogBefore
                    ++ String LF ""
                    ++ newLink "0.6.3" "0.6.2"
                    ++ String LF "")).
Proof.
  split; [vm_compute; reflexivity|].
  exact (proj1 (updateChangelog_keeps_old_text
                  ReleaseScenarios.changelogBefore "2025-02-01"
                  "0.6.3" "0.6.2" ReleaseScenarios.entriesOfRelease)
           ReleaseScenarios.changelogAfter eq_refl).
Defined.

(** A release without commits for the changelog leaves the changelog as
    it is: the entries [formatChangelogEntries] makes of empty
    categories stop [updateChangelog] before it writes. *)
Theorem release_without_commits_keeps_changelog
    (content today newVersion previousVersion : string)
    (categories : Categories) :
  added categories = [] -> changed categories = [] ->
  fixed categories = [] -> other categories = [] ->
  updateChangelog content today newVersion previousVersion
    (formatChangelogEntries categories) = None.
Proof.
  intros Ha Hc Hf Ho. unfold formatChangelogEntries.
  rewrite Ha, Hc, Hf, Ho. reflexivity.
Qed.

Lemma release_without_commits_keeps_changelog_witness :
  updateChangelog "# Changelog" "2025-02-01" "0.6.3" "0.6.2"
    (formatChangelogEntries noCategories) = None.
Proof.
  exact (release_without_commits_keeps_changelog _ _ _ _ noCategories
           eq_refl eq_refl eq_refl eq_refl).
Defined.

End ChangelogFacts.

(* ------------------------------------------------------------------ *)
(** ** Properties of the form parsing helpers *)

Module FormParsingFacts.
Import FormParsing.

Lemma isAscii_append (a b : string) :
  Release.isAscii (a ++ b) = Release.isAscii a && Release.isAscii b.
Proof.
  induction a as [|c a IH]; [reflexivity|].
  cbn [append Release.isAscii]. rewrite IH. apply andb_assoc.
Qed.

Lemma isBlank_isAscii_dropWhile (ws s : string) :
  isBlank ws = true ->
  Release.dropWhile Release.isWhiteSpace (ws ++ s)
  = Release.dropWhile Release.isWhiteSpace s.
Proof.
  unfold isBlank. induction ws as [|c ws IH]; intros H; [reflexivity|].
  cbn [append Release.dropWhile] in *.
  destruct (Release.isWhiteSpace c); [apply IH; exact H | discriminate].
Qed.







Lemma isBlank_isAscii (ws : string) :
  isBlank ws = true -> Release.isAscii ws = true.
Proof.
  unfold isBlank. induction ws as [|c r IH]; [reflexivity|].
  cbn [Release.dropWhile Release.isAscii].
  destruct (Release.isWhiteSpace c) eqn:E; [|discriminate].
  intros H. rewrite (IH H), andb_true_r.
  unfold Release.isWhiteSpace in E. unfold Release.isAsciiChar.
  apply Nat.ltb_lt. apply orb_true_iff in E as [E|E].
  - apply andb_true_iff in E as [_ E]. apply Nat.leb_le in E. lia.
  - apply Nat.eqb_eq in E. lia.
Qed.




(** The default is returned for a missing, empty or blank input, and for
    one whose first character after the white space is neither a digit
    nor a sign. *)
Theorem parseIntOrDefault_default_when_no_integer
    (ws rest : string) (defaultValue : Z) :
  isBlank ws = true -> Release.isAscii rest = true ->
  beginsWith Url.is_digit rest = false ->
  beginsWith isSign rest = false ->
  beginsWith Release.isWhiteSpace rest = false ->
  parseIntOrDefault None defaultValue = Some defaultValue
  /\ parseIntOrDefault (Some ws) defaultValue = Some defaultValue
  /\ parseIntOrDefault (Some (ws ++ rest)) defaultValue
     = Some defaultValue.
Proof.
  intros Hws Hrest Hdigit Hsign Hspace.
  assert (Hblank : parseIntOrDefault (Some ws) defaultValue
                   = Some defaultValue).
  { unfold parseIntOrDefault. destruct ws as [|c r]; [reflexivity|].
    rewrite (isBlank_isAscii _ Hws), Hws. reflexivity. }
  split; [reflexivity|]. split; [exact Hblank|].
  destruct rest as [|c r].
  { replace (ws ++ "") with ws; [exact Hblank|].
    clear. induction ws as [|c ws IH]; [reflexivity|].
    cbn [append]. rewrite <- IH. reflexivity. }
  cbn [beginsWith] in Hdigit, Hsign, Hspace.
  assert (Hascii : Release.isAscii (ws ++ String c r) = true).
  { rewrite isAscii_append, (isBlank_isAscii ws Hws), Hrest.
    reflexivity. }
  assert (Hdrop : Release.dropWhile Release.isWhiteSpace
                    (ws ++ String c r) = String c r).
  { rewrite isBlank_isAscii_dropWhile by exact Hws.
    cbn [Release.dropWhile]. rewrite Hspace. reflexivity. }
  assert (Hparse : parseInt10 (ws ++ String c r) = Some NotANumber).
  { unfold parseInt10. rewrite Hascii, Hdrop. cbn [negb].
    assert (Hnosign :
      match String c r with
      | String "-" r0 => (true, r0)
      | String "+" r0 => (false, r0)
      | _ => (false, String c r)
      end = (false, String c r)).
    { unfold isSign in Hsign.
      apply orb_false_iff in Hsign as [Hm Hp].
      apply Ascii.eqb_neq in Hm. apply Ascii.eqb_neq in Hp.
      destruct c as [[] [] [] [] [] [] [] []]; try reflexivity;
        congruence. }
    rewrite Hnosign. cbn [Url.span]. rewrite Hdigit. reflexivity. }
  unfold parseIntOrDefault.
  rewrite Hascii, Hparse. unfold isBlank. rewrite Hdrop.
  destruct (ws ++ String c r); reflexivity.
Qed.

Lemma parseIntOrDefault_default_when_no_integer_witness :
  parseIntOrDefault (Some "  ") 800 = Some 800
  /\ parseIntOrDefault (Some "  wide") 800 = Some 800.
Proof.
  exact (proj2 (parseIntOrDefault_default_when_no_integer "  " "wide" 800
                  eq_refl eq_refl eq_refl eq_refl eq_refl)).
Defined.

End FormParsingFacts.
